(** * odordb-viewer: ingestion, identity resolution, fact store and queries

    A shallow embedding of [ingest.py], [query.py], [schema.py], of the
    search table and the wide-view aggregation of [app.py] and
    [streamlit_app.py] and of [cmd_show] of [cli.py], with the properties of
    the specification stated and proved over it.

    Conventions of the embedding.
    - A Python [str] is a [string] whose characters are code points below 256.
      On that range the functions below agree with CPython ([str.strip],
      [str.lower], comparison by code point) and with SQLite ([LOWER], [TRIM],
      [LIKE], the BINARY collation).
    - A Python [float] is a primitive binary64 [float]; parsing ([float(str)])
      and printing ([repr]) are implemented on it.
    - A pandas cell is a [pyobj]; a row ([pandas.Series]) is the list of its
      labelled cells, in column order; a [DataFrame] is its column labels with
      its rows.
    - The SQLite database is the content of its two tables, each a list of
      rows in insertion order. *)

From Stdlib Require Import ZArith List String Ascii Floats Lia DecimalString.
From stdpp Require Import strings list sorting.

Local Open Scope Z_scope.

(* ===================================================================== *)
(** * Python built-ins used by the program *)
(* ===================================================================== *)

Module Py.

(** ** Strings *)

(** [str.isspace] on one character: TAB..CR, FS..US, space, NEL and NBSP. *)
Definition isspace (c : ascii) : bool :=
  let n := nat_of_ascii c in
  ((9 <=? n)%nat && (n <=? 13)%nat) || ((28 <=? n)%nat && (n <=? 32)%nat)
  || (n =? 133)%nat || (n =? 160)%nat.

Fixpoint lstrip (s : string) : string :=
  match s with
  | EmptyString => EmptyString
  | String c r => if isspace c then lstrip r else s
  end.

Fixpoint rstrip (s : string) : string :=
  match s with
  | EmptyString => EmptyString
  | String c r =>
      match rstrip r with
      | EmptyString => if isspace c then EmptyString else String c EmptyString
      | r' => String c r'
      end
  end.

(** [s.strip()] *)
Definition strip (s : string) : string := rstrip (lstrip s).

(** [c.lower()] for one character: A-Z, and the Latin-1 capitals
    (U+00C0..U+00DE but the multiplication sign U+00D7). *)
Definition lower_char (c : ascii) : ascii :=
  let n := nat_of_ascii c in
  if ((65 <=? n)%nat && (n <=? 90)%nat)
     || ((192 <=? n)%nat && (n <=? 222)%nat && negb (n =? 215)%nat)
  then ascii_of_nat (n + 32) else c.

Fixpoint map_chars (f : ascii -> ascii) (s : string) : string :=
  match s with
  | EmptyString => EmptyString
  | String c r => String (f c) (map_chars f r)
  end.

(** [s.lower()] *)
Definition lower (s : string) : string := map_chars lower_char s.

(** [s.startswith(p)] and [s.endswith(p)] *)
Definition startswith (s p : string) : bool := String.prefix p s.
Definition endswith (s p : string) : bool := String.prefix (String.rev p) (String.rev s).

(** Truthiness of a string, as in [text or None]. *)
Definition nonempty (s : string) : option string :=
  match s with
  | EmptyString => None
  | _ => Some s
  end.

(** ** Sorting

    [sorted(xs)] is stable; [insert_by] puts an element in front of the first
    one it does not exceed. *)
Section Sorting.
Context {A : Type} (leb : A -> A -> bool).

Fixpoint insert_by (x : A) (l : list A) : list A :=
  match l with
  | [] => [x]
  | y :: l' => if leb x y then x :: l else y :: insert_by x l'
  end.

Definition sort_by (l : list A) : list A := foldr insert_by [] l.

End Sorting.

(** [sorted(xs)] on strings, and [sorted(set(xs))]. *)
Definition sorted (xs : list string) : list string := sort_by String.leb xs.
Definition sorted_set (xs : list string) : list string := sorted (remove_dups xs).

(** [sep.join(xs)] *)
Definition join (sep : string) (xs : list string) : string := String.concat sep xs.

(** [str(z)] for an [int]. *)
Definition str_of_int (z : Z) : string := NilZero.string_of_int (Z.to_int z).

(** ** Floats *)

Definition is_digit (c : ascii) : bool :=
  let n := nat_of_ascii c in (48 <=? n)%nat && (n <=? 57)%nat.

Definition digit_val (c : ascii) : Z := Z.of_nat (nat_of_ascii c) - 48.

Definition digits_val (ds : list ascii) : Z :=
  fold_left (fun acc c => 10 * acc + digit_val c) ds 0.

(** A run of digits, single underscores allowed between two digits
    ([digitpart] of the float grammar): the digits and what follows them. *)
Fixpoint scan_digits (cs : list ascii) : list ascii * list ascii :=
  match cs with
  | [] => ([], [])
  | c :: r =>
      if is_digit c then
        match r with
        | "_"%char :: ((d :: _) as r') =>
            if is_digit d
            then let (ds, rest) := scan_digits r' in (c :: ds, rest)
            else ([c], r)
        | _ => let (ds, rest) := scan_digits r in (c :: ds, rest)
        end
      else ([], cs)
  end.

Definition scan_sign (cs : list ascii) : bool * list ascii :=
  match cs with
  | "-"%char :: r => (true, r)
  | "+"%char :: r => (false, r)
  | _ => (false, cs)
  end.

Definition scan_exponent (cs : list ascii) : option Z :=
  match cs with
  | [] => Some 0
  | c :: r =>
      if bool_decide (lower_char c = "e"%char) then
        let (neg, r1) := scan_sign r in
        match scan_digits r1 with
        | ((_ :: _) as ds, []) => Some (if neg then - digits_val ds else digits_val ds)
        | _ => None
        end
      else None
  end.

(** The binary64 nearest to [± D * 10^x] (ties to even; overflow gives an
    infinity, underflow a zero). For a negative [x] the quotient is taken with
    64 guard bits and a sticky bit before rounding. *)
Definition float_of_decimal (neg : bool) (D x : Z) : float :=
  if D =? 0 then (if neg then neg_zero else zero)
  else
    let sgn (m : Z) := if neg then - m else m in
    if 0 <=? x then SF2Prim (binary_normalize prec emax (sgn (D * 10 ^ x)) 0 false)
    else
      let d := 10 ^ (- x) in
      let k := Z.log2_up d + 64 in
      let q := (D * 2 ^ k) / d in
      let sticky := if (D * 2 ^ k) mod d =? 0 then 0 else 1 in
      SF2Prim (binary_normalize prec emax (sgn (2 * q + sticky)) (- k - 1) false).

Definition eq_ci (cs : list ascii) (w : string) : bool :=
  bool_decide (map lower_char cs = list_ascii_of_string w).

(** [float(s)] for a string without surrounding whitespace: [None] stands for
    ValueError. *)
Definition float_of_str (s : string) : option float :=
  let (neg, cs) := scan_sign (list_ascii_of_string s) in
  if eq_ci cs "inf" || eq_ci cs "infinity" then Some (if neg then neg_infinity else infinity)
  else if eq_ci cs "nan" then Some nan
  else
    let (ip, r1) := scan_digits cs in
    let (fp, r2) :=
      match r1 with
      | "."%char :: r => scan_digits r
      | _ => ([], r1)
      end in
    match ip ++ fp with
    | [] => None
    | ds =>
        match scan_exponent r2 with
        | Some e => Some (float_of_decimal neg (digits_val ds) (e - Z.of_nat (length fp)))
        | None => None
        end
    end.

(** The integers a pandas cell holds: the int64 and uint64 ranges. *)
Definition int_cell (z : Z) : bool := (- 2 ^ 63 <=? z) && (z <? 2 ^ 64).

(** [float(z)] for an [int]; on [int_cell] it never raises OverflowError. *)
Definition float_of_int (z : Z) : float :=
  SF2Prim (binary_normalize prec emax z 0 false).

(** *** [repr] of a float: the shortest decimal that reads back as the float *)

Fixpoint ndigits10_aux (fuel : nat) (n : Z) : Z :=
  match fuel with
  | O => 0
  | S fuel' => if n <=? 0 then 0 else 1 + ndigits10_aux fuel' (n / 10)
  end.

Definition ndigits10 (n : Z) : Z := ndigits10_aux (S (Z.to_nat (Z.log2 n))) n.

(** [floor (log10 (num / den))] for positive [num] and [den]. *)
Definition floor_log10 (num den : Z) : Z :=
  let k := ndigits10 num - ndigits10 den in
  let ge (k : Z) := if 0 <=? k then den * 10 ^ k <=? num else den <=? num * 10 ^ (- k) in
  if ge k then k else k - 1.

(** The two decimals of [p] significant digits around [num / den], the nearer
    one first, each as [(D, x)] for [D * 10^x]. *)
Definition candidates (num den p : Z) : list (Z * Z) :=
  let k := floor_log10 num den in
  let x := k - p + 1 in
  let (n', d') := if 0 <=? x then (num, den * 10 ^ x) else (num * 10 ^ (- x), den) in
  let lo := n' / d' in
  let r := n' mod d' in
  let hi := lo + 1 in
  match (2 * r ?= d') with
  | Lt => [(lo, x); (hi, x)]
  | Gt => [(hi, x); (lo, x)]
  | Eq => if Z.even lo then [(lo, x); (hi, x)] else [(hi, x); (lo, x)]
  end.

Fixpoint shortest_aux (fuel : nat) (f : float) (num den p : Z) : Z * Z :=
  let hit := List.filter (fun c => PrimFloat.eqb (float_of_decimal false (fst c) (snd c)) f)
                         (candidates num den p) in
  match hit, fuel with
  | c :: _, _ => c
  | [], S fuel' => shortest_aux fuel' f num den (p + 1)
  | [], O => (0, 0)
  end.

Fixpoint strip_zeros (fuel : nat) (D x : Z) : Z * Z :=
  match fuel with
  | O => (D, x)
  | S fuel' =>
      if (D mod 10 =? 0) && negb (D =? 0) then strip_zeros fuel' (D / 10) (x + 1) else (D, x)
  end.

Definition zeros (n : Z) : string := string_of_list_ascii (repeat "0"%char (Z.to_nat n)).

(** The digits [d1 d2 ... dn] with value [0.d1...dn * 10^decpt], laid out as
    [repr] does: exponent form when [decpt <= -4] or [decpt > 16]. *)
Definition format_short (digits : string) (decpt : Z) : string :=
  let n := Z.of_nat (String.length digits) in
  if (decpt <=? -4) || (16 <? decpt) then
    let e := decpt - 1 in
    let mant :=
      match digits with
      | String c (String _ _ as rest) => String c ("." +:+ rest)
      | _ => digits
      end in
    mant +:+ "e" +:+ (if e <? 0 then "-" else "+") +:+
      (if Z.abs e <? 10 then "0" else "") +:+ str_of_int (Z.abs e)
  else if decpt <=? 0 then "0." +:+ zeros (- decpt) +:+ digits
  else if n <=? decpt then digits +:+ zeros (decpt - n) +:+ ".0"
  else String.substring 0 (Z.to_nat decpt) digits +:+ "." +:+
       String.substring (Z.to_nat decpt) (Z.to_nat (n - decpt)) digits.

(** [repr(f)], which is also [str(f)]. *)
Definition float_repr (f : float) : string :=
  match Prim2SF f with
  | S754_nan => "nan"
  | S754_infinity s => if s then "-inf" else "inf"
  | S754_zero s => if s then "-0.0" else "0.0"
  | S754_finite s m e =>
      let (num, den) := if 0 <=? e then (Zpos m * 2 ^ e, 1) else (Zpos m, 2 ^ (- e)) in
      let (D0, x0) := shortest_aux 17 (abs f) num den 1 in
      let (D, x) := strip_zeros 17 D0 x0 in
      let ds := str_of_int D in
      (if s then "-" else "") +:+ format_short ds (x + Z.of_nat (String.length ds))
  end.

(** [sum(fs)]: the left-to-right floating-point sum, from 0 (CPython 3.12 and
    later also compensate the rounding errors of the partial sums). *)
Definition fsum (fs : list float) : float :=
  fold_left PrimFloat.add fs zero.

(** ** Dicts

    A [dict] with [str] keys is its items in insertion order; [d[k] = v] keeps
    the place of a key that is there, and [d.get(k, default)] reads it. *)
Fixpoint dict_set {V : Type} (d : list (string * V)) (k : string) (v : V)
  : list (string * V) :=
  match d with
  | [] => [(k, v)]
  | (k', v') :: d' =>
      if String.eqb k' k then (k', v) :: d' else (k', v') :: dict_set d' k v
  end.

Fixpoint dict_get {V : Type} (d : list (string * V)) (k : string) (default : V) : V :=
  match d with
  | [] => default
  | (k', v') :: d' => if String.eqb k' k then v' else dict_get d' k default
  end.

(** [list(d.values())] *)
Definition dict_values {V : Type} (d : list (string * V)) : list V := map snd d.

(** ** [repr] of a [str]

    Single quotes, unless the text has one and no double quote; the quote and
    the backslash escaped; TAB, LF and CR as [\t], [\n], [\r]; any other
    character that is not printable (below U+0020, U+007F to U+00A0, U+00AD)
    as [\xhh]. *)
Definition dquote : ascii := ascii_of_nat 34.

Definition repr_quote (s : string) : ascii :=
  let cs := list_ascii_of_string s in
  if existsb (Ascii.eqb "'") cs && negb (existsb (Ascii.eqb dquote) cs)
  then dquote else "'"%char.

Definition hex_digit (n : nat) : ascii :=
  nth n (list_ascii_of_string "0123456789abcdef") "0"%char.

Definition repr_char (quote c : ascii) : string :=
  let n := nat_of_ascii c in
  if Ascii.eqb c quote || Ascii.eqb c "\" then String "\" (String c "")
  else if (n =? 9)%nat then "\t"
  else if (n =? 10)%nat then "\n"
  else if (n =? 13)%nat then "\r"
  else if (n <? 32)%nat || ((127 <=? n)%nat && (n <=? 160)%nat) || (n =? 173)%nat
  then "\x" +:+ String (hex_digit (n / 16)%nat) (String (hex_digit (n mod 16)%nat) "")
  else String c "".

Definition repr_str (s : string) : string :=
  let q := repr_quote s in
  String q (String.concat "" (map (repr_char q) (list_ascii_of_string s))) +:+ String q "".

(** ** Objects

    What a cell of a row can hold: [None], a pandas missing marker ([pd.NA]),
    a [bool], an [int] (of 64 bits: the cells come from [read_csv]), a
    [float] (NaN is how [read_csv] marks an empty cell) or a [str]. *)
Inductive pyobj : Type :=
| PyNone
| PyNA
| PyBool (b : bool)
| PyInt (z : Z) (Hz : Is_true (int_cell z))
| PyFloat (f : float)
| PyStr (s : string).

(** [str(v)] *)
Definition str (v : pyobj) : string :=
  match v with
  | PyNone => "None"
  | PyNA => "<NA>"
  | PyBool b => if b then "True" else "False"
  | PyInt z _ => str_of_int z
  | PyFloat f => float_repr f
  | PyStr s => s
  end.

(** [isinstance(v, (int, float))]; a [bool] is an [int]. *)
Definition is_int_or_float (v : pyobj) : bool :=
  match v with
  | PyBool _ | PyInt _ _ | PyFloat _ => true
  | _ => false
  end.

(** [float(v)] for [v] an [int], a [bool] or a [float]. *)
Definition float_of_num (v : pyobj) : float :=
  match v with
  | PyBool b => if b then one else zero
  | PyInt z _ => float_of_int z
  | PyFloat f => f
  | _ => nan
  end.

End Py.

(* ===================================================================== *)
(** * pandas: rows and frames *)
(* ===================================================================== *)

Module Pandas.
Import Py.

(** A row: labelled cells in column order. The cells are the objects of the
    record; the common dtype pandas may give the cells of one row is not
    modelled. *)
Definition Series : Type := list (string * pyobj).

(** [row.index] *)
Definition index (row : Series) : list string := map fst row.

(** [col in row.index] *)
Definition in_index (col : string) (row : Series) : bool :=
  bool_decide (col ∈ index row).

(** [row[col]]; [None] stands for KeyError. *)
Fixpoint getitem (row : Series) (col : string) : option pyobj :=
  match row with
  | [] => None
  | (c, v) :: row' => if String.eqb c col then Some v else getitem row' col
  end.

(** A frame as [read_csv] returns it: the header and the records. A record
    shorter than the header is padded with NaN. *)
Record DataFrame : Type := mkDataFrame {
  columns : list string;
  data : list (list pyobj)
}.

Definition cell (r : list pyobj) (i : nat) : pyobj := nth i r (PyFloat nan).

Definition row_series (cols : list string) (r : list pyobj) : Series :=
  imap (fun i c => (c, cell r i)) cols.

(** [df.iterrows()], the row labels dropped. *)
Definition iterrows (df : DataFrame) : list Series :=
  map (row_series (columns df)) (data df).

(** [len(df)] *)
Definition len (df : DataFrame) : nat := length (data df).

(** [df.empty]: no row or no column. *)
Definition empty (df : DataFrame) : bool :=
  match columns df, data df with
  | [], _ | _, [] => true
  | _, _ => false
  end.

(** [df[col] = df[col].astype(str)]: every cell of the column becomes its
    [str], a missing one included (NaN becomes the text nan). *)
Definition astype_str (df : DataFrame) (col : string) : DataFrame :=
  {| columns := columns df;
     data := map (fun r => imap (fun i c => if String.eqb c col
                                         then PyStr (str (cell r i))
                                         else cell r i) (columns df))
                 (data df) |}.

(** The first row of [df[mask]] where [mask] is [df[col].astype(str) == key],
    as [matches_df.iloc[0]]; [None] when no row matches. *)
Definition first_str_match (df : DataFrame) (col key : string) : option Series :=
  List.find (fun row => match getitem row col with
                        | Some v => String.eqb (str v) key
                        | None => false
                        end)
            (iterrows df).

End Pandas.

(* ===================================================================== *)
(** * The database: schema.py and the SQL functions the program uses *)
(* ===================================================================== *)

Module Schema.

(** A row of table [odors]; [unified_odor_id] is the primary key. *)
Record odor : Type := mkOdor {
  o_unified_odor_id : string;
  o_slug_first : option string;
  o_stimulus_first : option string;
  o_name : option string;
  o_cid : option string;
  o_cas : option string;
  o_smiles : option string
}.

(** A row of table [odor_facts], its autoincremented [id] being its position. *)
Record odor_fact : Type := mkFact {
  f_unified_odor_id : string;
  f_slug : string;
  f_file : string;
  f_column : string;
  f_value_text : option string;
  f_value_num : option float
}.

Record db : Type := mkDb {
  odors : list odor;
  odor_facts : list odor_fact
}.

Definition empty_db : db := {| odors := []; odor_facts := [] |}.

(** [CREATE TABLE IF NOT EXISTS ...]: the rows are left as they are. *)
Definition initialize_database (conn : db) : db := conn.

#[global] Instance odor_eq_dec : EqDecision odor.
Proof. solve_decision. Defined.

(** SQL [TRIM(x)]: spaces only. *)
Fixpoint sql_ltrim (s : string) : string :=
  match s with
  | String " " r => sql_ltrim r
  | _ => s
  end.

Fixpoint sql_rtrim (s : string) : string :=
  match s with
  | EmptyString => EmptyString
  | String c r =>
      match sql_rtrim r with
      | EmptyString => if Ascii.eqb c " " then EmptyString else String c EmptyString
      | r' => String c r'
      end
  end.

Definition sql_trim (s : string) : string := sql_rtrim (sql_ltrim s).

(** SQL [LOWER(x)]: ASCII letters only. *)
Definition sql_lower_char (c : ascii) : ascii :=
  let n := nat_of_ascii c in
  if (65 <=? n)%nat && (n <=? 90)%nat then ascii_of_nat (n + 32) else c.

Definition sql_lower (s : string) : string := Py.map_chars sql_lower_char s.

(** SQLite's [patternCompare] on the characters of a pattern and of a text:
    [%] is any run of characters, [_] any one character, anything else itself,
    ASCII letters without regard to case. *)
Fixpoint like_chars (p : list ascii) : list ascii -> bool :=
  match p with
  | [] => fun s => match s with [] => true | _ => false end
  | "%"%char :: p' =>
      fix star (s : list ascii) : bool :=
        like_chars p' s || match s with [] => false | _ :: s' => star s' end
  | "_"%char :: p' => fun s => match s with [] => false | _ :: s' => like_chars p' s' end
  | c :: p' =>
      fun s =>
        match s with
        | [] => false
        | d :: s' => Ascii.eqb (sql_lower_char c) (sql_lower_char d) && like_chars p' s'
        end
  end.

Definition like_text (s p : string) : bool :=
  like_chars (list_ascii_of_string p) (list_ascii_of_string s).

(** A text as SQLite's LIKE reads it, as a C string: up to its first NUL. *)
Fixpoint c_str (s : string) : string :=
  match s with
  | EmptyString => EmptyString
  | String c r => if Ascii.eqb c Ascii.zero then EmptyString else String c (c_str r)
  end.

(** SQL [s LIKE p] on two texts: both are read up to their first NUL. *)
Definition sql_like (s p : string) : bool := like_text (c_str s) (c_str p).

(** The size of a text in bytes, as SQLite stores it (UTF-8: two bytes for a
    code point from U+0080 on, a NUL and what follows it included). *)
Fixpoint utf8_bytes (s : string) : Z :=
  match s with
  | EmptyString => 0
  | String c r => (if (nat_of_ascii c <? 128)%nat then 1 else 2) + utf8_bytes r
  end.

Definition SQLITE_MAX_LIKE_PATTERN_LENGTH : Z := 50000.

(** SQLite evaluates LIKE only with a pattern of at most
    [SQLITE_MAX_LIKE_PATTERN_LENGTH] bytes; with a longer one the evaluation
    raises "LIKE or GLOB pattern too complex". *)
Definition like_pattern_ok (p : string) : bool :=
  utf8_bytes p <=? SQLITE_MAX_LIKE_PATTERN_LENGTH.

(** [COALESCE(x, d)] *)
Definition coalesce {A : Type} (x : option A) (d : A) : A :=
  match x with
  | Some a => a
  | None => d
  end.

End Schema.

(* ===================================================================== *)
(** * ingest.py *)
(* ===================================================================== *)

Module Ingest.
Import Py Pandas Schema.

(** Datasets with more rows than this (sum across behavior*.csv) are skipped. *)
Definition MAX_ROWS_PER_DATASET : nat := 5000.

Record Identity : Type := mkIdentity {
  unified_odor_id : string;
  slug : string;
  stimulus : string;
  name : option string;
  cid : option string;
  cas : option string;
  smiles : option string
}.

(** ** The file system

    A file is what [pd.read_csv] makes of it, [None] when it raises; a dataset
    folder is its entries in [os.listdir] order; the datasets root maps a name
    to a folder, or to [None] for an entry that is no directory. *)
Definition csv_file : Type := option DataFrame.
Definition directory : Type := list (string * csv_file).
Definition root_directory : Type := list (string * option directory).

Fixpoint lookup_entry {A : Type} (entries : list (string * A)) (fname : string) : option A :=
  match entries with
  | [] => None
  | (n, a) :: entries' => if String.eqb n fname then Some a else lookup_entry entries' fname
  end.

(** [(datasets_root / slug).is_dir()], with the folder when it is one. *)
Definition slug_directory (datasets_root : option root_directory) (slug : string)
  : option directory :=
  match datasets_root with
  | Some entries =>
      match lookup_entry entries slug with
      | Some (Some d) => Some d
      | _ => None
      end
  | None => None
  end.

(** ** Helpers *)

Definition _safe_str (value : pyobj) : option string :=
  match value with
  | PyNone => None
  | PyFloat f => if is_nan f then None else nonempty (strip (str value))
  | PyNA => None
  | _ => nonempty (strip (str value))
  end.

Fixpoint _pick_first_present (row : Series) (candidates : list string) : option string :=
  match candidates with
  | [] => None
  | col :: candidates' =>
      if in_index col row then
        match getitem row col with
        | Some v =>
            match _safe_str v with
            | Some val => Some val
            | None => _pick_first_present row candidates'
            end
        | None => _pick_first_present row candidates'
        end
      else _pick_first_present row candidates'
  end.

Definition is_stimulus_label (col : string) : bool :=
  String.eqb (lower (strip col)) "stimulus".

Definition _find_stimulus_column (df : DataFrame) : option string :=
  List.find is_stimulus_label (columns df).

(** ** Loading stimuli / molecules *)

Definition _load_stimuli (slug_dir : directory) : option DataFrame :=
  match lookup_entry slug_dir "stimuli.csv" with
  | None => None
  | Some None => None
  | Some (Some df) =>
      if empty df then None
      else match _find_stimulus_column df with
           | None => None
           | Some _ => Some df
           end
  end.

Definition _load_molecules (slug_dir : directory) : option DataFrame :=
  match lookup_entry slug_dir "molecules.csv" with
  | None => None
  | Some None => None
  | Some (Some df) =>
      if empty df then None
      else if bool_decide ("CID" ∈ columns df) then Some (astype_str df "CID")
      else None
  end.

Definition _get_stimulus_row (stim_df : option DataFrame) (stimulus_value : string)
  : option Series :=
  match stim_df with
  | None => None
  | Some df =>
      match _find_stimulus_column df with
      | Some stim_col =>
          if negb (String.eqb stim_col "") && bool_decide (stim_col ∈ columns df)
          then first_str_match df stim_col stimulus_value
          else None
      | None => None
      end
  end.

Definition _get_molecule_row (mol_df : option DataFrame) (cid : option string)
  : option Series :=
  match mol_df, cid with
  | Some df, Some c => first_str_match df "CID" c
  | _, _ => None
  end.

(** ** Identity building *)

Definition CID_CANDIDATES_STIM : list string :=
  ["CID"; "cid"; "PubChemCID"; "pubchem_cid"; "new_CID"].
Definition CAS_CANDIDATES : list string :=
  ["CAS"; "cas"; "CASNo"; "CASNo."; "cas_number"; "C.A.S."].
Definition NAME_CANDIDATES : list string :=
  ["name"; "Name"; "OdorName"; "Odorant name"; "Odorant"; "OdorantName"; "ChemicalName"].
Definition SMILES_CANDIDATES : list string :=
  ["IsomericSMILES"; "SMILES"; "CanonicalSMILES"].

(** [first] when it is not [None], else what [second] gives on the other row. *)
Definition or_else (first : option string) (row : option Series)
    (second : Series -> option string) : option string :=
  match first, row with
  | None, Some r => second r
  | _, _ => first
  end.

(** The key of an identity: CID, else CAS, else the dataset and the label. *)
Definition make_uid (cid cas : option string) (slug stimulus : string) : string :=
  match cid, cas with
  | Some c, _ => "CID:" +:+ c
  | None, Some c => "CAS:" +:+ c
  | None, None => "OID:" +:+ slug +:+ ":" +:+ stimulus
  end.

Definition _identity_from_rows (slug stimulus : string)
    (stim_row mol_row : option Series) : Identity :=
  (* CID priority: molecules.CID then stimuli CID *)
  let cid :=
    match mol_row with
    | Some m => if in_index "CID" m
                then match getitem m "CID" with Some v => _safe_str v | None => None end
                else None
    | None => None
    end in
  let cid := or_else cid stim_row (fun s => _pick_first_present s CID_CANDIDATES_STIM) in
  (* CAS from stimuli first, then molecules (if any) *)
  let cas :=
    match stim_row with
    | Some s => _pick_first_present s CAS_CANDIDATES
    | None => None
    end in
  let cas := or_else cas mol_row (fun m => _pick_first_present m CAS_CANDIDATES) in
  (* Name from molecules first, then stimuli *)
  let name :=
    match mol_row with
    | Some m => _pick_first_present m NAME_CANDIDATES
    | None => None
    end in
  let name := or_else name stim_row (fun s => _pick_first_present s NAME_CANDIDATES) in
  (* SMILES from molecules first, then stimuli *)
  let smiles :=
    match mol_row with
    | Some m => _pick_first_present m SMILES_CANDIDATES
    | None => None
    end in
  let smiles := or_else smiles stim_row (fun s => _pick_first_present s SMILES_CANDIDATES) in
  let uid := make_uid cid cas slug stimulus in
  mkIdentity uid slug stimulus
    (Some (match name with
           | Some n => match n with EmptyString => stimulus | _ => n end
           | None => stimulus
           end))
    cid cas smiles.

(** ** Odor + facts writing *)

(** The four columns [_upsert_odor] may fill. *)
Inductive odor_col : Type := Cname | Ccid | Ccas | Csmiles.

Definition get_col (c : odor_col) (o : odor) : option string :=
  match c with
  | Cname => o_name o
  | Ccid => o_cid o
  | Ccas => o_cas o
  | Csmiles => o_smiles o
  end.

Definition set_col (c : odor_col) (v : option string) (o : odor) : odor :=
  match c with
  | Cname => mkOdor (o_unified_odor_id o) (o_slug_first o) (o_stimulus_first o)
               v (o_cid o) (o_cas o) (o_smiles o)
  | Ccid => mkOdor (o_unified_odor_id o) (o_slug_first o) (o_stimulus_first o)
               (o_name o) v (o_cas o) (o_smiles o)
  | Ccas => mkOdor (o_unified_odor_id o) (o_slug_first o) (o_stimulus_first o)
               (o_name o) (o_cid o) v (o_smiles o)
  | Csmiles => mkOdor (o_unified_odor_id o) (o_slug_first o) (o_stimulus_first o)
               (o_name o) (o_cid o) (o_cas o) v
  end.

(** [col IS NULL OR TRIM(col) = ''] *)
Definition sql_blank (x : option string) : bool :=
  match x with
  | None => true
  | Some s => String.eqb (sql_trim s) ""
  end.

(** [INSERT OR IGNORE INTO odors ...]: ignored when the key is taken. *)
Definition insert_or_ignore (conn : db) (row : odor) : db :=
  if existsb (fun o => String.eqb (o_unified_odor_id o) (o_unified_odor_id row)) (odors conn)
  then conn
  else {| odors := odors conn ++ [row]; odor_facts := odor_facts conn |}.

(** [UPDATE odors SET col = ? WHERE unified_odor_id = ? AND (col IS NULL OR TRIM(col) = '')] *)
Definition update_blank (conn : db) (col : odor_col) (value uid : string) : db :=
  {| odors := map (fun o => if String.eqb (o_unified_odor_id o) uid && sql_blank (get_col col o)
                            then set_col col (Some value) o else o)
                  (odors conn);
     odor_facts := odor_facts conn |}.

Definition _upsert_odor (conn : db) (ident : Identity) : db :=
  let conn :=
    insert_or_ignore conn
      (mkOdor (unified_odor_id ident) (Some (slug ident)) (Some (stimulus ident))
              (name ident) (cid ident) (cas ident) (smiles ident)) in
  fold_left
    (fun conn cv =>
       match snd cv with
       | None => conn
       | Some value => update_blank conn (fst cv) value (unified_odor_id ident)
       end)
    [(Cname, name ident); (Ccid, cid ident); (Ccas, cas ident); (Csmiles, smiles ident)]
    conn.

(** What [_insert_fact] makes of a value: [None] when it returns without
    writing, else the pair [(value_text, value_num)] it inserts. *)
Definition fact_values (value : pyobj) : option (option string * option float) :=
  match value with
  | PyNone => None
  | _ =>
      if match value with PyFloat f => is_nan f | _ => false end then None
      else if is_int_or_float value then Some (None, Some (float_of_num value))
      else
        match _safe_str value with
        | None => None
        | Some text =>
            match float_of_str text with
            | Some num =>
                if negb (is_nan num) then Some (None, Some num)
                else Some (Some text, None)
            | None => Some (Some text, None)
            end
        end
  end.

Definition _insert_fact (conn : db) (ident : Identity) (slug filename column : string)
    (value : pyobj) : db :=
  match fact_values value with
  | None => conn
  | Some (value_text, value_num) =>
      {| odors := odors conn;
         odor_facts := odor_facts conn ++
           [mkFact (unified_odor_id ident) slug filename column value_text value_num] |}
  end.

Definition _insert_row_as_facts (conn : db) (ident : Identity) (slug filename : string)
    (row : option Series) (skip_cols : list string) : db :=
  match row with
  | None => conn
  | Some row =>
      let skip := map (fun c => lower (strip c)) skip_cols in
      fold_left
        (fun conn col =>
           if bool_decide (lower (strip col) ∈ skip) then conn
           else match getitem row col with
                | Some v => _insert_fact conn ident slug filename col v
                | None => conn
                end)
        (index row) conn
  end.

(** ** Dataset-level helpers *)

Definition is_behavior_csv (fname : string) : bool :=
  startswith (lower fname) "behavior" && endswith (lower fname) ".csv".

(** Count total rows across all behavior*.csv in this dataset. *)
Definition _count_behavior_rows (slug_dir : directory) : nat :=
  fold_left
    (fun total entry =>
       if negb (is_behavior_csv (fst entry)) then total
       else match snd entry with
            | None => total
            | Some df => (total + len df)%nat
            end)
    slug_dir 0%nat.

(** ** Main ingest *)

(** The variables of a run of [ingest_dataset]. [identity_cache] is a [dict]:
    its items are kept in insertion order. *)
Record run : Type := mkRun {
  conn : db;
  identity_cache : list (string * Identity);
  odors_seen : nat;
  facts_seen : nat
}.

(** Lines 375-380: the rows matched for a label, and the identity built. *)
Definition stimulus_row_of (stim_df : option DataFrame) (stim_value : string)
  : option Series := _get_stimulus_row stim_df stim_value.

Definition molecule_row_of (stim_df mol_df : option DataFrame) (stim_value : string)
  : option Series :=
  let cid_from_stim :=
    match stimulus_row_of stim_df stim_value with
    | Some stim_row => _pick_first_present stim_row CID_CANDIDATES_STIM
    | None => None
    end in
  _get_molecule_row mol_df cid_from_stim.

Definition resolve (slug : string) (stim_df mol_df : option DataFrame)
    (stim_value : string) : Identity :=
  _identity_from_rows slug stim_value
    (stimulus_row_of stim_df stim_value) (molecule_row_of stim_df mol_df stim_value).

(** The body of [for _, row in df.iterrows()]. *)
Definition ingest_row (slug : string) (stim_df mol_df : option DataFrame)
    (fname stim_col : string) (cols : list string) (st : run) (row : Series) : run :=
  match getitem row stim_col with
  | None => st
  | Some cell =>
      match _safe_str cell with
      | None => st
      | Some stim_value =>
          let '(ident, st) :=
            match lookup_entry (identity_cache st) stim_value with
            | Some ident => (ident, st)
            | None =>
                let stim_row := stimulus_row_of stim_df stim_value in
                let mol_row := molecule_row_of stim_df mol_df stim_value in
                let ident := _identity_from_rows slug stim_value stim_row mol_row in
                let c := _upsert_odor (conn st) ident in
                let c := _insert_row_as_facts c ident slug "stimuli.csv" stim_row [stim_col] in
                let c := _insert_row_as_facts c ident slug "molecules.csv" mol_row ["CID"] in
                (ident,
                 mkRun c (identity_cache st ++ [(stim_value, ident)])
                       (S (odors_seen st)) (facts_seen st))
            end in
          fold_left
            (fun st col =>
               if String.eqb col stim_col then st
               else match getitem row col with
                    | Some v =>
                        mkRun (_insert_fact (conn st) ident slug fname col v)
                              (identity_cache st) (odors_seen st) (S (facts_seen st))
                    | None => st
                    end)
            cols st
      end
  end.

(** The body of [for fname in sorted(os.listdir(slug_dir))]. *)
Definition ingest_file (slug : string) (stim_df mol_df : option DataFrame)
    (st : run) (entry : string * csv_file) : run :=
  let fname := fst entry in
  if negb (is_behavior_csv fname) then st
  else
    match snd entry with
    | None => st
    | Some df =>
        if empty df then st
        else
          match _find_stimulus_column df with
          | None => st
          | Some stim_col =>
              let df := astype_str df stim_col in
              fold_left (ingest_row slug stim_df mol_df fname stim_col (columns df))
                        (iterrows df) st
          end
    end.

(** [sorted(os.listdir(slug_dir))] *)
Definition sorted_entries (slug_dir : directory) : directory :=
  sort_by (fun a b => String.leb (fst a) (fst b)) slug_dir.

(** The run of [ingest_dataset] on a folder that passed the row-count gate. *)
Definition ingest_run (conn : db) (slug : string) (slug_dir : directory) : run :=
  let stim_df := _load_stimuli slug_dir in
  let mol_df := _load_molecules slug_dir in
  fold_left (ingest_file slug stim_df mol_df) (sorted_entries slug_dir)
            (mkRun conn [] 0%nat 0%nat).

Definition ingest_dataset (conn : db) (datasets_root : option root_directory)
    (slug : string) : db :=
  match slug_directory datasets_root slug with
  | None => conn
  | Some slug_dir =>
      let conn := initialize_database conn in
      let total_rows := _count_behavior_rows slug_dir in
      if (MAX_ROWS_PER_DATASET <? total_rows)%nat then conn
      else Ingest.conn (ingest_run conn slug slug_dir)
  end.

Definition ingest_all (conn : db) (datasets_root : option root_directory) : db :=
  match datasets_root with
  | None => conn
  | Some entries =>
      let slugs := sorted (map fst (List.filter (fun e => match snd e with
                                                          | Some _ => true
                                                          | None => false
                                                          end) entries)) in
      fold_left (fun conn slug => ingest_dataset conn datasets_root slug) slugs conn
  end.

End Ingest.

(* ===================================================================== *)
(** * query.py *)
(* ===================================================================== *)

Module Query.
Import Py Schema.

Record OdorRow : Type := mkOdorRow {
  unified_odor_id : string;
  name : option string;
  cid : option string;
  cas : option string;
  smiles : option string;
  slug_first : option string;
  stimulus_first : option string
}.

(** The selected columns of a row of [odors], as an [OdorRow]. *)
Definition to_row (o : odor) : OdorRow :=
  mkOdorRow (o_unified_odor_id o) (o_name o) (o_cid o) (o_cas o) (o_smiles o)
            (o_slug_first o) (o_stimulus_first o).

(** [COALESCE(name, stimulus_first, unified_odor_id)] *)
Definition order_key (o : odor) : string :=
  coalesce (o_name o) (coalesce (o_stimulus_first o) (o_unified_odor_id o)).

(** [ORDER BY COALESCE(name, stimulus_first, unified_odor_id) ASC]; rows with
    equal keys keep their order. *)
Definition order_rows (rows : list odor) : list odor :=
  sort_by (fun a b => String.leb (order_key a) (order_key b)) rows.

(** [LIMIT ?]: a negative limit is no limit.  The limit is bound as an SQLite
    INTEGER: a Python [int] outside the 64-bit range raises OverflowError,
    which is not modelled. *)
Definition apply_limit {A : Type} (limit : option Z) (rows : list A) : list A :=
  match limit with
  | None => rows
  | Some n => if n <? 0 then rows else take (Z.to_nat n) rows
  end.

(** Return odors ordered by name/stimulus/id. *)
Definition list_odors (conn : db) (limit : option Z) : list OdorRow :=
  map to_row (apply_limit limit (order_rows (odors conn))).

(** Search odors by ID, name, CID, CAS, or first stimulus.  [None] is the
    pattern longer than LIKE takes: SQLite then raises
    [sqlite3.OperationalError] at the first row on which it evaluates LIKE (and
    yields no row when it evaluates it on none). *)
Definition search_odors (conn : db) (query : string) (limit : option Z)
    : option (list OdorRow) :=
  let q := "%" +:+ strip query +:+ "%" in
  let hit (o : odor) :=
    sql_like (o_unified_odor_id o) q
    || sql_like (coalesce (o_name o) "") q
    || sql_like (coalesce (o_cid o) "") q
    || sql_like (coalesce (o_cas o) "") q
    || sql_like (coalesce (o_stimulus_first o) "") q in
  if like_pattern_ok q
  then Some (map to_row (apply_limit limit (order_rows (List.filter hit (odors conn)))))
  else None.

(** A fact as [get_odor_facts] yields it. *)
Record FactView : Type := mkFactView {
  slug : string;
  file : string;
  column : string;
  value : pyobj
}.

Definition string3_leb (a b : string * string * string) : bool :=
  match String.compare (fst (fst a)) (fst (fst b)) with
  | Lt => true
  | Gt => false
  | Eq =>
      match String.compare (snd (fst a)) (snd (fst b)) with
      | Lt => true
      | Gt => false
      | Eq => String.leb (snd a) (snd b)
      end
  end.

Definition fact_key (f : odor_fact) : string * string * string :=
  (f_slug f, f_file f, f_column f).

(** Yield all facts for a given odor, ordered by dataset/file/column. *)
Definition get_odor_facts (conn : db) (uid : string) : list FactView :=
  map (fun f =>
         mkFactView (f_slug f) (f_file f) (f_column f)
           (match f_value_text f with
            | Some t => PyStr t
            | None => match f_value_num f with
                      | Some x => PyFloat x
                      | None => PyNone
                      end
            end))
      (sort_by (fun a b => string3_leb (fact_key a) (fact_key b))
               (List.filter (fun f => String.eqb (f_unified_odor_id f) uid) (odor_facts conn))).

(** Return a sorted list of dataset slugs in which this odor appears. *)
Definition get_datasets_for_odor (conn : db) (uid : string) : list string :=
  sorted_set (map f_slug
                (List.filter (fun f => String.eqb (f_unified_odor_id f) uid) (odor_facts conn))).

(** Return a sorted list of all dataset slugs present in odor_facts. *)
Definition list_all_datasets (conn : db) : list string :=
  sorted_set (map f_slug (odor_facts conn)).

(** The WHERE clause of [descriptor_search] on a joined pair, [q_value] being
    the bound pattern and [dataset] the optional slug. *)
Definition descriptor_where (q_value : string) (dataset : option string)
    (f : odor_fact) : bool :=
  sql_like (sql_lower (f_column f)) "%descriptor%"
  && sql_like (coalesce (option_map sql_lower (f_value_text f)) "") (sql_lower q_value)
  && match dataset with
     | Some d => match d with
                 | EmptyString => true
                 | _ => String.eqb (f_slug f) d
                 end
     | None => true
     end.

(** Search odors by descriptor text in descriptor-like columns: the join of
    [odors] with [odor_facts] on the key, filtered, the odor columns kept,
    DISTINCT, ordered, limited.  [None] is the pattern longer than LIKE takes,
    as in [search_odors]. *)
Definition descriptor_search (conn : db) (text : string) (dataset : option string)
    (limit : option Z) : option (list OdorRow) :=
  let q_value := "%" +:+ strip text +:+ "%" in
  let joined :=
    flat_map (fun o =>
                map (fun _ => o)
                    (List.filter
                       (fun f => String.eqb (f_unified_odor_id f) (o_unified_odor_id o)
                                 && descriptor_where q_value dataset f)
                       (odor_facts conn)))
             (odors conn) in
  if like_pattern_ok (sql_lower q_value)
  then Some (map to_row (apply_limit limit (order_rows (remove_dups joined))))
  else None.

End Query.

(* ===================================================================== *)
(** * app.py: the wide view of [details_section] *)
(* ===================================================================== *)

Module App.
Import Py Schema.

(** The value of one group: lines 316-322. *)
Definition aggregate (vals : list pyobj) : pyobj :=
  let numeric_vals := List.filter is_int_or_float vals in
  if negb (Nat.eqb (length numeric_vals) 0) && Nat.eqb (length numeric_vals) (length vals)
  then PyFloat (PrimFloat.div (fsum (map float_of_num numeric_vals))
                              (float_of_int (Z.of_nat (length numeric_vals))))
  else
    let text_vals :=
      map str (List.filter (fun v => match v with PyNone => false | _ => true end) vals) in
    PyStr (join "; " (sorted_set text_vals)).

Definition view_key (f : Query.FactView) : string * string * string :=
  (Query.slug f, Query.file f, Query.column f).

(** [pd.DataFrame(facts)]: a value column of floats, with or without None
    among them, becomes a column of floats, its None cells NaN; a column with
    a text in it, or of None only, keeps its objects. *)
Definition DataFrame (facts : list Query.FactView) : list Query.FactView :=
  if existsb (fun f => match Query.value f with
                       | PyFloat _ => true
                       | _ => false
                       end) facts
     && forallb (fun f => match Query.value f with
                          | PyFloat _ | PyNone => true
                          | _ => false
                          end) facts
  then map (fun f => match Query.value f with
                     | PyNone => Query.mkFactView (Query.slug f) (Query.file f)
                                                  (Query.column f) (PyFloat nan)
                     | _ => f
                     end) facts
  else facts.

(** [df.groupby(["slug", "file", "column"])]: the keys in ascending order,
    each with the values of its rows in frame order. *)
Definition groupby (df : list Query.FactView)
  : list ((string * string * string) * list pyobj) :=
  map (fun k =>
         (k, map Query.value
               (List.filter (fun f => bool_decide (view_key f = k)) df)))
      (sort_by Query.string3_leb (remove_dups (map view_key df))).

(** [rows_agg] for the facts of an odor. *)
Definition rows_agg (facts : list Query.FactView)
  : list ((string * string * string) * pyobj) :=
  map (fun g => (fst g, aggregate (snd g))) (groupby (DataFrame facts)).

(** ** The search table *)

(** Return a mapping unified_odor_id -> sorted list of dataset slugs. *)
Definition _datasets_for_rows (conn : db) (rows : list Query.OdorRow)
  : list (string * list string) :=
  fold_left
    (fun out r =>
       dict_set out (Query.unified_odor_id r)
                (Query.get_datasets_for_odor conn (Query.unified_odor_id r)))
    rows [].

(** [odor_search_tab] up to the table it draws (lines 86-121): the variable
    [rows] at that point, the empty list when the function returns before,
    [None] when the search raises.  The values of the widgets are arguments:
    the dataset picked, the search text, the maximum number of results and the
    list-all box. *)
Definition odor_search_tab_rows (conn : db) (dataset_filter query : string) (limit : Z)
    (list_all : bool) : option (list Query.OdorRow) :=
  let dataset_filter_val :=
    if String.eqb dataset_filter "(all datasets)" then None else Some dataset_filter in
  match
    if list_all then Some (Query.list_odors conn (Some limit))
    else match query with
         | EmptyString => Some []
         | _ => Query.search_odors conn query (Some limit)
         end
  with
  | None => None
  | Some [] => Some []
  | Some rows =>
      let ds_map := _datasets_for_rows conn rows in
      match dataset_filter_val with
      | Some d =>
          Some (List.filter
                  (fun r => bool_decide (d ∈ dict_get ds_map (Query.unified_odor_id r) []))
                  rows)
      | None => Some rows
      end
  end.

End App.

(* ===================================================================== *)
(** * streamlit_app.py: the combined wide view *)
(* ===================================================================== *)

Module StreamlitApp.
Import Py Schema.

(** A fact as [details_section_multi] keeps it: the dict [get_odor_facts]
    yields, with the key of the odor attached. *)
Record KeyedFact : Type := mkKeyedFact {
  unified_odor_id : string;
  slug : string;
  file : string;
  column : string;
  value : pyobj
}.

(** [all_facts]: the facts of each selected odor in turn. *)
Definition all_facts (conn : db) (odors : list Query.OdorRow) : list KeyedFact :=
  flat_map
    (fun o =>
       map (fun f => mkKeyedFact (Query.unified_odor_id o) (Query.slug f) (Query.file f)
                                 (Query.column f) (Query.value f))
           (Query.get_odor_facts conn (Query.unified_odor_id o)))
    odors.

(** [pd.DataFrame(all_facts)]: as in [app.py], a value column of floats and
    None becomes a column of floats, its None cells NaN. *)
Definition DataFrame (facts : list KeyedFact) : list KeyedFact :=
  if existsb (fun f => match value f with
                       | PyFloat _ => true
                       | _ => false
                       end) facts
     && forallb (fun f => match value f with
                          | PyFloat _ | PyNone => true
                          | _ => false
                          end) facts
  then map (fun f => match value f with
                     | PyNone => mkKeyedFact (unified_odor_id f) (slug f) (file f)
                                             (column f) (PyFloat nan)
                     | _ => f
                     end) facts
  else facts.

Definition fact_key (f : KeyedFact) : string * string * string * string :=
  (unified_odor_id f, slug f, file f, column f).

Definition string4_leb (a b : string * string * string * string) : bool :=
  match String.compare (fst (fst (fst a))) (fst (fst (fst b))) with
  | Lt => true
  | Gt => false
  | Eq => Query.string3_leb (snd (fst (fst a)), snd (fst a), snd a)
                            (snd (fst (fst b)), snd (fst b), snd b)
  end.

(** [df.groupby(["unified_odor_id", "slug", "file", "column"])] *)
Definition groupby (df : list KeyedFact)
  : list ((string * string * string * string) * list pyobj) :=
  map (fun k =>
         (k, map value (List.filter (fun f => bool_decide (fact_key f = k)) df)))
      (sort_by string4_leb (remove_dups (map fact_key df))).

(** [rows_agg]: the value of each group by the rule of [app.py] (lines
    325-331 are lines 316-322 of [app.py]). *)
Definition rows_agg (conn : db) (odors : list Query.OdorRow)
  : list ((string * string * string * string) * pyobj) :=
  map (fun g => (fst g, App.aggregate (snd g))) (groupby (DataFrame (all_facts conn odors))).

(** [main]: the selections of the two tabs, de-duplicated by key. *)
Definition selected_odors (selected_odors_desc selected_odors_search : list Query.OdorRow)
  : list Query.OdorRow :=
  dict_values
    (fold_left (fun combined o => dict_set combined (Query.unified_odor_id o) o)
               (selected_odors_desc ++ selected_odors_search) []).

End StreamlitApp.

(* ===================================================================== *)
(** * cli.py: [cmd_show] *)
(* ===================================================================== *)

Module Cli.
Import Py Schema.

(** A line feed, as in the literal ["\nFacts"]. *)
Definition nl : string := String (ascii_of_nat 10) "".

(** The loop over the facts of [cmd_show]: the texts printed, the variable
    [current_slug_file] being [None] before the first fact. *)
Fixpoint print_facts (current_slug_file : option (string * string))
    (facts : list Query.FactView) : list string :=
  match facts with
  | [] => []
  | fact :: facts' =>
      let key := (Query.slug fact, Query.file fact) in
      (if bool_decide (Some key = current_slug_file) then []
       else [nl +:+ "[" +:+ Query.slug fact +:+ " / " +:+ Query.file fact +:+ "]"])
      ++ ["  " +:+ Query.column fact +:+ ": " +:+ str (Query.value fact)]
      ++ print_facts (Some key) facts'
  end.

(** What [cmd_show] prints once it has the row [b] to show for [target_id]. *)
Definition print_odor (conn : db) (target_id : string) (b : Query.OdorRow) : list string :=
  ["Odor"; "----";
   "  unified_odor_id : " +:+ Query.unified_odor_id b;
   "  name            : " +:+ coalesce (Query.name b) "";
   "  cid             : " +:+ coalesce (Query.cid b) "";
   "  cas             : " +:+ coalesce (Query.cas b) "";
   "  smiles          : " +:+ coalesce (Query.smiles b) "";
   nl +:+ "Facts"; "-----"]
  ++ match Query.get_odor_facts conn target_id with
     | [] => ["  (no facts found for this odor)"]
     | facts => print_facts None facts
     end.

(** What [cmd_show] prints once it has the rows of the search. *)
Definition show_rows (conn : db) (odor_id : string) (rows : list Query.OdorRow)
    : list string :=
  let exact := List.filter (fun r => String.eqb (Query.unified_odor_id r) odor_id) rows in
  match
    match exact, rows with
    | e :: _, _ => Some (Query.unified_odor_id e, [])
    | [], [] => None
    | [], r :: _ =>
        Some (Query.unified_odor_id r,
              ["[info] No exact match for " +:+ repr_str odor_id
               +:+ ", using closest candidate " +:+ repr_str (Query.unified_odor_id r) +:+ "."])
    end
  with
  | None => ["[error] No odor found matching " +:+ repr_str odor_id +:+ "."]
  | Some (target_id, info) =>
      let basic :=
        List.filter (fun r => String.eqb (Query.unified_odor_id r) target_id) rows in
      match
        match basic with
        | b :: _ => Some b
        | [] =>
            option_map Query.to_row
              (List.find (fun o => String.eqb (o_unified_odor_id o) target_id) (odors conn))
        end
      with
      | None => info ++ ["[error] Odor " +:+ repr_str target_id +:+ " not found."]
      | Some b => info ++ print_odor conn target_id b
      end
  end.

(** [cmd_show] on an open database: the texts it prints, one per [print];
    [None] when the search raises. *)
Definition cmd_show (conn : db) (odor_id : string) : option (list string) :=
  option_map (show_rows conn odor_id) (Query.search_odors conn odor_id None).

End Cli.

(* ===================================================================== *)
(** * Vocabulary of the specification *)
(* ===================================================================== *)

Module Spec.
Import Py Pandas Schema Ingest.

(** A string without the separator of the OID key. *)
Fixpoint no_colon (s : string) : bool :=
  match s with
  | EmptyString => true
  | String c r => negb (Ascii.eqb c ":") && no_colon r
  end.

(** Empty or whitespace-only text. *)
Fixpoint blank (s : string) : bool :=
  match s with
  | EmptyString => true
  | String c r => isspace c && blank r
  end.

(** The number a raw value is, or parses as: [float(value)]. *)
Definition as_number (value : pyobj) : option float :=
  match value with
  | PyBool _ | PyInt _ _ | PyFloat _ => Some (float_of_num value)
  | PyStr s => float_of_str (strip s)
  | PyNone | PyNA => None
  end.

(** A raw value that carries nothing: None, a missing marker, NaN, or empty
    or whitespace-only text. *)
Definition carries_nothing (value : pyobj) : Prop :=
  match value with
  | PyNone | PyNA => True
  | PyFloat f => is_nan f = true
  | PyStr s => blank s = true
  | PyBool _ | PyInt _ _ => False
  end.

(** A stored number is non-null in SQL when it is not NaN (SQLite keeps a
    NaN as NULL). *)
Definition sql_non_null_num (x : option float) : Prop :=
  match x with
  | Some v => is_nan v = false
  | None => False
  end.

(** Exactly one of [value_text] and [value_num] is non-null. *)
Definition one_value (f : odor_fact) : Prop :=
  (f_value_text f <> None /\ f_value_num f = None)
  \/ (f_value_text f = None /\ sql_non_null_num (f_value_num f)).

(** [o'] is [o] after upserts: same key and first sighting, and every
    descriptive field that was neither NULL nor blank is as it was. *)
Definition preserved (o o' : odor) : Prop :=
  o_unified_odor_id o' = o_unified_odor_id o
  /\ o_slug_first o' = o_slug_first o
  /\ o_stimulus_first o' = o_stimulus_first o
  /\ forall c : odor_col, sql_blank (get_col c o) = false -> get_col c o' = get_col c o.

(** [o'] keeps every descriptive value [o] has. *)
Definition never_regresses (o o' : odor) : Prop :=
  o_unified_odor_id o' = o_unified_odor_id o
  /\ o_slug_first o' = o_slug_first o
  /\ o_stimulus_first o' = o_stimulus_first o
  /\ forall (c : odor_col) (v : string), get_col c o = Some v -> get_col c o' = Some v.

(** No descriptive field of [o] holds a blank text. *)
Definition no_blank_field (o : odor) : Prop :=
  forall (c : odor_col) (v : string), get_col c o = Some v -> sql_blank (Some v) = false.

(** The databases the ingester can produce: from the empty one, by any runs
    of [ingest_dataset] and [ingest_all]. *)
Inductive ingested : db -> Prop :=
| ingested_empty : ingested empty_db
| ingested_dataset conn datasets_root slug :
    ingested conn -> ingested (ingest_dataset conn datasets_root slug)
| ingested_all conn datasets_root :
    ingested conn -> ingested (ingest_all conn datasets_root).

(** The name the candidate columns give: molecules first, then stimuli. *)
Definition resolved_name (stim_row mol_row : option Series) : option string :=
  or_else (match mol_row with
           | Some m => _pick_first_present m NAME_CANDIDATES
           | None => None
           end)
          stim_row (fun s => _pick_first_present s NAME_CANDIDATES).

(** The total the row-count gate compares with the threshold: the rows of
    every readable file whose name, in lower case, starts with [behavior] and
    ends in [.csv]. *)
Definition behavior_rows_total (dir : directory) : nat :=
  sum_list (map (fun e => match snd e with
                          | Some df => len df
                          | None => 0%nat
                          end)
                (List.filter (fun e => is_behavior_csv (fst e)) dir)).

(** What [_insert_fact] appends: nothing, or the one row of the value. *)
Definition fact_rows (ident : Identity) (sl fn col : string) (v : pyobj) : list odor_fact :=
  match fact_values v with
  | None => []
  | Some (vt, vn) => [mkFact (unified_odor_id ident) sl fn col vt vn]
  end.

(** The rows of a table after some writes: the rows it had, each preserved,
    followed by new rows. *)
Definition extends (rows rows' : list odor) : Prop :=
  exists old new, rows' = old ++ new /\ Forall2 preserved rows old.

(** ** Enrichment facts *)

(** A fact written from the stimulus table or the molecule table. *)
Definition is_enrichment (f : odor_fact) : bool :=
  String.eqb (f_file f) "stimuli.csv" || String.eqb (f_file f) "molecules.csv".

(** What [_insert_row_as_facts] appends. *)
Definition row_facts (ident : Identity) (sl fn : string) (row : option Series)
    (skip_cols : list string) : list odor_fact :=
  match row with
  | None => []
  | Some r =>
      flat_map
        (fun col =>
           if bool_decide (lower (strip col) ∈ map (fun c => lower (strip c)) skip_cols) then []
           else match getitem r col with
                | Some v => fact_rows ident sl fn col v
                | None => []
                end)
        (index r)
  end.

(** The enrichment facts of one entry of [identity_cache]: the non-stimulus
    columns of the stimulus row matched for the label, then the columns but
    CID of the molecule row matched for it. *)
Definition enrichment (sl : string) (stim_df mol_df : option DataFrame)
    (entry : string * Identity) : list odor_fact :=
  row_facts (snd entry) sl "stimuli.csv" (stimulus_row_of stim_df (fst entry)) ["stimulus"]
  ++ row_facts (snd entry) sl "molecules.csv"
       (molecule_row_of stim_df mol_df (fst entry)) ["CID"].

(** What a run keeps true, [base] being the enrichment facts it started from. *)
Definition enrichment_inv (base : list odor_fact) (sl : string)
    (sdf mdf : option DataFrame) (st : run) : Prop :=
  NoDup (map fst (identity_cache st))
  /\ odors_seen st = length (identity_cache st)
  /\ Forall (fun e => snd e = resolve sl sdf mdf (fst e)) (identity_cache st)
  /\ List.filter is_enrichment (odor_facts (conn st))
     = base ++ flat_map (enrichment sl sdf mdf) (identity_cache st).

(** ** Descriptor search *)

(** A text without the wildcards of LIKE. *)
Fixpoint wildcard_free (s : string) : bool :=
  match s with
  | EmptyString => true
  | String c r => negb (Ascii.eqb c "%") && negb (Ascii.eqb c "_") && wildcard_free r
  end.

(** [t] occurs in [s], ASCII letters without regard to case. *)
Definition contains_ci (s t : string) : Prop :=
  exists pre post, sql_lower s = pre +:+ sql_lower t +:+ post.

(** The characters of a wildcard-free text. *)
Definition literal (t : list ascii) : Prop :=
  Forall (fun c => c <> "%"%char /\ c <> "_"%char) t.

(** A text without NUL. *)
Fixpoint nul_free (s : string) : bool :=
  match s with
  | EmptyString => true
  | String c r => negb (Ascii.eqb c Ascii.zero) && nul_free r
  end.

(** A search text LIKE takes as it stands: once trimmed it is not empty, has
    no wildcard and no NUL, and its pattern is within the length LIKE allows. *)
Definition plain_text (text : string) : Prop :=
  strip text <> ""
  /\ wildcard_free (strip text) = true
  /\ nul_free (strip text) = true
  /\ utf8_bytes (strip text) + 2 <= SQLITE_MAX_LIKE_PATTERN_LENGTH.

(** A fact that answers a descriptor search: a descriptor-like column, a text
    value holding the trimmed search text (both read up to their first NUL),
    and the dataset asked for. *)
Definition descriptor_match (text : string) (dataset : option string) (f : odor_fact) : Prop :=
  contains_ci (c_str (f_column f)) "descriptor"
  /\ (exists v, f_value_text f = Some v /\ contains_ci (c_str v) (strip text))
  /\ match dataset with
     | Some d => d = "" \/ f_slug f = d
     | None => True
     end.

(** ** The wide view *)

(** The values of the facts of one (dataset, file, column) key, in the order
    of the facts. *)
Definition group_values (facts : list Query.FactView) (k : string * string * string)
  : list pyobj :=
  let '(dataset, file, column) := k in
  map Query.value
      (List.filter (fun f => String.eqb (Query.slug f) dataset
                             && String.eqb (Query.file f) file
                             && String.eqb (Query.column f) column) facts).

(** The numbers added up from left to right, [acc] being the sum so far. *)
Fixpoint add_up (acc : float) (xs : list float) : float :=
  match xs with
  | [] => acc
  | x :: xs' => add_up (PrimFloat.add acc x) xs'
  end.

(** The arithmetic mean, in floating point: the sum over the count. *)
Definition mean (xs : list float) : float :=
  PrimFloat.div (add_up zero xs) (float_of_int (Z.of_nat (length xs))).

(** Sorted and de-duplicated. *)
Definition sorted_unique (xs : list string) : Prop :=
  StronglySorted (fun a b => String.leb a b = true) xs /\ NoDup xs.

(** The aggregation rule of the wide view on the values of a group. *)
Definition pivot_rule (vals : list pyobj) (agg : pyobj) : Prop :=
  (Forall (fun v => is_int_or_float v = true) vals ->
     agg = PyFloat (mean (map float_of_num vals)))
  /\ (~ Forall (fun v => is_int_or_float v = true) vals ->
      exists texts,
        agg = PyStr (join "; " texts)
        /\ sorted_unique texts
        /\ forall t, t ∈ texts <-> exists v, v ∈ vals /\ v <> PyNone /\ t = str v).

(** ** The tables after ingestion *)

(** The keys of the rows of [odors]. *)
Definition odor_keys (c : db) : list string := map o_unified_odor_id (odors c).

(** A file of a dataset folder that facts are written from: a behavior file,
    the stimulus table or the molecule table. *)
Definition source_file (dir : directory) (fn : string) : Prop :=
  fn ∈ map fst dir
  /\ (is_behavior_csv fn = true \/ fn = "stimuli.csv" \/ fn = "molecules.csv").

(** A fact tagged with a dataset folder of the root and a source file of it. *)
Definition written_for (root : option root_directory) (f : odor_fact) : Prop :=
  exists dir, slug_directory root (f_slug f) = Some dir /\ source_file dir (f_file f).

(** Two runs that differ in the database they started from only: the same
    cache and counters, and the same facts after the facts [base]. *)
Definition same_run (base : list odor_fact) (st st0 : run) : Prop :=
  identity_cache st = identity_cache st0
  /\ odors_seen st = odors_seen st0
  /\ facts_seen st = facts_seen st0
  /\ odor_facts (conn st) = base ++ odor_facts (conn st0).

(** A behavior file that [ingest_dataset] reads rows from: it can be read, is
    not empty and has a stimulus column. *)
Definition usable_behavior_file (e : string * csv_file) : bool :=
  is_behavior_csv (fst e)
  && match snd e with
     | Some df => negb (empty df)
                  && match _find_stimulus_column df with Some _ => true | None => false end
     | None => false
     end.

(** The field of an identity that [_upsert_odor] writes to a column. *)
Definition ident_field (col : odor_col) (i : Identity) : option string :=
  match col with
  | Cname => name i
  | Ccid => cid i
  | Ccas => cas i
  | Csmiles => smiles i
  end.

(** A row that has nothing to take from an identity in one column: the key is
    another, or the identity has no value, or the column is filled. *)
Definition col_filled (col : odor_col) (i : Identity) (o : odor) : Prop :=
  o_unified_odor_id o = unified_odor_id i ->
  forall v, ident_field col i = Some v -> sql_blank (get_col col o) = false.

(** A database that an upsert of the identity would leave as it is. *)
Definition saturated (d : db) (i : Identity) : Prop :=
  unified_odor_id i ∈ odor_keys d
  /\ forall col, Forall (col_filled col i) (odors d).

(** [d0] comes after [d]: it is saturated for every identity [d] is
    saturated for. *)
Definition comes_after (d0 d : db) : Prop := forall i, saturated d i -> saturated d0 i.

(** A run over a table of odors that is, and stays, the one of [d0], with the
    cache of another run of the same steps. *)
Definition replays (d0 : db) (st2 st1 : run) : Prop :=
  identity_cache st2 = identity_cache st1 /\ odors (conn st2) = odors d0.

(** A text as [strip] leaves it, and not empty. *)
Definition trimmed (s : string) : Prop := strip s = s /\ s <> "".

(** The name, CID, CAS, SMILES and first stimulus label of a row are trimmed. *)
Definition odor_trimmed (o : odor) : Prop :=
  (forall col v, get_col col o = Some v -> trimmed v)
  /\ (forall v, o_stimulus_first o = Some v -> trimmed v).

(** The text of a fact is trimmed and is not the text of a number, NaN apart. *)
Definition text_fact (f : odor_fact) : Prop :=
  forall t, f_value_text f = Some t ->
            trimmed t /\ forall x, float_of_str t = Some x -> is_nan x = true.

(** ** Queries *)

(** Ascending by [COALESCE(name, stimulus_first, unified_odor_id)]. *)
Definition ordered (rows : list odor) : Prop :=
  StronglySorted (fun a b => String.leb (Query.order_key a) (Query.order_key b) = true) rows.

(** A limit that can be bound: none, or a 64-bit integer. *)
Definition bindable (limit : option Z) : Prop :=
  match limit with
  | Some n => - 2 ^ 63 <= n < 2 ^ 63
  | None => True
  end.

(** The rows a query returns of the rows [found] it selects: the first rows of
    an ascending ordering of them, as many as the limit allows (all of them
    without a limit, or with a negative one).  Which of two rows of the same
    key comes first is left open. *)
Definition listing (limit : option Z) (found rows : list odor) : Prop :=
  exists rest,
    rows ++ rest ≡ₚ found
    /\ ordered (rows ++ rest)
    /\ match limit with
       | Some n => if n <? 0 then rest = []
                   else length rows = Nat.min (Z.to_nat n) (length found)
       | None => rest = []
       end.

(** A column that holds a text in which, up to its first NUL, [t] occurs. *)
Definition field_contains (x : option string) (t : string) : Prop :=
  exists v, x = Some v /\ contains_ci (c_str v) t.

(** An odor that answers a search: the trimmed text occurs in its key, name,
    CID, CAS or first stimulus label. *)
Definition search_match (query : string) (o : odor) : Prop :=
  contains_ci (c_str (o_unified_odor_id o)) (strip query)
  \/ field_contains (o_name o) (strip query)
  \/ field_contains (o_cid o) (strip query)
  \/ field_contains (o_cas o) (strip query)
  \/ field_contains (o_stimulus_first o) (strip query).

(** The order of [ORDER BY slug, file, column]. *)
Definition lex3_le (a b : string * string * string) : Prop :=
  String.ltb (fst (fst a)) (fst (fst b)) = true
  \/ (fst (fst a) = fst (fst b)
      /\ (String.ltb (snd (fst a)) (snd (fst b)) = true
          \/ (snd (fst a) = snd (fst b) /\ String.leb (snd a) (snd b) = true))).

(** What [get_odor_facts] yields for a row of [odor_facts]. *)
Definition yields (f : odor_fact) (v : Query.FactView) : Prop :=
  Query.slug v = f_slug f /\ Query.file v = f_file f /\ Query.column v = f_column f
  /\ Query.value v = match f_value_text f, f_value_num f with
                     | Some t, _ => PyStr t
                     | None, Some x => PyFloat x
                     | None, None => PyNone
                     end.

End Spec.

(* ===================================================================== *)
(** * Example inputs *)
(* ===================================================================== *)

Module Examples.
Import Py Pandas Schema Ingest.

(** The example of the specification: dataset abraham_2012, a stimulus table
    with the row Stimulus=1, CID=7410 and a behavior file with the row
    Stimulus=1, Intensity=3.2. *)
Definition abraham_root : option root_directory :=
  Some [("abraham_2012",
         Some [("stimuli.csv",
                Some (mkDataFrame ["Stimulus"; "CID"] [[PyInt 1 I; PyInt 7410 I]]));
               ("behavior.csv",
                Some (mkDataFrame ["Stimulus"; "Intensity"]
                        [[PyInt 1 I; PyFloat 0x1.999999999999ap+1]]))])].

(** A behavior file whose one record has an empty stimulus field, which
    [read_csv] reads as NaN. *)
Definition missing_stimulus_root : option root_directory :=
  Some [("d",
         Some [("behavior.csv",
                Some (mkDataFrame ["Stimulus"; "Intensity"]
                        [[PyFloat nan; PyFloat 3.5]]))])].

(** A dataset of one row more than [MAX_ROWS_PER_DATASET]. *)
Definition oversized_dir : directory :=
  [("behavior.csv",
    Some (mkDataFrame ["Stimulus"] (repeat [PyStr "A"] (S MAX_ROWS_PER_DATASET))))].

Definition oversized_root : option root_directory := Some [("big", Some oversized_dir)].

(** A database with one odor described in text. *)
Definition citrus_db : db :=
  {| odors := [mkOdor "CID:440917" (Some "d") (Some "limonene") (Some "limonene")
                      (Some "440917") None None];
     odor_facts := [mkFact "CID:440917" "d" "behavior.csv" "Descriptors"
                           (Some "Citrus; sweet") None] |}.

(** A database with repeated numeric and mixed facts of one odor. *)
Definition pivot_db : db :=
  {| odors := [mkOdor "CID:1" (Some "d") (Some "A") (Some "A") (Some "1") None None];
     odor_facts :=
       [mkFact "CID:1" "d" "behavior.csv" "Intensity" None (Some 1%float);
        mkFact "CID:1" "d" "behavior.csv" "Intensity" None (Some 2%float);
        mkFact "CID:1" "d" "behavior.csv" "Label" (Some "b") None;
        mkFact "CID:1" "d" "behavior.csv" "Label" None (Some 4%float);
        mkFact "CID:1" "d" "behavior.csv" "Label" (Some "a") None] |}.

(** A dataset in which two stimulus labels carry the same CID. *)
Definition shared_cid_dir : directory :=
  [("stimuli.csv",
    Some (mkDataFrame ["Stimulus"; "CID"; "Note"]
            [[PyStr "A"; PyInt 1 I; PyStr "x"];
             [PyStr "B"; PyInt 1 I; PyStr "y"]]));
   ("behavior.csv",
    Some (mkDataFrame ["Stimulus"; "Intensity"]
            [[PyStr "A"; PyFloat 1];
             [PyStr "B"; PyFloat 2];
             [PyStr "A"; PyFloat 3]]))].

(** A database in which a fact among the numeric facts of one column has no
    value. *)
Definition null_value_db : db :=
  {| odors := [mkOdor "CID:1" (Some "d") (Some "A") (Some "A") (Some "1") None None];
     odor_facts :=
       [mkFact "CID:1" "d" "behavior.csv" "Intensity" None (Some 1%float);
        mkFact "CID:1" "d" "behavior.csv" "Intensity" None None;
        mkFact "CID:1" "d" "behavior.csv" "Intensity" None (Some 3%float)] |}.

(** A database whose one odor has one descriptor-like fact, a number. *)
Definition numeric_descriptor_db : db :=
  {| odors := [mkOdor "CID:1" (Some "d") (Some "A") (Some "A") (Some "1") None None];
     odor_facts := [mkFact "CID:1" "d" "behavior.csv" "descriptor_score" None (Some 3%float)] |}.

End Examples.

Import Py Pandas Schema Ingest Spec Examples.

(* ===================================================================== *)
(** * Tactics *)
(* ===================================================================== *)

(** Case analysis on the three parts of the characterisation of [fact_values]. *)
Ltac fv_split := split; [intros x | split; [|intros t]]; split; intros H.

#[local] Set Warnings "-unused-intro-pattern".

Ltac fv_solve H :=
  try tauto; try discriminate; try congruence;
  try (now injection H as <-);
  try (now destruct H as [[= <-] _]);
  try (now destruct H as [[] _]);
  try (now destruct H as [H _]);
  try (destruct H as [[= <-] H]; congruence);
  try (destruct H as (_ & H & _); specialize (H _ eq_refl); congruence);
  try (destruct H as (_ & _ & ->); reflexivity).

(* ===================================================================== *)
(** * Floats *)
(* ===================================================================== *)

Section FloatFacts.

Lemma shr_1_nonneg (mrs : shr_record) : 0 <= shr_m mrs -> 0 <= shr_m (shr_1 mrs).
Proof.
  destruct mrs as [m r s]. simpl.
  destruct m as [|p|p]; [| destruct p | ]; simpl; lia.
Qed.

Lemma iter_pos_nonneg (p : positive) (mrs : shr_record) :
  0 <= shr_m mrs -> 0 <= shr_m (SpecFloat.iter_pos shr_1 p mrs).
Proof.
  revert mrs. induction p as [p IH|p IH|]; intros mrs H; simpl.
  - apply IH, IH, shr_1_nonneg, H.
  - apply IH, IH, H.
  - apply shr_1_nonneg, H.
Qed.

Lemma shr_fexp_nonneg (m e : Z) (l : location) :
  0 <= m -> 0 <= shr_m (fst (shr_fexp prec emax m e l)).
Proof.
  intros H. unfold shr_fexp, shr.
  assert (Hm : 0 <= shr_m (shr_record_of_loc m l)).
  { destruct l as [|[]]; simpl; exact H. }
  destruct (fexp prec emax (Zdigits2 m + e) - e); simpl; try exact Hm.
  now apply iter_pos_nonneg.
Qed.

Lemma round_nearest_even_nonneg (m : Z) (l : location) :
  0 <= m -> 0 <= round_nearest_even m l.
Proof.
  intros H. destruct l as [|[]]; simpl; try lia.
  destruct (Z.even m); lia.
Qed.

Lemma binary_round_aux_not_nan (sx : bool) (mx ex : Z) (lx : location) :
  0 <= mx -> binary_round_aux prec emax sx mx ex lx <> S754_nan.
Proof.
  intros H. unfold binary_round_aux.
  pose proof (shr_fexp_nonneg mx ex lx H) as H1.
  destruct (shr_fexp prec emax mx ex lx) as [mrs' e']. simpl in H1.
  pose proof (shr_fexp_nonneg _ e' loc_Exact
                (round_nearest_even_nonneg _ (loc_of_shr_record mrs') H1)) as H2.
  destruct (shr_fexp prec emax _ e' loc_Exact) as [mrs'' e'']. simpl in H2.
  destruct (shr_m mrs'') as [|p|p]; [discriminate | | lia].
  destruct (e'' <=? emax - prec); discriminate.
Qed.

Lemma binary_round_not_nan (sx : bool) (mx : positive) (ex : Z) :
  binary_round prec emax sx mx ex <> S754_nan.
Proof.
  unfold binary_round.
  destruct (shl_align mx ex _) as [mz ez].
  apply binary_round_aux_not_nan. lia.
Qed.

Lemma binary_normalize_not_nan (m e : Z) (sz : bool) :
  binary_normalize prec emax m e sz <> S754_nan.
Proof.
  destruct m; simpl; [discriminate | apply binary_round_not_nan ..].
Qed.

Lemma SFcompare_refl (x : spec_float) : x <> S754_nan -> SFcompare x x = Some Eq.
Proof.
  destruct x as [s|s| |s m e]; intros H; simpl; try congruence.
  - destruct s; reflexivity.
  - destruct s; rewrite (Z.compare_refl e), (Pos.compare_cont_refl m Eq); reflexivity.
Qed.

Lemma is_nan_false (f : float) : Prim2SF f <> S754_nan -> is_nan f = false.
Proof.
  intros H. unfold is_nan. rewrite FloatAxioms.eqb_spec. unfold SFeqb.
  now rewrite (SFcompare_refl _ H).
Qed.

Lemma SF2Prim_not_nan (x : spec_float) : x <> S754_nan -> is_nan (SF2Prim x) = false.
Proof.
  destruct x as [s|s| |s m e]; intros H; simpl; try congruence.
  - destruct s; reflexivity.
  - destruct s; reflexivity.
  - assert (Hl : Prim2SF (Z.ldexp (of_uint63 (Uint63Axioms.of_Z (Z.pos m))) e) <> S754_nan).
    { rewrite Z_ldexp_spec, of_uint63_spec. unfold SFldexp.
      pose proof (binary_normalize_not_nan (Uint63Axioms.to_Z (Uint63Axioms.of_Z (Z.pos m))) 0 false) as Hn.
      destruct (binary_normalize _ _ _ _ _); try congruence.
      apply binary_round_not_nan. }
    apply is_nan_false. destruct s; [|exact Hl].
    rewrite opp_spec. destruct (Prim2SF _); simpl; congruence.
Qed.

(** [float(z)] is never NaN. *)
Lemma float_of_int_not_nan (z : Z) : is_nan (float_of_int z) = false.
Proof. apply SF2Prim_not_nan, binary_normalize_not_nan. Qed.

End FloatFacts.

(* ===================================================================== *)
(** * Strings *)
(* ===================================================================== *)

Section StringFacts.

Lemma append_nil_l (s : string) : "" +:+ s = s.
Proof. reflexivity. Qed.

Lemma append_cons (c : ascii) (a b : string) : String c a +:+ b = String c (a +:+ b).
Proof. reflexivity. Qed.

Lemma append_nil_r (s : string) : s +:+ "" = s.
Proof. induction s as [|c s IH]; [reflexivity | now rewrite append_cons, IH]. Qed.

Lemma append_assoc (a b c : string) : (a +:+ b) +:+ c = a +:+ (b +:+ c).
Proof. induction a as [|x a IH]; [reflexivity | now rewrite !append_cons, IH]. Qed.

Lemma append_length (a b : string) :
  String.length (a +:+ b) = (String.length a + String.length b)%nat.
Proof. induction a as [|x a IH]; [reflexivity | rewrite append_cons; simpl; now rewrite IH]. Qed.

(** Right cancellation of concatenation. *)
Lemma append_inv_tail (a b t : string) : a +:+ t = b +:+ t -> a = b.
Proof.
  revert b. induction a as [|x a IH]; intros [|y b] H;
    rewrite ?append_cons, ?append_nil_l in H.
  - reflexivity.
  - exfalso. apply (f_equal String.length) in H. simpl in H.
    rewrite append_length in H. lia.
  - exfalso. apply (f_equal String.length) in H. simpl in H.
    rewrite append_length in H. lia.
  - injection H as -> H. f_equal. now apply IH.
Qed.

(** The part before the first colon is determined. *)
Lemma split_first_colon (a b x y : string) :
  no_colon a = true -> no_colon b = true ->
  a +:+ ":" +:+ x = b +:+ ":" +:+ y -> a = b.
Proof.
  revert b. induction a as [|c a IH]; intros [|d b] Ha Hb H;
    rewrite ?append_cons, ?append_nil_l in H; simpl in Ha, Hb.
  - reflexivity.
  - injection H as <- _. discriminate Hb.
  - injection H as -> _. discriminate Ha.
  - injection H as -> H.
    apply andb_prop in Ha as [_ Ha]. apply andb_prop in Hb as [_ Hb].
    f_equal. now apply IH.
Qed.

Lemma rstrip_blank (s : string) : blank s = true -> rstrip s = "".
Proof.
  induction s as [|c s IH]; simpl; [reflexivity|].
  intros [Hc Hs]%andb_prop. rewrite (IH Hs). now rewrite Hc.
Qed.

Lemma rstrip_empty_blank (s : string) : rstrip s = "" -> blank s = true.
Proof.
  induction s as [|c s IH]; simpl; [reflexivity|].
  destruct (rstrip s) eqn:E; [|discriminate].
  destruct (isspace c); [|discriminate]. intros _. now rewrite IH.
Qed.

Lemma lstrip_blank (s : string) : blank s = blank (lstrip s).
Proof.
  induction s as [|c s IH]; simpl; [reflexivity|].
  destruct (isspace c) eqn:E; simpl; [exact IH | now rewrite E].
Qed.

(** [strip] gives the empty string exactly on empty or whitespace-only text. *)
Lemma strip_empty_iff (s : string) : strip s = "" <-> blank s = true.
Proof.
  unfold strip. rewrite (lstrip_blank s). split.
  - apply rstrip_empty_blank.
  - apply rstrip_blank.
Qed.

Lemma nonempty_Some (s t : string) : nonempty s = Some t -> t = s /\ s <> "".
Proof. destruct s; simpl; [discriminate|]. intros [= <-]. split; [reflexivity | discriminate]. Qed.

Lemma nonempty_None (s : string) : nonempty s = None <-> s = "".
Proof. destruct s; simpl; split; congruence. Qed.

End StringFacts.

(* ===================================================================== *)
(** * Identity resolution *)
(* ===================================================================== *)

Section IdentityFacts.

Lemma safe_str_nonempty (v : pyobj) (t : string) : _safe_str v = Some t -> t <> "".
Proof.
  destruct v as [| |b|z Hz|f|s]; simpl; try discriminate;
    try (intros H; apply nonempty_Some in H as [-> H]; exact H).
  destruct (is_nan f); [discriminate|].
  intros H; apply nonempty_Some in H as [-> H]; exact H.
Qed.

Lemma pick_first_present_nonempty (row : Series) (cands : list string) (t : string) :
  _pick_first_present row cands = Some t -> t <> "".
Proof.
  induction cands as [|c cands IH]; simpl; [discriminate|].
  destruct (in_index c row); [|exact IH].
  destruct (getitem row c) as [v|]; [|exact IH].
  destruct (_safe_str v) as [val|] eqn:E; [|exact IH].
  intros [= <-]. now apply safe_str_nonempty in E.
Qed.

Lemma resolved_name_nonempty (sr mr : option Series) (n : string) :
  resolved_name sr mr = Some n -> n <> "".
Proof.
  unfold resolved_name, or_else.
  destruct mr as [m|]; [destruct (_pick_first_present m NAME_CANDIDATES) eqn:E|].
  - intros [= <-]. now apply pick_first_present_nonempty in E.
  - destruct sr as [s|]; [|discriminate]. apply pick_first_present_nonempty.
  - destruct sr as [s|]; [|discriminate]. apply pick_first_present_nonempty.
Qed.

Lemma identity_uid (sl st : string) (sr mr : option Series) :
  let i := _identity_from_rows sl st sr mr in
  unified_odor_id i = make_uid (cid i) (cas i) sl st.
Proof. reflexivity. Qed.

Lemma identity_name (sl st : string) (sr mr : option Series) :
  name (_identity_from_rows sl st sr mr)
  = Some (match resolved_name sr mr with Some n => n | None => st end).
Proof.
  unfold _identity_from_rows, resolved_name. simpl. f_equal.
  match goal with |- context [or_else ?a ?b ?c] => destruct (or_else a b c) as [n|] eqn:E end;
    [|reflexivity].
  destruct n; [|reflexivity].
  exfalso. now apply (resolved_name_nonempty sr mr "").
Qed.

End IdentityFacts.

(** C1 (as stated, refuted): two records with neither CID nor CAS, from the
    distinct dataset slugs [a] and [a:b], get one and the same key when the
    labels are [b:c] and [c]. *)
Lemma oid_keys_collide_across_slugs :
  let i1 := _identity_from_rows "a" "b:c" None None in
  let i2 := _identity_from_rows "a:b" "c" None None in
  cid i1 = None /\ cas i1 = None /\ cid i2 = None /\ cas i2 = None
  /\ slug i1 <> slug i2
  /\ unified_odor_id i1 = unified_odor_id i2.
Proof. repeat split; try reflexivity. discriminate. Qed.

(** C1 (amended): the key of every resolved identity is [CID:<cid>] when a CID
    was resolved, else [CAS:<cas>] when a CAS was resolved, else
    [OID:<slug>:<label>]; two records with the same CID get the same key
    whatever their datasets; and two records with neither CID nor CAS, from
    distinct slugs, get distinct keys when the slugs contain no colon, or when
    the labels are equal. *)
Theorem identity_key_priority
    (sl1 st1 : string) (sr1 mr1 : option Series)
    (sl2 st2 : string) (sr2 mr2 : option Series) :
  let i1 := _identity_from_rows sl1 st1 sr1 mr1 in
  let i2 := _identity_from_rows sl2 st2 sr2 mr2 in
  unified_odor_id i1 =
    match cid i1, cas i1 with
    | Some c, _ => "CID:" +:+ c
    | None, Some c => "CAS:" +:+ c
    | None, None => "OID:" +:+ sl1 +:+ ":" +:+ st1
    end
  /\ (forall c, cid i1 = Some c -> cid i2 = Some c ->
        unified_odor_id i1 = unified_odor_id i2)
  /\ (cid i1 = None -> cas i1 = None -> cid i2 = None -> cas i2 = None ->
      sl1 <> sl2 ->
      (no_colon sl1 = true /\ no_colon sl2 = true) \/ st1 = st2 ->
      unified_odor_id i1 <> unified_odor_id i2).
Proof.
  intros i1 i2. split; [reflexivity|]. split.
  - intros c H1 H2. unfold i1, i2. rewrite !identity_uid.
    fold i1 i2. rewrite H1, H2. reflexivity.
  - intros H1 H1' H2 H2' Hne Hc. unfold i1, i2. rewrite !identity_uid.
    fold i1 i2. rewrite H1, H1', H2, H2'. simpl.
    intros H. apply (inj (String.app "OID:")) in H. apply Hne.
    destruct Hc as [[Ha Hb] | ->].
    + exact (split_first_colon _ _ _ _ Ha Hb H).
    + exact (append_inv_tail _ _ _ H).
Qed.

(** The third part of [identity_key_priority] at two datasets sharing a label. *)
Lemma identity_key_priority_example :
  unified_odor_id (_identity_from_rows "abraham_2012" "1" None None)
  <> unified_odor_id (_identity_from_rows "keller_2016" "1" None None).
Proof.
  apply (identity_key_priority "abraham_2012" "1" None None "keller_2016" "1" None None);
    try reflexivity; [discriminate | right; reflexivity].
Defined.

(* ===================================================================== *)
(** * Writing odors and facts *)
(* ===================================================================== *)

Section StoreFacts.

Lemma fold_left_invariant {A B : Type} (Q : A -> Prop) (f : A -> B -> A) (l : list B) (a : A) :
  (forall a x, Q a -> Q (f a x)) -> Q a -> Q (fold_left f l a).
Proof.
  intros Hf. revert a. induction l as [|x l IH]; intros a Ha; simpl; [exact Ha|].
  apply IH, Hf, Ha.
Qed.

Lemma insert_or_ignore_facts (c : db) (row : odor) :
  odor_facts (insert_or_ignore c row) = odor_facts c.
Proof. unfold insert_or_ignore. now destruct (existsb _ _). Qed.

Lemma upsert_odor_facts (c : db) (ident : Identity) :
  odor_facts (_upsert_odor c ident) = odor_facts c.
Proof.
  unfold _upsert_odor. simpl.
  destruct (name ident), (cid ident), (cas ident), (smiles ident); simpl;
    apply insert_or_ignore_facts.
Qed.

Lemma insert_fact_odors (c : db) (ident : Identity) (sl fn col : string) (v : pyobj) :
  odors (_insert_fact c ident sl fn col v) = odors c.
Proof. unfold _insert_fact. now destruct (fact_values v) as [[vt vn]|]. Qed.

Lemma insert_fact_facts (c : db) (ident : Identity) (sl fn col : string) (v : pyobj) :
  odor_facts (_insert_fact c ident sl fn col v) = odor_facts c ++ fact_rows ident sl fn col v.
Proof.
  unfold _insert_fact, fact_rows. destruct (fact_values v) as [[vt vn]|]; simpl;
    [reflexivity | now rewrite app_nil_r].
Qed.

(** The value columns [_insert_fact] writes: a text, or a number that is not
    NaN, never both and never neither. *)
Lemma fact_values_one (v : pyobj) (vt : option string) (vn : option float) :
  fact_values v = Some (vt, vn) ->
  (vt <> None /\ vn = None) \/ (vt = None /\ sql_non_null_num vn).
Proof.
  destruct v as [| |b|z Hz|f|s]; simpl; try discriminate.
  - intros [= <- <-]. right. split; [reflexivity|]. now destruct b.
  - intros [= <- <-]. right. split; [reflexivity|]. apply float_of_int_not_nan.
  - destruct (is_nan f) eqn:E; [discriminate|].
    intros [= <- <-]. right. split; [reflexivity | exact E].
  - destruct (nonempty (strip s)) as [text|]; [|discriminate].
    destruct (float_of_str text) as [num|].
    + destruct (is_nan num) eqn:E; simpl; intros [= <- <-].
      * left. split; [discriminate | reflexivity].
      * right. split; [reflexivity | exact E].
    + intros [= <- <-]. left. split; [discriminate | reflexivity].
Qed.

Lemma insert_fact_one_value (c : db) (ident : Identity) (sl fn col : string) (v : pyobj) :
  Forall one_value (odor_facts c) ->
  Forall one_value (odor_facts (_insert_fact c ident sl fn col v)).
Proof.
  intros H. rewrite insert_fact_facts. apply Forall_app. split; [exact H|].
  unfold fact_rows. destruct (fact_values v) as [[vt vn]|] eqn:E; [|constructor].
  constructor; [|constructor]. exact (fact_values_one v vt vn E).
Qed.

End StoreFacts.

(** ** Invariants of ingestion

    A property of the database that every upsert of a resolved identity and
    every fact insertion keep holds of every database the ingester produces. *)
Section IngestInvariant.

Variable P : db -> Prop.
Hypothesis P_upsert : forall c sl cell label sr mr,
  _safe_str cell = Some label ->
  P c -> P (_upsert_odor c (_identity_from_rows sl label sr mr)).
Hypothesis P_fact : forall c ident sl fn col v,
  P c -> P (_insert_fact c ident sl fn col v).

Lemma insert_row_as_facts_inv (c : db) (ident : Identity) (sl fn : string)
    (row : option Series) (skip : list string) :
  P c -> P (_insert_row_as_facts c ident sl fn row skip).
Proof.
  intros H. unfold _insert_row_as_facts. destruct row as [row|]; [|exact H].
  apply fold_left_invariant; [|exact H].
  intros a col Ha. destruct (bool_decide _); [exact Ha|].
  destruct (getitem row col); [apply P_fact, Ha | exact Ha].
Qed.

Lemma ingest_row_inv (sl : string) (stim_df mol_df : option DataFrame)
    (fn stim_col : string) (cols : list string) (st : run) (row : Series) :
  P (conn st) -> P (conn (ingest_row sl stim_df mol_df fn stim_col cols st row)).
Proof.
  intros H. unfold ingest_row.
  destruct (getitem row stim_col) as [cell|]; [|exact H].
  destruct (_safe_str cell) as [stim_value|] eqn:Hlabel; [|exact H].
  set (branch := match lookup_entry (identity_cache st) stim_value with
                 | Some ident => _ | None => _ end).
  assert (Hb : P (conn (snd branch))).
  { unfold branch. destruct (lookup_entry _ _); simpl; [exact H|].
    apply insert_row_as_facts_inv, insert_row_as_facts_inv.
    exact (P_upsert _ _ _ _ _ _ Hlabel H). }
  destruct branch as [ident st']. simpl in Hb.
  apply (fold_left_invariant (fun s => P (conn s))); [|exact Hb].
  intros a col Ha. destruct (String.eqb col stim_col); [exact Ha|].
  destruct (getitem row col); [simpl; apply P_fact, Ha | exact Ha].
Qed.

Lemma ingest_file_inv (sl : string) (stim_df mol_df : option DataFrame)
    (st : run) (entry : string * csv_file) :
  P (conn st) -> P (conn (ingest_file sl stim_df mol_df st entry)).
Proof.
  intros H. unfold ingest_file.
  destruct (negb _); [exact H|].
  destruct (snd entry) as [df|]; [|exact H].
  destruct (empty df); [exact H|].
  destruct (_find_stimulus_column df) as [stim_col|]; [|exact H].
  apply (fold_left_invariant (fun s => P (conn s))); [|exact H].
  intros a row Ha. now apply ingest_row_inv.
Qed.

Lemma ingest_run_inv (c : db) (sl : string) (dir : directory) :
  P c -> P (conn (ingest_run c sl dir)).
Proof.
  intros H. unfold ingest_run.
  apply (fold_left_invariant (fun s => P (conn s))); [|exact H].
  intros a e Ha. now apply ingest_file_inv.
Qed.

Lemma ingest_dataset_inv (c : db) (root : option root_directory) (sl : string) :
  P c -> P (ingest_dataset c root sl).
Proof.
  intros H. unfold ingest_dataset.
  destruct (slug_directory root sl) as [dir|]; [|exact H].
  destruct (_ <? _)%nat; [exact H|]. now apply ingest_run_inv.
Qed.

Lemma ingest_all_inv (c : db) (root : option root_directory) :
  P c -> P (ingest_all c root).
Proof.
  intros H. unfold ingest_all. destruct root as [entries|]; [|exact H].
  apply fold_left_invariant; [|exact H].
  intros a sl Ha. now apply ingest_dataset_inv.
Qed.

Lemma ingested_inv (c : db) : P empty_db -> ingested c -> P c.
Proof.
  intros H0 H. induction H as [|c root sl _ IH|c root _ IH].
  - exact H0.
  - now apply ingest_dataset_inv.
  - now apply ingest_all_inv.
Qed.

End IngestInvariant.

(* ===================================================================== *)
(** * Upserts *)
(* ===================================================================== *)

Section UpsertFacts.

Lemma preserved_refl (o : odor) : preserved o o.
Proof. repeat split; reflexivity. Qed.

Lemma preserved_trans (o1 o2 o3 : odor) : preserved o1 o2 -> preserved o2 o3 -> preserved o1 o3.
Proof.
  intros (Hk & Hs & Ht & Hc) (Hk' & Hs' & Ht' & Hc').
  repeat split; try congruence.
  intros c Hb. rewrite <- (Hc c Hb). apply Hc'. now rewrite (Hc c Hb).
Qed.

Lemma set_col_preserved (col : odor_col) (v : option string) (o : odor) :
  sql_blank (get_col col o) = true -> preserved o (set_col col v o).
Proof.
  intros Hb. destruct o as [k sf tf n ci ca sm].
  destruct col; simpl in *; repeat split; simpl;
    intros c Hc; destruct c; simpl in *; congruence.
Qed.

Lemma extends_refl (rows : list odor) : extends rows rows.
Proof.
  exists rows, []. split; [now rewrite app_nil_r|].
  induction rows; constructor; [apply preserved_refl | assumption].
Qed.

Lemma Forall2_preserved_trans (l1 l2 l3 : list odor) :
  Forall2 preserved l1 l2 -> Forall2 preserved l2 l3 -> Forall2 preserved l1 l3.
Proof.
  intros H. revert l3. induction H as [|x y l1 l2 Hxy _ IH]; intros l3 H3.
  - inversion H3. constructor.
  - inversion H3 as [|y' z l2' l3' Hyz Hrest]; subst.
    constructor; [eapply preserved_trans; eassumption | now apply IH].
Qed.

Lemma extends_trans (r1 r2 r3 : list odor) : extends r1 r2 -> extends r2 r3 -> extends r1 r3.
Proof.
  intros (o1 & n1 & -> & H1) (o2 & n2 & -> & H2).
  apply Forall2_app_inv_l in H2 as (o2a & o2b & Ha & Hb & ->).
  exists o2a, (o2b ++ n2). split; [now rewrite app_assoc|].
  eapply Forall2_preserved_trans; eassumption.
Qed.

Lemma insert_or_ignore_extends (c : db) (row : odor) :
  extends (odors c) (odors (insert_or_ignore c row)).
Proof.
  unfold insert_or_ignore. destruct (existsb _ _); simpl; [apply extends_refl|].
  exists (odors c), [row]. split; [reflexivity|].
  induction (odors c); constructor; [apply preserved_refl | assumption].
Qed.

Lemma update_blank_extends (c : db) (col : odor_col) (value uid : string) :
  extends (odors c) (odors (update_blank c col value uid)).
Proof.
  unfold update_blank. simpl. eexists _, []. split; [now rewrite app_nil_r|].
  induction (odors c) as [|o rows IH]; simpl; constructor; [|exact IH].
  destruct (String.eqb _ _); simpl; [|apply preserved_refl].
  destruct (sql_blank (get_col col o)) eqn:E; [|apply preserved_refl].
  now apply set_col_preserved.
Qed.

Lemma upsert_odor_extends (c : db) (ident : Identity) :
  extends (odors c) (odors (_upsert_odor c ident)).
Proof.
  unfold _upsert_odor.
  set (row := mkOdor (unified_odor_id ident) (Some (slug ident)) (Some (stimulus ident))
                     (name ident) (cid ident) (cas ident) (smiles ident)).
  apply (extends_trans _ (odors (insert_or_ignore c row))); [apply insert_or_ignore_extends|].
  generalize (insert_or_ignore c row).
  generalize [(Cname, name ident); (Ccid, cid ident); (Ccas, cas ident); (Csmiles, smiles ident)].
  intros l. induction l as [|[col v] l IH]; intros d; simpl; [apply extends_refl|].
  eapply extends_trans; [|apply IH].
  destruct v; [apply update_blank_extends | apply extends_refl].
Qed.

Lemma update_blank_names (c : db) (col : odor_col) (value uid : string) :
  Forall (fun o => o_name o <> None) (odors c) ->
  Forall (fun o => o_name o <> None) (odors (update_blank c col value uid)).
Proof.
  unfold update_blank. simpl. intros H. apply Forall_map.
  eapply Forall_impl; [exact H|]. intros o Ho. simpl.
  destruct (_ && _); [|exact Ho]. destruct o, col; simpl in *; congruence.
Qed.

Lemma upsert_odor_names (c : db) (ident : Identity) :
  name ident <> None ->
  Forall (fun o => o_name o <> None) (odors c) ->
  Forall (fun o => o_name o <> None) (odors (_upsert_odor c ident)).
Proof.
  intros Hn H. unfold _upsert_odor.
  apply (fold_left_invariant (fun d => Forall (fun o => o_name o <> None) (odors d))).
  - intros d [col v] Hd. simpl. destruct v; [now apply update_blank_names | exact Hd].
  - unfold insert_or_ignore. destruct (existsb _ _); simpl; [exact H|].
    apply Forall_app. split; [exact H|]. constructor; [exact Hn | constructor].
Qed.

(** A text that Python has stripped and found non-empty is not blank for SQL. *)
Lemma lstrip_head (s : string) (c : ascii) (r : string) :
  lstrip s = String c r -> isspace c = false.
Proof.
  induction s as [|d s IH]; simpl; [discriminate|].
  destruct (isspace d) eqn:E; [exact IH|]. now intros [= <- _].
Qed.

Lemma rstrip_head (s : string) (c : ascii) (r : string) :
  rstrip s = String c r -> exists r', s = String c r'.
Proof.
  destruct s as [|d s]; simpl; [discriminate|].
  destruct (rstrip s); [destruct (isspace d); [discriminate|]|];
    intros [= <- _]; now eexists.
Qed.

Lemma sql_trim_head (c : ascii) (r : string) :
  c <> " "%char -> sql_trim (String c r) <> "".
Proof.
  intros Hc. unfold sql_trim.
  assert (Hl : sql_ltrim (String c r) = String c r).
  { destruct c as [[] [] [] [] [] [] [] []]; try reflexivity. now contradict Hc. }
  rewrite Hl. simpl. destruct (sql_rtrim r); [|discriminate].
  destruct (Ascii.eqb_spec c " "); [contradiction | discriminate].
Qed.

Lemma strip_not_sql_blank (s : string) : strip s <> "" -> sql_blank (Some (strip s)) = false.
Proof.
  intros Hne. simpl. apply String.eqb_neq.
  destruct (strip s) as [|c r] eqn:E; [contradiction|].
  unfold strip in E. destruct (rstrip_head _ _ _ E) as [r' Hl].
  apply lstrip_head in Hl. apply sql_trim_head. intros ->. discriminate Hl.
Qed.

Lemma safe_str_not_sql_blank (v : pyobj) (t : string) :
  _safe_str v = Some t -> sql_blank (Some t) = false.
Proof.
  assert (H : forall s, nonempty (strip s) = Some t -> sql_blank (Some t) = false).
  { intros s Hs. apply nonempty_Some in Hs as [-> Hne]. now apply strip_not_sql_blank. }
  destruct v as [| |b|z Hz|f|s]; simpl; try discriminate; try apply H.
  destruct (is_nan f); [discriminate | apply H].
Qed.

Lemma pick_first_present_not_sql_blank (row : Series) (cands : list string) (t : string) :
  _pick_first_present row cands = Some t -> sql_blank (Some t) = false.
Proof.
  induction cands as [|c cands IH]; simpl; [discriminate|].
  destruct (in_index c row); [|exact IH].
  destruct (getitem row c) as [v|]; [|exact IH].
  destruct (_safe_str v) as [val|] eqn:E; [|exact IH].
  intros [= <-]. now apply safe_str_not_sql_blank in E.
Qed.

Lemma or_else_not_sql_blank (first : option string) (row : option Series)
    (cands : list string) (t : string) :
  (forall u, first = Some u -> sql_blank (Some u) = false) ->
  or_else first row (fun r => _pick_first_present r cands) = Some t ->
  sql_blank (Some t) = false.
Proof.
  intros Hf. unfold or_else. destruct first as [u|]; [intros [= <-]; now apply Hf|].
  destruct row as [r|]; [apply pick_first_present_not_sql_blank | discriminate].
Qed.

(** The fields of an identity resolved for a label read off a cell. *)
Lemma identity_fields_not_blank (sl : string) (cell : pyobj) (label : string)
    (sr mr : option Series) (c : odor_col) (v : string) :
  _safe_str cell = Some label ->
  let i := _identity_from_rows sl label sr mr in
  match c with
  | Cname => name i
  | Ccid => cid i
  | Ccas => cas i
  | Csmiles => smiles i
  end = Some v ->
  sql_blank (Some v) = false.
Proof.
  intros Hl i. destruct c.
  - unfold i. rewrite identity_name. intros [= <-].
    destruct (resolved_name sr mr) as [n|] eqn:E; [|now apply (safe_str_not_sql_blank cell)].
    unfold resolved_name in E. apply or_else_not_sql_blank in E; [exact E|].
    intros u Hu. destruct mr as [m|]; [|discriminate].
    now apply pick_first_present_not_sql_blank in Hu.
  - apply or_else_not_sql_blank. intros u Hu. destruct mr as [m|]; [|discriminate].
    destruct (in_index "CID" m); [|discriminate].
    destruct (getitem m "CID") as [x|]; [|discriminate].
    now apply safe_str_not_sql_blank in Hu.
  - apply or_else_not_sql_blank. intros u Hu. destruct sr as [r|]; [|discriminate].
    now apply pick_first_present_not_sql_blank in Hu.
  - apply or_else_not_sql_blank. intros u Hu. destruct mr as [m|]; [|discriminate].
    now apply pick_first_present_not_sql_blank in Hu.
Qed.

Lemma update_blank_no_blank (c : db) (col : odor_col) (value uid : string) :
  sql_blank (Some value) = false ->
  Forall no_blank_field (odors c) ->
  Forall no_blank_field (odors (update_blank c col value uid)).
Proof.
  intros Hv H. unfold update_blank. simpl. apply Forall_map.
  eapply Forall_impl; [exact H|]. intros o Ho. simpl.
  destruct (_ && _); [|exact Ho].
  intros c' v Hc'. destruct o as [k sf tf n ci ca sm].
  destruct col, c'; simpl in Hc';
    first [ injection Hc' as <-; exact Hv
          | exact (Ho Cname v Hc') | exact (Ho Ccid v Hc')
          | exact (Ho Ccas v Hc') | exact (Ho Csmiles v Hc') ].
Qed.

Lemma upsert_odor_no_blank (c : db) (ident : Identity) :
  (forall col v, match col with
                 | Cname => name ident
                 | Ccid => cid ident
                 | Ccas => cas ident
                 | Csmiles => smiles ident
                 end = Some v -> sql_blank (Some v) = false) ->
  Forall no_blank_field (odors c) ->
  Forall no_blank_field (odors (_upsert_odor c ident)).
Proof.
  intros Hi H. unfold _upsert_odor.
  assert (Hrow : Forall no_blank_field
                   (odors (insert_or_ignore c
                             (mkOdor (unified_odor_id ident) (Some (slug ident))
                                     (Some (stimulus ident)) (name ident) (cid ident)
                                     (cas ident) (smiles ident))))).
  { unfold insert_or_ignore. destruct (existsb _ _); simpl; [exact H|].
    apply Forall_app. split; [exact H|]. constructor; [|constructor].
    intros col v Hv. apply (Hi col v). now destruct col. }
  revert Hrow. generalize (insert_or_ignore c
    (mkOdor (unified_odor_id ident) (Some (slug ident)) (Some (stimulus ident))
            (name ident) (cid ident) (cas ident) (smiles ident))).
  intros d Hd. simpl.
  repeat match goal with
         | |- context [match ?x with Some _ => _ | None => _ end] =>
             let E := fresh "E" in destruct x eqn:E
         end;
    repeat (apply update_blank_no_blank;
            [first [ now apply (Hi Cname) | now apply (Hi Ccid)
                   | now apply (Hi Ccas) | now apply (Hi Csmiles) ] |]);
    exact Hd.
Qed.

Lemma preserved_never_regresses (o o' : odor) :
  no_blank_field o -> preserved o o' -> never_regresses o o'.
Proof.
  intros Hn (Hk & Hs & Ht & Hc). repeat split; trivial.
  intros c v Hv. rewrite (Hc c); [exact Hv|]. rewrite Hv. now apply (Hn c).
Qed.

End UpsertFacts.

(** C2: over any sequence of identity upserts, the table [odors] keeps every
    row it had, in place, with its key and first sighting, and with every
    field among name, cid, cas, smiles whose stored value was neither NULL nor
    blank unchanged: an upsert only fills a field that is NULL or blank, and
    rows are only ever added after the others. In a database the ingester
    produced no stored value is blank, so that over any further ingestion no
    field goes from a value to another value, or to NULL. *)
Theorem upsert_fills_only_blank_fields :
  (forall (c : db) (idents : list Identity),
      exists old new,
        odors (fold_left _upsert_odor idents c) = old ++ new
        /\ Forall2 preserved (odors c) old)
  /\ (forall (c : db) (root : option root_directory),
        ingested c ->
        Forall no_blank_field (odors c)
        /\ exists old new,
             odors (ingest_all c root) = old ++ new
             /\ Forall2 never_regresses (odors c) old).
Proof.
  split.
  - intros c idents.
    change (extends (odors c) (odors (fold_left _upsert_odor idents c))).
    revert c. induction idents as [|i idents IH]; intros c; simpl.
    + apply extends_refl.
    + eapply extends_trans; [apply upsert_odor_extends | apply IH].
  - intros c root Hc.
    assert (Hnb : Forall no_blank_field (odors c)).
    { apply (ingested_inv (fun d => Forall no_blank_field (odors d)));
        [| | constructor | exact Hc].
      - intros d sl cell label sr mr Hl Hd. apply upsert_odor_no_blank; [|exact Hd].
        intros col v. apply (identity_fields_not_blank sl cell label sr mr col v Hl).
      - intros d ident sl fn col v Hd. now rewrite insert_fact_odors. }
    split; [exact Hnb|].
    assert (He : extends (odors c) (odors (ingest_all c root))).
    { apply (ingest_all_inv (fun d => extends (odors c) (odors d))).
      - intros d sl cell label sr mr _ Hd.
        eapply extends_trans; [exact Hd | apply upsert_odor_extends].
      - intros d ident sl fn col v Hd. now rewrite insert_fact_odors.
      - apply extends_refl. }
    destruct He as (old & new & Heq & Hp). exists old, new. split; [exact Heq|].
    clear Heq. induction Hp as [|o o' l l' Ho _ IH]; [constructor|].
    apply Forall_cons in Hnb as [Hn Hnb].
    constructor; [now apply preserved_never_regresses | now apply IH].
Qed.

(** C9: identity resolution always sets a name, the one the candidate columns
    give (molecules first, then stimuli) and else the raw stimulus label; and
    no row of [odors] in a database the ingester produced has a NULL name. *)
Theorem identity_name_never_null :
  (forall sl st sr mr,
      name (_identity_from_rows sl st sr mr)
      = Some (match resolved_name sr mr with Some n => n | None => st end))
  /\ (forall c, ingested c -> Forall (fun o => o_name o <> None) (odors c)).
Proof.
  split; [apply identity_name|].
  intros c Hc.
  apply (ingested_inv (fun d => Forall (fun o => o_name o <> None) (odors d)));
    [| | constructor | exact Hc].
  - intros d sl cell st sr mr _ Hd. apply upsert_odor_names; [|exact Hd].
    now rewrite identity_name.
  - intros d ident sl fn col v Hd. now rewrite insert_fact_odors.
Qed.

(** C4: every row of [odor_facts] in a database the ingester produced has
    exactly one of [value_text] and [value_num] non-null (a stored number is
    never NaN, which SQLite would keep as NULL); and [_insert_fact] writes no
    row at all for a value that gives neither. *)
Theorem facts_have_exactly_one_value :
  (forall c, ingested c -> Forall one_value (odor_facts c))
  /\ (forall c ident sl fn col v,
        fact_values v = None -> _insert_fact c ident sl fn col v = c)
  /\ (forall c ident sl fn col v vt vn,
        fact_values v = Some (vt, vn) ->
        odor_facts (_insert_fact c ident sl fn col v)
        = odor_facts c ++ [mkFact (unified_odor_id ident) sl fn col vt vn]
        /\ one_value (mkFact (unified_odor_id ident) sl fn col vt vn)).
Proof.
  split; [|split].
  - intros c Hc. apply (ingested_inv (fun d => Forall one_value (odor_facts d)));
      [| | constructor | exact Hc].
    + intros d sl cell st sr mr _ Hd. now rewrite upsert_odor_facts.
    + intros d ident sl fn col v Hd. now apply insert_fact_one_value.
  - intros c ident sl fn col v H. unfold _insert_fact. now rewrite H.
  - intros c ident sl fn col v vt vn H. split.
    + unfold _insert_fact. now rewrite H.
    + exact (fact_values_one v vt vn H).
Qed.

(* ===================================================================== *)
(** * Fact values *)
(* ===================================================================== *)

(** C3 (as stated, refuted): the text [inf] parses as a number that is not
    finite, and is stored as a number all the same. *)
Lemma infinity_is_stored_as_number :
  fact_values (PyStr "inf") = Some (None, Some infinity)
  /\ as_number (PyStr "inf") = Some infinity
  /\ is_finite infinity = false.
Proof. repeat split; vm_compute; reflexivity. Qed.

(** C3 (amended): the stored fact is numeric exactly when the raw value is, or
    parses as, a number other than NaN (an infinity included); a raw value
    that is None, a missing marker, NaN, or empty or whitespace-only text
    gives no fact at all; any other value is stored as its trimmed text. *)
Theorem fact_is_numeric_iff_number (v : pyobj) :
  (forall x, fact_values v = Some (None, Some x) <-> as_number v = Some x /\ is_nan x = false)
  /\ (fact_values v = None <-> carries_nothing v)
  /\ (forall t, fact_values v = Some (Some t, None) <->
        ~ carries_nothing v
        /\ (forall x, as_number v = Some x -> is_nan x = true)
        /\ t = strip (str v)).
Proof.
  destruct v as [| |b|z Hz|f|s]; simpl.
  - fv_split; fv_solve H.
  - fv_split; fv_solve H.
  - assert (Hb : is_nan (if b then one else zero) = false) by now destruct b.
    fv_split; fv_solve H.
  - pose proof (float_of_int_not_nan z) as Hz'.
    fv_split; fv_solve H.
  - destruct (is_nan f) eqn:E; fv_split; fv_solve H.
  - destruct (nonempty (strip s)) as [text|] eqn:En.
    + apply nonempty_Some in En as [-> Hne].
      assert (Hnb : blank s <> true) by (intros Hb; now apply strip_empty_iff in Hb).
      destruct (float_of_str (strip s)) as [num|] eqn:Ef;
        [destruct (is_nan num) eqn:E; simpl|]; fv_split; fv_solve H.
      injection H as <-. repeat split; [exact Hnb|]. now intros x [= <-].
    + apply nonempty_None in En.
      assert (Hb : blank s = true) by now apply strip_empty_iff.
      rewrite En. fv_split; fv_solve H.
Qed.

(* ===================================================================== *)
(** * The row-count gate *)
(* ===================================================================== *)

Lemma count_behavior_rows_total (dir : directory) :
  _count_behavior_rows dir = behavior_rows_total dir.
Proof.
  unfold _count_behavior_rows, behavior_rows_total.
  enough (H : forall n,
             fold_left
               (fun total entry =>
                  if negb (is_behavior_csv (fst entry)) then total
                  else match snd entry with
                       | Some df => (total + len df)%nat
                       | None => total
                       end) dir n
             = (n + sum_list (map (fun e => match snd e with
                                            | Some df => len df
                                            | None => 0%nat
                                            end)
                                  (List.filter (fun e => is_behavior_csv (fst e)) dir)))%nat)
    by (rewrite H; reflexivity).
  induction dir as [|[fname f] dir IH]; intros n; simpl; [lia|].
  destruct (is_behavior_csv fname); simpl; rewrite IH; [destruct f|]; lia.
Qed.

(** C5: a dataset whose behavior files (name starting with [behavior] and
    ending in [.csv], both without regard to case) hold more than 5000 rows in
    total is skipped whole: [ingest_dataset] returns the database as it was,
    so no row of [odors] and no row of [odor_facts] is written for it. *)
Theorem oversized_dataset_is_skipped
    (c : db) (root : option root_directory) (sl : string) (dir : directory) :
  slug_directory root sl = Some dir ->
  (5000 < behavior_rows_total dir)%nat ->
  ingest_dataset c root sl = c.
Proof.
  intros Hdir Hrows. unfold ingest_dataset. rewrite Hdir.
  rewrite count_behavior_rows_total. unfold MAX_ROWS_PER_DATASET.
  destruct (Nat.ltb_spec 5000 (behavior_rows_total dir)); [reflexivity | lia].
Qed.

(* ===================================================================== *)
(** * Sorting *)
(* ===================================================================== *)

Section SortFacts.

Context {A : Type} (leb : A -> A -> bool).

Lemma insert_by_perm (x : A) (l : list A) : insert_by leb x l ≡ₚ x :: l.
Proof.
  induction l as [|y l IH]; simpl; [reflexivity|].
  destruct (leb x y); [reflexivity|].
  rewrite IH. apply Permutation_swap.
Qed.

Lemma sort_by_perm (l : list A) : sort_by leb l ≡ₚ l.
Proof.
  induction l as [|x l IH]; simpl; [reflexivity|].
  rewrite insert_by_perm. now rewrite IH.
Qed.

Hypothesis leb_total : forall a b, leb a b = true \/ leb b a = true.
Hypothesis leb_trans : forall a b c, leb a b = true -> leb b c = true -> leb a c = true.

Lemma insert_by_sorted (x : A) (l : list A) :
  StronglySorted (fun a b => leb a b = true) l ->
  StronglySorted (fun a b => leb a b = true) (insert_by leb x l).
Proof.
  induction 1 as [|y l Hs IH Hy]; simpl.
  - repeat constructor.
  - destruct (leb x y) eqn:E.
    + constructor; [now constructor|].
      constructor; [exact E|].
      eapply Forall_impl; [exact Hy|]. intros z Hz. simpl in Hz. now apply (leb_trans x y z).
    + constructor; [exact IH|].
      rewrite insert_by_perm. constructor; [|exact Hy].
      destruct (leb_total x y); congruence.
Qed.

Lemma sort_by_sorted (l : list A) :
  StronglySorted (fun a b => leb a b = true) (sort_by leb l).
Proof.
  induction l as [|x l IH]; simpl; [constructor|]. now apply insert_by_sorted.
Qed.

End SortFacts.

Lemma string_leb_trans (a b c : string) :
  String.leb a b = true -> String.leb b c = true -> String.leb a c = true.
Proof.
  intros H1 H2. apply Is_true_true.
  change (String.le a c). transitivity b; apply Is_true_true; assumption.
Qed.

(** [sorted(set(xs))]: ascending, without repeats, with the elements of [xs]. *)
Lemma sorted_set_spec (xs : list string) :
  sorted_unique (sorted_set xs) /\ forall t, t ∈ sorted_set xs <-> t ∈ xs.
Proof.
  unfold sorted_set, sorted. split; [split|].
  - apply sort_by_sorted; [apply String.leb_total | apply string_leb_trans].
  - rewrite sort_by_perm. apply NoDup_remove_dups.
  - intros t. rewrite sort_by_perm. apply elem_of_remove_dups.
Qed.

(* ===================================================================== *)
(** * The wide view *)
(* ===================================================================== *)

Section PivotFacts.

Lemma filter_length_all {A : Type} (p : A -> bool) (l : list A) :
  length (List.filter p l) = length l -> List.filter p l = l.
Proof.
  induction l as [|x l IH]; simpl; [reflexivity|].
  destruct (p x); simpl.
  - intros [= H]. now rewrite IH.
  - intros H. pose proof (filter_length_le p l). lia.
Qed.

Lemma filter_all {A : Type} (p : A -> bool) (l : list A) :
  Forall (fun x => p x = true) l -> List.filter p l = l.
Proof.
  induction 1 as [|x l Hx _ IH]; simpl; [reflexivity|]. now rewrite Hx, IH.
Qed.

Lemma filter_Forall {A : Type} (p : A -> bool) (l : list A) :
  Forall (fun x => p x = true) (List.filter p l).
Proof.
  induction l as [|x l IH]; simpl; [constructor|].
  destruct (p x) eqn:E; [now constructor | exact IH].
Qed.

(** [sum] adds up from left to right. *)
Lemma fsum_add_up (xs : list float) : fsum xs = add_up zero xs.
Proof.
  unfold fsum. generalize zero. induction xs as [|x xs IH]; intros acc; simpl; [reflexivity|].
  apply IH.
Qed.

(** The value of a non-empty group follows the rule. *)
Lemma aggregate_rule (vals : list pyobj) : vals <> [] -> pivot_rule vals (App.aggregate vals).
Proof.
  intros Hne. unfold pivot_rule, App.aggregate.
  destruct (negb (length (List.filter is_int_or_float vals) =? 0)%nat
            && (length (List.filter is_int_or_float vals) =? length vals)%nat) eqn:E.
  - apply andb_prop in E as [_ E]. apply Nat.eqb_eq, filter_length_all in E.
    split.
    + intros _. unfold mean. now rewrite E, length_map, fsum_add_up.
    + intros H. exfalso. apply H. rewrite <- E. apply filter_Forall.
  - split.
    + intros H. exfalso. rewrite (filter_all _ _ H) in E.
      rewrite Nat.eqb_refl, andb_true_r in E.
      destruct vals; [now apply Hne | discriminate].
    + intros _. eexists. split; [reflexivity|].
      destruct (sorted_set_spec
                  (map str (List.filter (fun v => match v with PyNone => false | _ => true end)
                                        vals))) as [Hs Hin].
      split; [exact Hs|]. intros t. rewrite Hin, list_elem_of_fmap. split.
      * intros (v & -> & Hv). apply list_elem_of_In, filter_In in Hv as [Hv Hn].
        exists v. repeat split; [now apply list_elem_of_In | intros ->; discriminate Hn].
      * intros (v & Hv & Hn & ->). exists v. split; [reflexivity|].
        apply list_elem_of_In, filter_In. split; [now apply list_elem_of_In | now destruct v].
Qed.

Lemma groupby_keys (df : list Query.FactView) (k : string * string * string) :
  k ∈ map fst (App.groupby df) <-> k ∈ map App.view_key df.
Proof.
  unfold App.groupby. rewrite !map_map. simpl. rewrite map_id.
  rewrite sort_by_perm. apply elem_of_remove_dups.
Qed.

(** The rows of a group of the frame are the facts of its key. *)
Lemma groupby_values (df : list Query.FactView) (k : string * string * string) :
  map Query.value (List.filter (fun f => bool_decide (App.view_key f = k)) df)
  = group_values df k.
Proof.
  destruct k as [[s fl] c]. unfold group_values. f_equal. apply filter_ext. intros f.
  unfold App.view_key.
  destruct (String.eqb_spec (Query.slug f) s) as [->|Hs];
    [destruct (String.eqb_spec (Query.file f) fl) as [->|Hf];
      [destruct (String.eqb_spec (Query.column f) c) as [->|Hc]|]|]; simpl.
  - now apply bool_decide_eq_true.
  - apply bool_decide_eq_false. congruence.
  - apply bool_decide_eq_false. congruence.
  - apply bool_decide_eq_false. congruence.
Qed.

Lemma view_key_iff (facts : list Query.FactView) (s fl c : string) :
  (s, fl, c) ∈ map App.view_key facts
  <-> exists f, f ∈ facts /\ Query.slug f = s /\ Query.file f = fl /\ Query.column f = c.
Proof.
  rewrite list_elem_of_fmap. unfold App.view_key. split.
  - intros (f & [= -> -> ->] & Hf). now exists f.
  - intros (f & Hf & <- & <- & <-). now exists f.
Qed.

(** A frame of facts that all have a value is the facts themselves. *)
Lemma DataFrame_valued (facts : list Query.FactView) :
  Forall (fun f => Query.value f <> PyNone) facts -> App.DataFrame facts = facts.
Proof.
  intros H. unfold App.DataFrame. destruct (existsb _ facts && forallb _ facts); [|reflexivity].
  induction H as [|f facts Hf _ IH]; simpl; [reflexivity|]. rewrite IH.
  destruct f as [sl fl cl v]. simpl in *. now destruct v.
Qed.

(** The facts read from a database that keeps the invariant all have a value. *)
Lemma get_odor_facts_valued (c : db) (uid : string) :
  Forall one_value (odor_facts c) ->
  Forall (fun f => Query.value f <> PyNone) (Query.get_odor_facts c uid).
Proof.
  intros H. unfold Query.get_odor_facts. apply Forall_map.
  rewrite sort_by_perm. apply Forall_forall. intros f Hf.
  apply list_elem_of_In, filter_In in Hf as [Hf _].
  apply list_elem_of_In in Hf. rewrite Forall_forall in H. specialize (H f Hf).
  simpl. destruct H as [[Ht _] | [_ Hn]].
  - destruct (f_value_text f); [discriminate | congruence].
  - destruct (f_value_text f); [discriminate|].
    destruct (f_value_num f); [discriminate | destruct Hn].
Qed.

End PivotFacts.


(** X18: for the facts of an odor, read from a database in which every fact
    has a value, the wide view has one row for each (dataset, file, column)
    key of the facts; the group of a row is not empty; and the value of the
    row is the arithmetic mean of the group's values (their sum, taken from
    left to right, over their count) when every one of them is numeric, and
    otherwise the sorted, de-duplicated texts [str(v)] of the values that are
    not None, joined by a semicolon and a space. *)
Theorem pivot_aggregates_each_group (c : db) (uid : string) :
  Forall one_value (odor_facts c) ->
  let facts := Query.get_odor_facts c uid in
  Forall (fun row =>
            group_values facts (fst row) <> []
            /\ pivot_rule (group_values facts (fst row)) (snd row))
         (App.rows_agg facts)
  /\ NoDup (map fst (App.rows_agg facts))
  /\ (forall dataset file column,
        (dataset, file, column) ∈ map fst (App.rows_agg facts)
        <-> exists f, f ∈ facts /\ Query.slug f = dataset /\ Query.file f = file
                      /\ Query.column f = column).
Proof.
  intros Hc facts. unfold App.rows_agg.
  rewrite (DataFrame_valued facts (get_odor_facts_valued c uid Hc)).
  assert (Hkeys : forall k, k ∈ map fst (map (fun g => (fst g, App.aggregate (snd g)))
                                           (App.groupby facts))
                            <-> k ∈ map App.view_key facts).
  { intros k. rewrite map_map. simpl. apply groupby_keys. }
  split; [|split].
  - apply Forall_forall. intros [k a] Hin. apply list_elem_of_In in Hin.
    assert (Hk : k ∈ map App.view_key facts).
    { apply Hkeys. apply list_elem_of_In. apply in_map_iff. now exists (k, a). }
    unfold App.groupby in Hin. rewrite map_map in Hin.
    apply in_map_iff in Hin as (k' & [= <- <-] & _). simpl.
    rewrite groupby_values.
    assert (Hne : group_values facts k' <> []).
    { rewrite <- groupby_values.
      apply list_elem_of_fmap in Hk as (f & -> & Hf).
      intros Hnil.
      assert (Hin : In f (List.filter (fun g => bool_decide (App.view_key g = App.view_key f)) facts)).
      { apply filter_In. split; [now apply list_elem_of_In | now apply bool_decide_eq_true]. }
      apply (in_map Query.value) in Hin. rewrite Hnil in Hin. exact Hin. }
    split; [exact Hne | now apply aggregate_rule].
  - unfold App.groupby. rewrite !map_map. simpl. rewrite map_id.
    rewrite sort_by_perm. apply NoDup_remove_dups.
  - intros s fl cl. rewrite Hkeys. apply view_key_iff.
Qed.

(* ===================================================================== *)
(** * Enrichment from the stimulus and molecule tables *)
(* ===================================================================== *)

Section EnrichmentFacts.

Lemma lookup_entry_None {A : Type} (entries : list (string * A)) (k : string) :
  lookup_entry entries k = None -> k ∉ map fst entries.
Proof.
  induction entries as [|[n a] entries IH]; simpl; intros H.
  - apply not_elem_of_nil.
  - destruct (String.eqb_spec n k) as [->|Hne]; [discriminate|].
    rewrite not_elem_of_cons. split; [congruence | now apply IH].
Qed.

Lemma find_stimulus_column_label (df : DataFrame) (col : string) :
  _find_stimulus_column df = Some col -> is_stimulus_label col = true.
Proof. intros H. now apply find_some in H as [_ H]. Qed.

Lemma is_behavior_csv_not_enrichment (fn : string) :
  is_behavior_csv fn = true ->
  String.eqb fn "stimuli.csv" || String.eqb fn "molecules.csv" = false.
Proof.
  intros H.
  destruct (String.eqb_spec fn "stimuli.csv") as [->|_]; [discriminate H|].
  destruct (String.eqb_spec fn "molecules.csv") as [->|_]; [discriminate H|].
  reflexivity.
Qed.

Lemma insert_row_as_facts_odors (c : db) (ident : Identity) (sl fn : string)
    (row : option Series) (skip : list string) :
  odors (_insert_row_as_facts c ident sl fn row skip) = odors c.
Proof.
  apply (insert_row_as_facts_inv (fun d => odors d = odors c)); [|reflexivity].
  intros d i s f col v Hd. now rewrite insert_fact_odors.
Qed.

Lemma insert_row_as_facts_facts (c : db) (ident : Identity) (sl fn : string)
    (row : option Series) (skip : list string) :
  odor_facts (_insert_row_as_facts c ident sl fn row skip)
  = odor_facts c ++ row_facts ident sl fn row skip.
Proof.
  unfold _insert_row_as_facts, row_facts. destruct row as [r|]; [|now rewrite app_nil_r].
  generalize (index r). intros cols. revert c.
  induction cols as [|col cols IH]; intros c; simpl; [now rewrite app_nil_r|].
  rewrite IH. destruct (bool_decide _); [reflexivity|].
  destruct (getitem r col); [|reflexivity].
  now rewrite insert_fact_facts, app_assoc.
Qed.

Lemma fact_rows_file (ident : Identity) (sl fn col : string) (v : pyobj) :
  Forall (fun f => f_file f = fn) (fact_rows ident sl fn col v).
Proof. unfold fact_rows. destruct (fact_values v) as [[vt vn]|]; repeat constructor. Qed.

Lemma row_facts_file (ident : Identity) (sl fn : string) (row : option Series)
    (skip : list string) :
  Forall (fun f => f_file f = fn) (row_facts ident sl fn row skip).
Proof.
  unfold row_facts. destruct row as [r|]; [|constructor].
  induction (index r) as [|col cols IH]; simpl; [constructor|].
  apply Forall_app. split; [|exact IH].
  destruct (bool_decide _); [constructor|].
  destruct (getitem r col); [apply fact_rows_file | constructor].
Qed.

Lemma row_facts_stimulus_column (ident : Identity) (sl fn : string) (row : option Series)
    (stim_col : string) :
  is_stimulus_label stim_col = true ->
  row_facts ident sl fn row [stim_col] = row_facts ident sl fn row ["stimulus"].
Proof.
  unfold is_stimulus_label. intros H%String.eqb_eq.
  unfold row_facts. simpl. now rewrite H.
Qed.

Lemma filter_file_all (p : odor_fact -> bool) (fn : string) (l : list odor_fact) (b : bool) :
  (forall f, f_file f = fn -> p f = b) ->
  Forall (fun f => f_file f = fn) l ->
  List.filter p l = if b then l else [].
Proof.
  intros Hp H. induction H as [|f l Hf _ IH]; simpl; [now destruct b|].
  rewrite (Hp f Hf), IH. now destruct b.
Qed.

Lemma enrichment_tagged (sl : string) (sdf mdf : option DataFrame) (e : string * Identity) :
  List.filter is_enrichment (enrichment sl sdf mdf e) = enrichment sl sdf mdf e.
Proof.
  unfold enrichment. rewrite List.filter_app. f_equal.
  - apply (filter_file_all _ "stimuli.csv" _ true); [|apply row_facts_file].
    intros f Hf. unfold is_enrichment. now rewrite Hf.
  - apply (filter_file_all _ "molecules.csv" _ true); [|apply row_facts_file].
    intros f Hf. unfold is_enrichment. now rewrite Hf.
Qed.

(** The loop over the columns of a measurement row leaves the cache and the
    count of odors alone and writes no enrichment fact. *)
Lemma measurement_facts (ident : Identity) (sl fn stim_col : string) (row : Series)
    (cols : list string) (st : run) :
  is_behavior_csv fn = true ->
  let st' :=
    fold_left
      (fun st col =>
         if String.eqb col stim_col then st
         else match getitem row col with
              | Some v =>
                  mkRun (_insert_fact (conn st) ident sl fn col v)
                        (identity_cache st) (odors_seen st) (S (facts_seen st))
              | None => st
              end)
      cols st in
  identity_cache st' = identity_cache st
  /\ odors_seen st' = odors_seen st
  /\ List.filter is_enrichment (odor_facts (conn st'))
     = List.filter is_enrichment (odor_facts (conn st)).
Proof.
  intros Hfn. revert st. induction cols as [|col cols IH]; intros st; simpl; [auto|].
  destruct (String.eqb col stim_col); [apply IH|].
  destruct (getitem row col) as [v|]; [|apply IH].
  destruct (IH (mkRun (_insert_fact (conn st) ident sl fn col v)
                      (identity_cache st) (odors_seen st) (S (facts_seen st))))
    as (H1 & H2 & H3).
  simpl in *. rewrite H1, H2, H3. repeat split.
  rewrite insert_fact_facts, List.filter_app.
  rewrite (filter_file_all is_enrichment fn (fact_rows ident sl fn col v) false);
    [simpl; now rewrite app_nil_r | | apply fact_rows_file].
  intros f Hf. unfold is_enrichment. rewrite Hf. now apply is_behavior_csv_not_enrichment.
Qed.

Lemma ingest_row_enrichment (base : list odor_fact) (sl : string)
    (sdf mdf : option DataFrame) (fn stim_col : string) (cols : list string)
    (st : run) (row : Series) :
  is_behavior_csv fn = true ->
  is_stimulus_label stim_col = true ->
  enrichment_inv base sl sdf mdf st ->
  enrichment_inv base sl sdf mdf (ingest_row sl sdf mdf fn stim_col cols st row).
Proof.
  intros Hfn Hcol Hinv. unfold ingest_row.
  destruct (getitem row stim_col) as [cell|]; [|exact Hinv].
  destruct (_safe_str cell) as [label|]; [|exact Hinv].
  destruct (lookup_entry (identity_cache st) label) as [ident|] eqn:El.
  - destruct (measurement_facts ident sl fn stim_col row cols st Hfn) as (H1 & H2 & H3).
    destruct Hinv as (I1 & I2 & I3 & I4).
    unfold enrichment_inv. now rewrite H1, H2, H3.
  - set (ident := _identity_from_rows sl label (stimulus_row_of sdf label)
                    (molecule_row_of sdf mdf label)).
    match goal with
    | |- enrichment_inv _ _ _ _ (fold_left _ _ ?s) => set (st1 := s)
    end.
    destruct (measurement_facts ident sl fn stim_col row cols st1 Hfn) as (H1 & H2 & H3).
    destruct Hinv as (I1 & I2 & I3 & I4).
    unfold enrichment_inv. rewrite H1, H2, H3. unfold st1. simpl.
    repeat split.
    + rewrite map_app. simpl. apply NoDup_app. repeat split; trivial.
      * intros x Hx Hx'. apply list_elem_of_singleton in Hx'. subst x.
        now apply (lookup_entry_None _ _ El).
      * apply NoDup_singleton.
    + rewrite length_app. simpl. lia.
    + apply Forall_app. split; [exact I3|]. now constructor.
    + rewrite !insert_row_as_facts_facts, upsert_odor_facts.
      rewrite !List.filter_app, I4, flat_map_app. simpl. rewrite app_nil_r.
      rewrite <- !app_assoc. do 2 f_equal.
      rewrite (row_facts_stimulus_column _ _ _ _ _ Hcol).
      rewrite <- List.filter_app. apply (enrichment_tagged sl sdf mdf (label, ident)).
Qed.

Lemma ingest_file_enrichment (base : list odor_fact) (sl : string)
    (sdf mdf : option DataFrame) (st : run) (entry : string * csv_file) :
  enrichment_inv base sl sdf mdf st ->
  enrichment_inv base sl sdf mdf (ingest_file sl sdf mdf st entry).
Proof.
  intros H. unfold ingest_file.
  destruct (is_behavior_csv (fst entry)) eqn:Hfn; simpl; [|exact H].
  destruct (snd entry) as [df|]; [|exact H].
  destruct (empty df); [exact H|].
  destruct (_find_stimulus_column df) as [stim_col|] eqn:Ec; [|exact H].
  apply fold_left_invariant; [|exact H].
  intros a row Ha. apply ingest_row_enrichment; trivial.
  now apply (find_stimulus_column_label df).
Qed.

End EnrichmentFacts.

(** C6 (as stated, refuted): in a dataset where the labels A and B carry the
    same CID, the one identity [CID:1] is entered twice in the cache of the
    run and the stimulus-table facts are written for it twice, once from the
    row of each label. *)
Lemma one_identity_enriched_twice :
  let r := ingest_run empty_db "d" shared_cid_dir in
  map (fun e => (fst e, unified_odor_id (snd e))) (identity_cache r)
  = [("A", "CID:1"); ("B", "CID:1")]
  /\ map f_value_text
       (List.filter (fun f => String.eqb (f_unified_odor_id f) "CID:1"
                              && String.eqb (f_file f) "stimuli.csv"
                              && String.eqb (f_column f) "Note")
                    (odor_facts (conn r)))
     = [Some "x"; Some "y"].
Proof. vm_compute. split; reflexivity. Qed.

(** C6 (amended): in a run of [ingest_dataset], the facts tagged [stimuli.csv]
    and [molecules.csv] are written on the first sighting of a stimulus label
    only: the enrichment facts of the run are one block per entry of the
    cache, the cache has one entry per label, each with the identity resolved
    for that label, and [odors_seen] counts them. *)
Theorem enrichment_once_per_label (c : db) (sl : string) (dir : directory) :
  let r := ingest_run c sl dir in
  let sdf := _load_stimuli dir in
  let mdf := _load_molecules dir in
  NoDup (map fst (identity_cache r))
  /\ odors_seen r = length (identity_cache r)
  /\ Forall (fun e => snd e = resolve sl sdf mdf (fst e)) (identity_cache r)
  /\ List.filter is_enrichment (odor_facts (conn r))
     = List.filter is_enrichment (odor_facts c)
       ++ flat_map (enrichment sl sdf mdf) (identity_cache r).
Proof.
  simpl. unfold ingest_run.
  apply (fold_left_invariant
           (enrichment_inv (List.filter is_enrichment (odor_facts c)) sl
                           (_load_stimuli dir) (_load_molecules dir))).
  - intros a e Ha. now apply ingest_file_enrichment.
  - unfold enrichment_inv. simpl. repeat split; [constructor | constructor |].
    now rewrite app_nil_r.
Qed.

(* ===================================================================== *)
(** * LIKE and descriptor search *)
(* ===================================================================== *)

Section LikeFacts.

Lemma list_of_append (a b : string) :
  list_ascii_of_string (a +:+ b) = list_ascii_of_string a ++ list_ascii_of_string b.
Proof. induction a as [|c a IH]; [reflexivity|]. rewrite append_cons. simpl. now rewrite IH. Qed.

Lemma list_of_map_chars (f : ascii -> ascii) (s : string) :
  list_ascii_of_string (map_chars f s) = map f (list_ascii_of_string s).
Proof. induction s as [|c s IH]; simpl; [reflexivity | now rewrite IH]. Qed.

Lemma string_of_app (a b : list ascii) :
  string_of_list_ascii (a ++ b) = string_of_list_ascii a +:+ string_of_list_ascii b.
Proof. induction a as [|c a IH]; simpl; [reflexivity|]. now rewrite append_cons, IH. Qed.

Lemma sql_lower_char_idem (c : ascii) : sql_lower_char (sql_lower_char c) = sql_lower_char c.
Proof. destruct c as [[] [] [] [] [] [] [] []]; reflexivity. Qed.

Lemma sql_lower_char_wild (c : ascii) :
  (sql_lower_char c = "%"%char -> c = "%"%char)
  /\ (sql_lower_char c = "_"%char -> c = "_"%char).
Proof. destruct c as [[] [] [] [] [] [] [] []]; split; intros H; try reflexivity; discriminate H. Qed.

Lemma like_chars_percent (p s : list ascii) :
  like_chars ("%"%char :: p) s
  = like_chars p s || match s with [] => false | _ :: s' => like_chars ("%"%char :: p) s' end.
Proof. destruct s; reflexivity. Qed.

Lemma like_chars_literal (c : ascii) (p s : list ascii) :
  c <> "%"%char -> c <> "_"%char ->
  like_chars (c :: p) s
  = match s with
    | [] => false
    | d :: s' => Ascii.eqb (sql_lower_char c) (sql_lower_char d) && like_chars p s'
    end.
Proof.
  intros H1 H2.
  destruct c as [[] [] [] [] [] [] [] []]; try reflexivity; congruence.
Qed.

Lemma like_percent_iff (p s : list ascii) :
  like_chars ("%"%char :: p) s = true
  <-> exists pre post, s = pre ++ post /\ like_chars p post = true.
Proof.
  induction s as [|d s IH]; rewrite like_chars_percent.
  - rewrite orb_false_r. split.
    + intros H. now exists [], [].
    + intros (pre & post & Hs & H). symmetry in Hs.
      apply app_eq_nil in Hs as [-> ->]. exact H.
  - rewrite orb_true_iff, IH. split.
    + intros [H | (pre & post & -> & H)].
      * now exists [], (d :: s).
      * now exists (d :: pre), post.
    + intros (pre & post & Hs & H). destruct pre as [|d' pre]; simpl in Hs.
      * left. now subst post.
      * right. injection Hs as -> ->. now exists pre, post.
Qed.

Lemma like_literal_iff (t s : list ascii) :
  literal t ->
  like_chars (t ++ ["%"%char]) s = true
  <-> exists mid post, s = mid ++ post /\ map sql_lower_char mid = map sql_lower_char t.
Proof.
  intros Ht. revert s. induction Ht as [|c t [Hc1 Hc2] _ IH]; intros s.
  - rewrite app_nil_l. split.
    + intros _. now exists [], s.
    + intros _. apply like_percent_iff. exists s, [].
      split; [now rewrite app_nil_r | reflexivity].
  - rewrite <- app_comm_cons, (like_chars_literal c _ s Hc1 Hc2). destruct s as [|d s].
    + split; [discriminate|]. intros (mid & post & Hs & Hm). symmetry in Hs.
      apply app_eq_nil in Hs as [-> ->]. discriminate Hm.
    + rewrite andb_true_iff, IH, Ascii.eqb_eq. split.
      * intros (Hcd & mid & post & -> & Hm). exists (d :: mid), post. simpl.
        split; [reflexivity | congruence].
      * intros (mid & post & Hs & Hm). destruct mid as [|d' mid]; [discriminate Hm|].
        simpl in Hs, Hm. injection Hs as -> ->. injection Hm as Hd Hm.
        split; [congruence|]. now exists mid, post.
Qed.

Lemma like_contains_chars (t s : list ascii) :
  literal t ->
  like_chars ("%"%char :: t ++ ["%"%char]) s = true
  <-> exists pre mid post,
        s = pre ++ mid ++ post /\ map sql_lower_char mid = map sql_lower_char t.
Proof.
  intros Ht. rewrite like_percent_iff. split.
  - intros (pre & rest & -> & H). apply (like_literal_iff t rest Ht) in H as (mid & post & -> & Hm).
    now exists pre, mid, post.
  - intros (pre & mid & post & -> & Hm). exists pre, (mid ++ post). split; [reflexivity|].
    apply (like_literal_iff t _ Ht). now exists mid, post.
Qed.

Lemma wildcard_free_literal (t : string) :
  wildcard_free t = true -> literal (map sql_lower_char (list_ascii_of_string t)).
Proof.
  induction t as [|c t IH]; simpl; [constructor|].
  intros [[H1 H2]%andb_prop H3]%andb_prop. constructor; [|now apply IH].
  apply negb_true_iff, Ascii.eqb_neq in H1, H2.
  destruct (sql_lower_char_wild c) as [W1 W2]. split; intros H; auto.
Qed.

(** On lower-cased text and pattern, the comparison with a wildcard-free text
    between two [%] is the substring test. *)
Lemma like_lowered (s t : string) :
  wildcard_free t = true ->
  like_text (sql_lower s) ("%" +:+ sql_lower t +:+ "%") = true <-> contains_ci s t.
Proof.
  intros Ht. unfold like_text, contains_ci, sql_lower.
  rewrite !list_of_append, !list_of_map_chars. simpl.
  rewrite (like_contains_chars _ _ (wildcard_free_literal t Ht)). split.
  - intros (pre & mid & post & Hs & Hm).
    exists (string_of_list_ascii pre), (string_of_list_ascii post).
    rewrite <- (string_of_list_ascii_of_string (map_chars sql_lower_char s)).
    rewrite <- (string_of_list_ascii_of_string (map_chars sql_lower_char t)).
    rewrite <- !string_of_app. f_equal.
    rewrite !list_of_map_chars, Hs. do 2 f_equal.
    assert (Hmid : map sql_lower_char mid = mid).
    { assert (Hl : map sql_lower_char (map sql_lower_char (list_ascii_of_string s))
                   = map sql_lower_char (list_ascii_of_string s)).
      { rewrite map_map. apply map_ext. intros c. apply sql_lower_char_idem. }
      rewrite Hs, !map_app in Hl.
      apply app_inj_1 in Hl as [_ Hl]; [|now rewrite length_map].
      apply app_inj_1 in Hl as [Hl _]; [exact Hl | now rewrite length_map]. }
    rewrite <- Hmid, Hm, map_map. apply map_ext. intros c. apply sql_lower_char_idem.
  - intros (pre & post & Hs).
    exists (list_ascii_of_string pre), (map sql_lower_char (list_ascii_of_string t)),
           (list_ascii_of_string post).
    split; [|reflexivity].
    rewrite <- !list_of_map_chars, <- !list_of_append. now f_equal.
Qed.

Lemma sql_lower_pattern (t : string) :
  sql_lower ("%" +:+ t +:+ "%") = "%" +:+ sql_lower t +:+ "%".
Proof.
  unfold sql_lower. rewrite !append_cons, append_nil_l. simpl. f_equal.
  induction t as [|c t IH]; [reflexivity|]. rewrite append_cons. simpl. now rewrite IH.
Qed.

Lemma sql_lower_char_nul (c : ascii) :
  Ascii.eqb (sql_lower_char c) Ascii.zero = Ascii.eqb c Ascii.zero.
Proof. destruct c as [[] [] [] [] [] [] [] []]; reflexivity. Qed.

Lemma c_str_lower (s : string) : c_str (sql_lower s) = sql_lower (c_str s).
Proof.
  unfold sql_lower. induction s as [|c s IH]; simpl; [reflexivity|].
  rewrite sql_lower_char_nul. destruct (Ascii.eqb c Ascii.zero); simpl; [reflexivity|].
  now rewrite IH.
Qed.

Lemma c_str_nul_free (s : string) : nul_free s = true -> c_str s = s.
Proof.
  induction s as [|c s IH]; simpl; [reflexivity|].
  intros [Hc Hs]%andb_prop. apply negb_true_iff in Hc. rewrite Hc. now rewrite IH.
Qed.

Lemma nul_free_c_str (s : string) : nul_free (c_str s) = true.
Proof.
  induction s as [|c s IH]; simpl; [reflexivity|].
  destruct (Ascii.eqb c Ascii.zero) eqn:E; simpl; [reflexivity|]. now rewrite E, IH.
Qed.

Lemma nul_free_lower (s : string) : nul_free (sql_lower s) = nul_free s.
Proof.
  unfold sql_lower. induction s as [|c s IH]; simpl; [reflexivity|].
  now rewrite sql_lower_char_nul, IH.
Qed.

Lemma nul_free_append (a b : string) : nul_free (a +:+ b) = nul_free a && nul_free b.
Proof.
  induction a as [|c a IH]; [reflexivity|]. rewrite append_cons. simpl.
  now rewrite IH, andb_assoc.
Qed.

Lemma nul_free_pattern (t : string) : nul_free t = true -> nul_free ("%" +:+ t +:+ "%") = true.
Proof. intros H. rewrite !nul_free_append, H. reflexivity. Qed.

(** LIKE with a wildcard-free text without NUL between two [%] is the
    substring test on the text up to its first NUL. *)
Lemma sql_like_lowered (s t : string) :
  wildcard_free t = true -> nul_free t = true ->
  sql_like (sql_lower s) ("%" +:+ sql_lower t +:+ "%") = true <-> contains_ci (c_str s) t.
Proof.
  intros Hw Hn. unfold sql_like.
  rewrite c_str_lower, (c_str_nul_free ("%" +:+ sql_lower t +:+ "%")).
  - now apply like_lowered.
  - apply nul_free_pattern. now rewrite nul_free_lower.
Qed.

Lemma utf8_bytes_append (a b : string) : utf8_bytes (a +:+ b) = utf8_bytes a + utf8_bytes b.
Proof.
  induction a as [|c a IH]; [reflexivity|]. rewrite append_cons. simpl. rewrite IH. lia.
Qed.

Lemma sql_lower_char_size (c : ascii) :
  (nat_of_ascii (sql_lower_char c) <? 128)%nat = (nat_of_ascii c <? 128)%nat.
Proof. destruct c as [[] [] [] [] [] [] [] []]; reflexivity. Qed.

Lemma utf8_bytes_lower (s : string) : utf8_bytes (sql_lower s) = utf8_bytes s.
Proof.
  unfold sql_lower. induction s as [|c s IH]; simpl; [reflexivity|].
  now rewrite sql_lower_char_size, IH.
Qed.

(** The pattern of a text short enough is one LIKE takes. *)
Lemma like_pattern_ok_text (t : string) :
  utf8_bytes t + 2 <= SQLITE_MAX_LIKE_PATTERN_LENGTH ->
  like_pattern_ok ("%" +:+ t +:+ "%") = true
  /\ like_pattern_ok (sql_lower ("%" +:+ t +:+ "%")) = true.
Proof.
  intros H. unfold like_pattern_ok.
  rewrite utf8_bytes_lower, !utf8_bytes_append. change (utf8_bytes "%") with 1.
  split; apply Z.leb_le; lia.
Qed.

Lemma wildcard_free_nonempty_no_match (t : string) :
  wildcard_free t = true -> t <> "" -> ~ contains_ci "" t.
Proof.
  intros _ Hne (pre & post & H). apply (f_equal String.length) in H.
  rewrite !append_length in H. destruct t; [congruence|]. simpl in H. lia.
Qed.

(** The WHERE clause of [descriptor_search], for a search text that is not
    blank and has no wildcard. *)
Lemma descriptor_where_iff (text : string) (dataset : option string) (f : odor_fact) :
  strip text <> "" -> wildcard_free (strip text) = true -> nul_free (strip text) = true ->
  Query.descriptor_where ("%" +:+ strip text +:+ "%") dataset f = true
  <-> descriptor_match text dataset f.
Proof.
  intros Hne Hw Hn. unfold Query.descriptor_where, descriptor_match.
  rewrite !andb_true_iff, sql_lower_pattern.
  change "%descriptor%" with ("%" +:+ sql_lower "descriptor" +:+ "%").
  rewrite (sql_like_lowered (f_column f) "descriptor" eq_refl eq_refl).
  assert (Hv : sql_like (coalesce (option_map sql_lower (f_value_text f)) "")
                        ("%" +:+ sql_lower (strip text) +:+ "%") = true
               <-> exists v, f_value_text f = Some v /\ contains_ci (c_str v) (strip text)).
  { destruct (f_value_text f) as [v|]; simpl.
    - rewrite (sql_like_lowered v _ Hw Hn). split; [intros H; now exists v|].
      now intros (v' & [= <-] & H).
    - change "" with (sql_lower ""). rewrite (sql_like_lowered "" _ Hw Hn). split.
      + intros H. now apply wildcard_free_nonempty_no_match in H.
      + now intros (v' & [=] & _). }
  assert (Hd : match dataset with
               | Some d => match d with
                           | EmptyString => true
                           | _ => String.eqb (f_slug f) d
                           end
               | None => true
               end = true
               <-> match dataset with
                   | Some d => d = "" \/ f_slug f = d
                   | None => True
                   end).
  { destruct dataset as [[|c d]|]; [tauto| |tauto].
    rewrite String.eqb_eq. split; [now right|]. now intros [H|H]. }
  rewrite Hv, Hd. tauto.
Qed.

Lemma to_row_inj (o1 o2 : odor) : Query.to_row o1 = Query.to_row o2 -> o1 = o2.
Proof. destruct o1, o2. unfold Query.to_row. simpl. now intros [= -> -> -> -> -> -> ->]. Qed.

End LikeFacts.

(** C7 (the code at the failing input): on a database whose one odor has one
    descriptor-like fact, a number without a text, a search for [%] and a
    search for a space each return that odor. *)
Theorem numeric_descriptor_fact_matches :
  Forall (fun f => f_value_text f = None /\ f_value_num f = Some 3%float)
         (odor_facts numeric_descriptor_db)
  /\ Query.descriptor_search numeric_descriptor_db "%" None None
     = Some [Query.mkOdorRow "CID:1" (Some "A") (Some "1") None None (Some "d") (Some "A")]
  /\ Query.descriptor_search numeric_descriptor_db " " None None
     = Some [Query.mkOdorRow "CID:1" (Some "A") (Some "1") None None (Some "d") (Some "A")].
Proof. split; [repeat constructor | split; reflexivity]. Qed.

(** X15: for a search text that, once trimmed, is not empty, has neither [%],
    [_] nor NUL and is short enough for LIKE, [descriptor_search] without a
    limit returns, without repeats, exactly the rows of [odors] that have a
    fact whose column name contains [descriptor] and whose text value
    contains the trimmed search text (both read up to their first NUL and
    without regard to the case of ASCII letters), in the dataset asked for
    when one is; a fact without a text value never counts. *)
Theorem descriptor_search_exact (c : db) (text : string) (dataset : option string) :
  plain_text text ->
  exists rows,
    Query.descriptor_search c text dataset None = Some rows
    /\ NoDup rows
    /\ forall r,
         r ∈ rows
         <-> exists o f,
               r = Query.to_row o
               /\ o ∈ odors c
               /\ f ∈ odor_facts c
               /\ f_unified_odor_id f = o_unified_odor_id o
               /\ descriptor_match text dataset f.
Proof.
  intros (Hne & Hw & Hn & Hlen).
  unfold Query.descriptor_search, Query.apply_limit, Query.order_rows.
  rewrite (proj2 (like_pattern_ok_text _ Hlen)).
  eexists. split; [reflexivity|]. split.
  - apply NoDup_fmap_2; [intros o1 o2; apply to_row_inj|].
    rewrite sort_by_perm. apply NoDup_remove_dups.
  - intros r. rewrite list_elem_of_fmap. setoid_rewrite sort_by_perm.
    setoid_rewrite elem_of_remove_dups. split.
    + intros (o & -> & Ho). exists o.
      apply list_elem_of_In, in_flat_map in Ho as (o' & Ho' & Hin).
      apply in_map_iff in Hin as (f & <- & Hf).
      apply filter_In in Hf as [Hf Hc]. apply andb_prop in Hc as [Hid Hwhere].
      exists f. split; [reflexivity|].
      do 2 (split; [now apply list_elem_of_In|]).
      split; [now apply String.eqb_eq|].
      now apply (descriptor_where_iff text dataset f Hne Hw Hn).
    + intros (o & f & -> & Ho & Hf & Hid & Hm). exists o. split; [reflexivity|].
      apply list_elem_of_In, in_flat_map. exists o. split; [now apply list_elem_of_In|].
      apply in_map_iff. exists f. split; [reflexivity|].
      apply filter_In. split; [now apply list_elem_of_In|].
      apply andb_true_intro. split; [now apply String.eqb_eq|].
      now apply descriptor_where_iff.
Qed.

(* ===================================================================== *)
(** * Rows without a stimulus label *)
(* ===================================================================== *)

Section MissingStimulus.

Lemma safe_str_text (s : string) : _safe_str (PyStr s) = None <-> blank s = true.
Proof. simpl. rewrite nonempty_None. apply strip_empty_iff. Qed.

(** A row whose stimulus cell gives no label leaves the run as it is. *)
Lemma ingest_row_without_label (sl : string) (sdf mdf : option DataFrame)
    (fn stim_col : string) (cols : list string) (st : run) (row : Series) (v : pyobj) :
  getitem row stim_col = Some v -> _safe_str v = None ->
  ingest_row sl sdf mdf fn stim_col cols st row = st.
Proof. intros Hg Hs. unfold ingest_row. now rewrite Hg, Hs. Qed.

(** The conversion of the stimulus column to text makes a label of a missing
    cell. *)
Lemma astype_str_missing_cell :
  _safe_str (PyFloat nan) = None
  /\ _safe_str (PyStr (str (PyFloat nan))) = Some "nan"
  /\ _safe_str (PyStr (str PyNone)) = Some "None".
Proof. repeat split; reflexivity. Qed.

End MissingStimulus.

(** C10 (the code at the failing input): a behavior row whose stimulus field
    is empty is ingested under the label [nan]: one row of [odors] and one
    fact are written for it. *)
Theorem missing_stimulus_row_is_ingested :
  ingest_dataset empty_db missing_stimulus_root "d"
  = {| odors := [mkOdor "OID:d:nan" (Some "d") (Some "nan") (Some "nan") None None None];
       odor_facts := [mkFact "OID:d:nan" "d" "behavior.csv" "Intensity" None (Some 3.5%float)] |}.
Proof. vm_compute. reflexivity. Qed.

(* ===================================================================== *)
(** * Keys of the table of odors *)
(* ===================================================================== *)

Section KeyFacts.

Lemma existsb_key (rows : list odor) (k : string) :
  existsb (fun o => String.eqb (o_unified_odor_id o) k) rows
  = bool_decide (k ∈ map o_unified_odor_id rows).
Proof.
  induction rows as [|o rows IH]; simpl; [reflexivity|].
  rewrite IH. destruct (String.eqb_spec (o_unified_odor_id o) k) as [->|Hne]; simpl.
  - symmetry. apply bool_decide_eq_true. apply list_elem_of_here.
  - apply bool_decide_ext. rewrite elem_of_cons. split; [tauto|].
    intros [H|H]; [congruence | exact H].
Qed.

Lemma insert_or_ignore_keys (c : db) (row : odor) :
  odor_keys (insert_or_ignore c row)
  = odor_keys c ++ (if bool_decide (o_unified_odor_id row ∈ odor_keys c)
                    then [] else [o_unified_odor_id row]).
Proof.
  unfold insert_or_ignore, odor_keys. rewrite existsb_key.
  destruct (bool_decide _); simpl; [now rewrite app_nil_r | now rewrite map_app].
Qed.

Lemma update_blank_keys (c : db) (col : odor_col) (value uid : string) :
  odor_keys (update_blank c col value uid) = odor_keys c.
Proof.
  unfold update_blank, odor_keys. simpl. rewrite map_map. apply map_ext.
  intros o. destruct (_ && _); [|reflexivity]. now destruct col.
Qed.

(** An upsert adds a row for a key the table lacks, and no row otherwise. *)
Lemma upsert_odor_keys (c : db) (ident : Identity) :
  odor_keys (_upsert_odor c ident)
  = odor_keys c ++ (if bool_decide (unified_odor_id ident ∈ odor_keys c)
                    then [] else [unified_odor_id ident]).
Proof.
  unfold _upsert_odor.
  set (row := mkOdor _ _ _ _ _ _ _).
  transitivity (odor_keys (insert_or_ignore c row)); [|apply insert_or_ignore_keys].
  apply (fold_left_invariant (fun d => odor_keys d = odor_keys (insert_or_ignore c row)));
    [|reflexivity].
  intros d [col v] Hd. simpl. destruct v; [now rewrite update_blank_keys | exact Hd].
Qed.

Lemma upsert_odor_key_in (c : db) (ident : Identity) :
  unified_odor_id ident ∈ odor_keys (_upsert_odor c ident).
Proof.
  rewrite upsert_odor_keys, elem_of_app.
  destruct (bool_decide _) eqn:E; [left; now apply bool_decide_eq_true in E|].
  right. apply list_elem_of_here.
Qed.

Lemma upsert_odor_keys_incl (c : db) (ident : Identity) (k : string) :
  k ∈ odor_keys c -> k ∈ odor_keys (_upsert_odor c ident).
Proof. intros H. rewrite upsert_odor_keys, elem_of_app. now left. Qed.

Lemma upsert_odor_keys_NoDup (c : db) (ident : Identity) :
  NoDup (odor_keys c) -> NoDup (odor_keys (_upsert_odor c ident)).
Proof.
  intros H. rewrite upsert_odor_keys.
  destruct (bool_decide _) eqn:E; [now rewrite app_nil_r|].
  apply bool_decide_eq_false in E.
  apply NoDup_app. repeat split; [exact H | | apply NoDup_singleton].
  intros x Hx Hx'. apply list_elem_of_singleton in Hx'. now subst x.
Qed.

Lemma insert_fact_keys (c : db) (ident : Identity) (sl fn col : string) (v : pyobj) :
  odor_keys (_insert_fact c ident sl fn col v) = odor_keys c.
Proof. unfold odor_keys. now rewrite insert_fact_odors. Qed.

End KeyFacts.

(** X1: [_upsert_odor] adds the key of the identity to the keys of [odors],
    after them, exactly when no row has it; and in a database reached by
    ingestion from the empty one no two rows of [odors] have the same key. *)
Theorem odor_keys_are_unique :
  (forall (c : db) (ident : Identity),
      odor_keys (_upsert_odor c ident)
      = odor_keys c ++ (if bool_decide (unified_odor_id ident ∈ odor_keys c)
                        then [] else [unified_odor_id ident]))
  /\ (forall c : db, ingested c -> NoDup (odor_keys c)).
Proof.
  split; [apply upsert_odor_keys|].
  intros c Hc.
  apply (ingested_inv (fun d => NoDup (odor_keys d))); [| | constructor | exact Hc].
  - intros d sl cell label sr mr _ Hd. now apply upsert_odor_keys_NoDup.
  - intros d ident sl fn col v Hd. now rewrite insert_fact_keys.
Qed.

(* ===================================================================== *)
(** * Invariants of a run *)
(* ===================================================================== *)

Lemma lookup_entry_Some {A : Type} (entries : list (string * A)) (k : string) (a : A) :
  lookup_entry entries k = Some a -> (k, a) ∈ entries.
Proof.
  induction entries as [|[n b] entries IH]; simpl; [discriminate|].
  destruct (String.eqb_spec n k) as [->|Hne].
  - intros [= ->]. apply list_elem_of_here.
  - intros H. apply list_elem_of_further, IH, H.
Qed.

Lemma lookup_entry_name {A : Type} (entries : list (string * A)) (k : string) (a : A) :
  lookup_entry entries k = Some a -> k ∈ map fst entries.
Proof.
  intros H%lookup_entry_Some. apply list_elem_of_fmap. now exists (k, a).
Qed.

(** The induction principle of [ingested], [ingest_all] being runs of
    [ingest_dataset]. *)
Lemma ingested_by_datasets (P : db -> Prop) :
  P empty_db ->
  (forall c root sl, P c -> P (ingest_dataset c root sl)) ->
  forall c, ingested c -> P c.
Proof.
  intros H0 Hd c H. induction H as [|c root sl _ IH|c root _ IH].
  - exact H0.
  - now apply Hd.
  - unfold ingest_all. destruct root as [entries|]; [|exact IH].
    apply fold_left_invariant; [|exact IH]. intros a sl Ha. now apply Hd.
Qed.

Section RunInvariant.

Variables (sl : string) (sdf mdf : option DataFrame).
Variable okfile : string -> Prop.
Variable Q : db -> list (string * Identity) -> Prop.

Hypothesis ok_stimuli : forall label r,
  stimulus_row_of sdf label = Some r -> okfile "stimuli.csv".
Hypothesis ok_molecules : forall label r,
  molecule_row_of sdf mdf label = Some r -> okfile "molecules.csv".
Hypothesis Q_first : forall c cache cell label,
  _safe_str cell = Some label ->
  lookup_entry cache label = None ->
  Q c cache ->
  Q (_upsert_odor c (resolve sl sdf mdf label))
    (cache ++ [(label, resolve sl sdf mdf label)]).
Hypothesis Q_fact : forall c cache label ident fn col v,
  (label, ident) ∈ cache -> okfile fn ->
  Q c cache -> Q (_insert_fact c ident sl fn col v) cache.

Lemma run_insert_row_as_facts (c : db) (cache : list (string * Identity))
    (label : string) (ident : Identity) (fn : string) (row : option Series)
    (skip : list string) :
  (label, ident) ∈ cache -> (forall r, row = Some r -> okfile fn) ->
  Q c cache -> Q (_insert_row_as_facts c ident sl fn row skip) cache.
Proof.
  intros Hin Hok H. unfold _insert_row_as_facts. destruct row as [row|]; [|exact H].
  apply (fold_left_invariant (fun d => Q d cache)); [|exact H].
  intros a col Ha. destruct (bool_decide _); [exact Ha|].
  destruct (getitem row col); [|exact Ha].
  apply (Q_fact _ _ label); [exact Hin | now apply (Hok row) | exact Ha].
Qed.

Lemma run_measurements (label : string) (ident : Identity) (fn stim_col : string)
    (row : Series) (cols : list string) (st : run) :
  (label, ident) ∈ identity_cache st -> okfile fn ->
  Q (conn st) (identity_cache st) ->
  let st' :=
    fold_left
      (fun st col =>
         if String.eqb col stim_col then st
         else match getitem row col with
              | Some v =>
                  mkRun (_insert_fact (conn st) ident sl fn col v)
                        (identity_cache st) (odors_seen st) (S (facts_seen st))
              | None => st
              end)
      cols st in
  Q (conn st') (identity_cache st').
Proof.
  intros Hin Hok H. simpl.
  apply (fold_left_invariant
           (fun s => (label, ident) ∈ identity_cache s /\ Q (conn s) (identity_cache s)));
    [|now split].
  intros a col [Ha1 Ha2]. destruct (String.eqb col stim_col); [now split|].
  destruct (getitem row col); [|now split].
  simpl. split; [exact Ha1|]. now apply (Q_fact _ _ label).
Qed.

Lemma run_ingest_row (fn stim_col : string) (cols : list string) (st : run) (row : Series) :
  okfile fn ->
  Q (conn st) (identity_cache st) ->
  let st' := ingest_row sl sdf mdf fn stim_col cols st row in
  Q (conn st') (identity_cache st').
Proof.
  intros Hok H. simpl. unfold ingest_row.
  destruct (getitem row stim_col) as [cell|]; [|exact H].
  destruct (_safe_str cell) as [label|] eqn:Hlabel; [|exact H].
  destruct (lookup_entry (identity_cache st) label) as [ident|] eqn:El.
  - apply (run_measurements label); [now apply lookup_entry_Some | exact Hok | exact H].
  - apply (run_measurements label); simpl.
    + rewrite elem_of_app. right. apply list_elem_of_here.
    + exact Hok.
    + pose proof (Q_first _ _ cell label Hlabel El H) as H1.
      assert (Hin : (label, resolve sl sdf mdf label)
                    ∈ identity_cache st ++ [(label, resolve sl sdf mdf label)]).
      { rewrite elem_of_app. right. apply list_elem_of_here. }
      apply (run_insert_row_as_facts _ _ label); [exact Hin | apply ok_molecules |].
      apply (run_insert_row_as_facts _ _ label); [exact Hin | apply ok_stimuli |].
      exact H1.
Qed.

Lemma run_ingest_file (st : run) (entry : string * csv_file) :
  (is_behavior_csv (fst entry) = true -> okfile (fst entry)) ->
  Q (conn st) (identity_cache st) ->
  let st' := ingest_file sl sdf mdf st entry in
  Q (conn st') (identity_cache st').
Proof.
  intros Hok H. simpl. unfold ingest_file.
  destruct (is_behavior_csv (fst entry)) eqn:Hb; simpl; [|exact H].
  destruct (snd entry) as [df|]; [|exact H].
  destruct (empty df); [exact H|].
  destruct (_find_stimulus_column df) as [stim_col|]; [|exact H].
  apply (fold_left_invariant (fun s => Q (conn s) (identity_cache s))); [|exact H].
  intros a row Ha. apply run_ingest_row; [now apply Hok | exact Ha].
Qed.

Lemma run_ingest_files (entries : directory) (st : run) :
  Forall (fun e => is_behavior_csv (fst e) = true -> okfile (fst e)) entries ->
  Q (conn st) (identity_cache st) ->
  let st' := fold_left (ingest_file sl sdf mdf) entries st in
  Q (conn st') (identity_cache st').
Proof.
  intros Hok. revert st. induction Hok as [|e entries He _ IH]; intros st H; simpl; [exact H|].
  apply IH. now apply run_ingest_file.
Qed.

End RunInvariant.

(* ===================================================================== *)
(** * Facts and the odors they belong to *)
(* ===================================================================== *)

Section FactFacts.

Lemma fact_rows_Forall (P : odor_fact -> Prop) (ident : Identity) (sl fn col : string)
    (v : pyobj) :
  (forall vt vn, fact_values v = Some (vt, vn) ->
                 P (mkFact (unified_odor_id ident) sl fn col vt vn)) ->
  Forall P (fact_rows ident sl fn col v).
Proof.
  intros H. unfold fact_rows. destruct (fact_values v) as [[vt vn]|]; [|constructor].
  constructor; [now apply H | constructor].
Qed.

Lemma load_stimuli_file (dir : directory) (label : string) (r : Series) :
  stimulus_row_of (_load_stimuli dir) label = Some r -> source_file dir "stimuli.csv".
Proof.
  unfold stimulus_row_of, _load_stimuli, _get_stimulus_row.
  destruct (lookup_entry dir "stimuli.csv") as [f|] eqn:E; [|discriminate].
  intros _. split; [now apply (lookup_entry_name dir _ f) | auto].
Qed.

Lemma load_molecules_file (dir : directory) (sdf : option DataFrame) (label : string)
    (r : Series) :
  molecule_row_of sdf (_load_molecules dir) label = Some r -> source_file dir "molecules.csv".
Proof.
  unfold molecule_row_of, _load_molecules, _get_molecule_row.
  destruct (lookup_entry dir "molecules.csv") as [f|] eqn:E; [|discriminate].
  intros _. split; [now apply (lookup_entry_name dir _ f) | auto].
Qed.

Lemma sorted_entries_files (dir : directory) :
  Forall (fun e => is_behavior_csv (fst e) = true -> source_file dir (fst e))
         (sorted_entries dir).
Proof.
  apply Forall_forall. intros e He Hb. split; [|now left].
  unfold sorted_entries in He. rewrite sort_by_perm in He.
  apply list_elem_of_fmap. now exists e.
Qed.

(** Every fact belongs to a row of [odors]: kept by a run of [ingest_dataset]. *)
Lemma ingest_dataset_refs (c : db) (root : option root_directory) (sl : string) :
  Forall (fun f => f_unified_odor_id f ∈ odor_keys c) (odor_facts c) ->
  Forall (fun f => f_unified_odor_id f ∈ odor_keys (ingest_dataset c root sl))
         (odor_facts (ingest_dataset c root sl)).
Proof.
  intros H. unfold ingest_dataset.
  destruct (slug_directory root sl) as [dir|]; [|exact H].
  destruct (_ <? _)%nat; [exact H|]. unfold initialize_database, ingest_run.
  set (Q := fun (d : db) (cache : list (string * Identity)) =>
              Forall (fun f => f_unified_odor_id f ∈ odor_keys d) (odor_facts d)
              /\ Forall (fun e => unified_odor_id (snd e) ∈ odor_keys d) cache).
  apply (run_ingest_files sl (_load_stimuli dir) (_load_molecules dir) (fun _ => True) Q).
  - trivial.
  - trivial.
  - intros d cache cell label _ _ [Hf Hc]. split.
    + rewrite upsert_odor_facts. eapply Forall_impl; [exact Hf|].
      intros f. apply upsert_odor_keys_incl.
    + apply Forall_app. split.
      * eapply Forall_impl; [exact Hc|]. intros e. apply upsert_odor_keys_incl.
      * constructor; [apply upsert_odor_key_in | constructor].
  - intros d cache label ident fn col v Hin _ [Hf Hc]. split.
    + rewrite insert_fact_facts. apply Forall_app. split.
      * eapply Forall_impl; [exact Hf|]. intros f. now rewrite insert_fact_keys.
      * apply fact_rows_Forall. intros vt vn _. simpl. rewrite insert_fact_keys.
        rewrite Forall_forall in Hc. exact (Hc _ Hin).
    + eapply Forall_impl; [exact Hc|]. intros e. now rewrite insert_fact_keys.
  - apply Forall_forall. trivial.
  - split; [exact H | constructor].
Qed.

(** The facts a run of [ingest_dataset] appends, and where they come from. *)
Lemma ingest_dataset_tags (c : db) (root : option root_directory) (sl : string) :
  exists new,
    odor_facts (ingest_dataset c root sl) = odor_facts c ++ new
    /\ Forall (fun f => f_slug f = sl /\ written_for root f) new.
Proof.
  unfold ingest_dataset.
  destruct (slug_directory root sl) as [dir|] eqn:Hdir;
    [|exists []; split; [now rewrite app_nil_r | constructor]].
  destruct (_ <? _)%nat; [exists []; split; [now rewrite app_nil_r | constructor]|].
  unfold initialize_database, ingest_run.
  set (Q := fun (d : db) (cache : list (string * Identity)) =>
              exists new,
                odor_facts d = odor_facts c ++ new
                /\ Forall (fun f => f_slug f = sl /\ written_for root f) new).
  apply (run_ingest_files sl (_load_stimuli dir) (_load_molecules dir) (source_file dir) Q).
  - apply load_stimuli_file.
  - apply load_molecules_file.
  - intros d cache cell label _ _ (new & Hnew & Htag). exists new.
    split; [now rewrite upsert_odor_facts | exact Htag].
  - intros d cache label ident fn col v _ Hfn (new & Hnew & Htag).
    exists (new ++ fact_rows ident sl fn col v). split.
    + now rewrite insert_fact_facts, Hnew, app_assoc.
    + apply Forall_app. split; [exact Htag|]. apply fact_rows_Forall.
      intros vt vn _. split; [reflexivity|]. exists dir. simpl. now split.
  - apply sorted_entries_files.
  - exists []. split; [now rewrite app_nil_r | constructor].
Qed.

Lemma ingest_all_tags (c : db) (root : option root_directory) :
  exists new,
    odor_facts (ingest_all c root) = odor_facts c ++ new
    /\ Forall (written_for root) new.
Proof.
  unfold ingest_all. destruct root as [entries|];
    [|exists []; split; [now rewrite app_nil_r | constructor]].
  apply (fold_left_invariant
           (fun d => exists new, odor_facts d = odor_facts c ++ new
                                 /\ Forall (written_for (Some entries)) new)).
  - intros d sl (new & Hnew & Htag).
    destruct (ingest_dataset_tags d (Some entries) sl) as (new' & Hnew' & Htag').
    exists (new ++ new'). split; [now rewrite Hnew', Hnew, app_assoc|].
    apply Forall_app. split; [exact Htag|].
    eapply Forall_impl; [exact Htag'|]. now intros f [_ Hf].
  - exists []. split; [now rewrite app_nil_r | constructor].
Qed.

End FactFacts.

(** X2: in a database reached by ingestion from the empty one, every fact
    carries the key of a row of [odors]. *)
Theorem facts_belong_to_odors (c : db) :
  ingested c ->
  Forall (fun f => exists o, o ∈ odors c /\ o_unified_odor_id o = f_unified_odor_id f)
         (odor_facts c).
Proof.
  intros Hc.
  assert (H : Forall (fun f => f_unified_odor_id f ∈ odor_keys c) (odor_facts c)).
  { apply (ingested_by_datasets
             (fun d => Forall (fun f => f_unified_odor_id f ∈ odor_keys d) (odor_facts d)));
      [constructor | | exact Hc].
    intros d root sl. apply ingest_dataset_refs. }
  eapply Forall_impl; [exact H|]. intros f Hf.
  apply list_elem_of_fmap in Hf as (o & Ho & Hin). now exists o.
Qed.

(** X3: ingestion appends to [odor_facts] and leaves the facts that are there
    in place.  Every fact [ingest_dataset] appends carries the slug it was
    given, and the name of a file of that dataset folder that is a behavior
    file, [stimuli.csv] or [molecules.csv]; every fact [ingest_all] appends
    carries the name of a folder of the root and of such a file of it. *)
Theorem ingested_facts_name_their_source (c : db) (root : option root_directory) :
  (forall sl, exists new,
      odor_facts (ingest_dataset c root sl) = odor_facts c ++ new
      /\ Forall (fun f => f_slug f = sl /\ written_for root f) new)
  /\ exists new,
       odor_facts (ingest_all c root) = odor_facts c ++ new
       /\ Forall (written_for root) new.
Proof. split; [intros sl; apply ingest_dataset_tags | apply ingest_all_tags]. Qed.

(* ===================================================================== *)
(** * The facts of a run do not depend on the database *)
(* ===================================================================== *)

Section DatabaseIndependence.

Lemma fold_left_rel {A B : Type} (R : A -> A -> Prop) (f : A -> B -> A) (l : list B) (a b : A) :
  (forall a b x, R a b -> R (f a x) (f b x)) -> R a b -> R (fold_left f l a) (fold_left f l b).
Proof.
  intros Hf. revert a b. induction l as [|x l IH]; intros a b H; simpl; [exact H|].
  apply IH, Hf, H.
Qed.

Variable base : list odor_fact.

Lemma ingest_row_same_run (sl : string) (sdf mdf : option DataFrame) (fn stim_col : string)
    (cols : list string) (st st0 : run) (row : Series) :
  same_run base st st0 ->
  same_run base (ingest_row sl sdf mdf fn stim_col cols st row)
                (ingest_row sl sdf mdf fn stim_col cols st0 row).
Proof.
  intros H. unfold ingest_row.
  destruct (getitem row stim_col) as [cell|]; [|exact H].
  destruct (_safe_str cell) as [label|]; [|exact H].
  assert (Hstep : forall ident a b,
             same_run base a b ->
             same_run base
               (fold_left
                  (fun st col =>
                     if String.eqb col stim_col then st
                     else match getitem row col with
                          | Some v =>
                              mkRun (_insert_fact (conn st) ident sl fn col v)
                                    (identity_cache st) (odors_seen st) (S (facts_seen st))
                          | None => st
                          end) cols a)
               (fold_left
                  (fun st col =>
                     if String.eqb col stim_col then st
                     else match getitem row col with
                          | Some v =>
                              mkRun (_insert_fact (conn st) ident sl fn col v)
                                    (identity_cache st) (odors_seen st) (S (facts_seen st))
                          | None => st
                          end) cols b)).
  { intros ident a b Hab. apply (fold_left_rel (same_run base)); [|exact Hab].
    clear. intros a b col (H1 & H2 & H3 & H4).
    destruct (String.eqb col stim_col); [now repeat split|].
    destruct (getitem row col); [|now repeat split].
    repeat split; simpl; try congruence.
    now rewrite !insert_fact_facts, H4, app_assoc. }
  destruct H as (H1 & H2 & H3 & H4). rewrite H1.
  destruct (lookup_entry (identity_cache st0) label) as [ident|].
  - apply Hstep. now repeat split.
  - apply Hstep. repeat split; simpl; try congruence.
    now rewrite !insert_row_as_facts_facts, !upsert_odor_facts, H4, !app_assoc.
Qed.

Lemma ingest_file_same_run (sl : string) (sdf mdf : option DataFrame) (st st0 : run)
    (entry : string * csv_file) :
  same_run base st st0 ->
  same_run base (ingest_file sl sdf mdf st entry) (ingest_file sl sdf mdf st0 entry).
Proof.
  intros H. unfold ingest_file.
  destruct (negb _); [exact H|].
  destruct (snd entry) as [df|]; [|exact H].
  destruct (empty df); [exact H|].
  destruct (_find_stimulus_column df) as [stim_col|]; [|exact H].
  apply (fold_left_rel (same_run base)); [|exact H].
  intros a b row. apply ingest_row_same_run.
Qed.

End DatabaseIndependence.

Lemma ingest_run_same_run (c : db) (sl : string) (dir : directory) :
  same_run (odor_facts c) (ingest_run c sl dir) (ingest_run empty_db sl dir).
Proof.
  unfold ingest_run. apply (fold_left_rel (same_run (odor_facts c))).
  - intros a b e. apply ingest_file_same_run.
  - repeat split. simpl. now rewrite app_nil_r.
Qed.

Lemma ingest_dataset_appends (c : db) (root : option root_directory) (sl : string) :
  odor_facts (ingest_dataset c root sl)
  = odor_facts c ++ odor_facts (ingest_dataset empty_db root sl).
Proof.
  unfold ingest_dataset. destruct (slug_directory root sl) as [dir|]; [|now rewrite app_nil_r].
  destruct (_ <? _)%nat; [now rewrite app_nil_r|].
  apply (ingest_run_same_run c sl dir).
Qed.

Lemma ingest_all_appends (c : db) (root : option root_directory) :
  odor_facts (ingest_all c root) = odor_facts c ++ odor_facts (ingest_all empty_db root).
Proof.
  unfold ingest_all. destruct root as [entries|]; [|now rewrite app_nil_r].
  generalize (sorted (map fst (List.filter (fun e => match snd e with
                                                     | Some _ => true
                                                     | None => false
                                                     end) entries))).
  intros slugs. revert c.
  induction slugs as [|sl slugs IH]; intros c; cbn [fold_left]; [now rewrite app_nil_r|].
  rewrite (IH (ingest_dataset c (Some entries) sl)).
  rewrite (IH (ingest_dataset empty_db (Some entries) sl)).
  rewrite (ingest_dataset_appends c). now rewrite app_assoc.
Qed.

(** X4: the facts an ingestion appends do not depend on the database it starts
    from: they are the facts it writes to the empty database.  Ingesting the
    same root twice appends these facts twice: facts are never de-duplicated. *)
Theorem ingestion_appends_the_same_facts (c : db) (root : option root_directory) :
  (forall sl, odor_facts (ingest_dataset c root sl)
              = odor_facts c ++ odor_facts (ingest_dataset empty_db root sl))
  /\ odor_facts (ingest_all c root) = odor_facts c ++ odor_facts (ingest_all empty_db root)
  /\ odor_facts (ingest_all (ingest_all c root) root)
     = odor_facts c ++ odor_facts (ingest_all empty_db root)
                    ++ odor_facts (ingest_all empty_db root).
Proof.
  split; [intros sl; apply ingest_dataset_appends|].
  split; [apply ingest_all_appends|].
  rewrite (ingest_all_appends (ingest_all c root)), (ingest_all_appends c).
  now rewrite app_assoc.
Qed.

Section TrimFacts.

Lemma rstrip_idem (s : string) : rstrip (rstrip s) = rstrip s.
Proof.
  induction s as [|c s IH]; simpl; [reflexivity|].
  destruct (rstrip s) as [|d r] eqn:E.
  - destruct (isspace c) eqn:Ec; simpl; [reflexivity | now rewrite Ec].
  - simpl in *. now rewrite IH.
Qed.

Lemma strip_idem (s : string) : strip (strip s) = strip s.
Proof.
  unfold strip. destruct (rstrip (lstrip s)) as [|c r] eqn:E; [reflexivity|].
  destruct (rstrip_head _ _ _ E) as [r' Hl]. apply lstrip_head in Hl.
  assert (Hls : lstrip (String c r) = String c r) by (simpl; now rewrite Hl).
  rewrite Hls, <- E. apply rstrip_idem.
Qed.

Lemma safe_str_trimmed (v : pyobj) (t : string) : _safe_str v = Some t -> trimmed t.
Proof.
  assert (H : forall s, nonempty (strip s) = Some t -> trimmed t).
  { intros s Hs. apply nonempty_Some in Hs as [-> Hne]. split; [apply strip_idem | exact Hne]. }
  destruct v as [| |b|z Hz|f|s]; simpl; try discriminate; try apply H.
  destruct (is_nan f); [discriminate | apply H].
Qed.

Lemma pick_first_present_trimmed (row : Series) (cands : list string) (t : string) :
  _pick_first_present row cands = Some t -> trimmed t.
Proof.
  induction cands as [|c cands IH]; simpl; [discriminate|].
  destruct (in_index c row); [|exact IH].
  destruct (getitem row c) as [v|]; [|exact IH].
  destruct (_safe_str v) as [val|] eqn:E; [|exact IH].
  intros [= <-]. now apply safe_str_trimmed in E.
Qed.

Lemma or_else_trimmed (first : option string) (row : option Series)
    (cands : list string) (t : string) :
  (forall u, first = Some u -> trimmed u) ->
  or_else first row (fun r => _pick_first_present r cands) = Some t ->
  trimmed t.
Proof.
  intros Hf. unfold or_else. destruct first as [u|]; [intros [= <-]; now apply Hf|].
  destruct row as [r|]; [apply pick_first_present_trimmed | discriminate].
Qed.

Lemma identity_fields_trimmed (sl : string) (cell : pyobj) (label : string)
    (sr mr : option Series) (c : odor_col) (v : string) :
  _safe_str cell = Some label ->
  let i := _identity_from_rows sl label sr mr in
  match c with
  | Cname => name i
  | Ccid => cid i
  | Ccas => cas i
  | Csmiles => smiles i
  end = Some v ->
  trimmed v.
Proof.
  intros Hl i. destruct c.
  - unfold i. rewrite identity_name. intros [= <-].
    destruct (resolved_name sr mr) as [n|] eqn:E; [|now apply (safe_str_trimmed cell)].
    unfold resolved_name in E. apply or_else_trimmed in E; [exact E|].
    intros u Hu. destruct mr as [m|]; [|discriminate].
    now apply pick_first_present_trimmed in Hu.
  - apply or_else_trimmed. intros u Hu. destruct mr as [m|]; [|discriminate].
    destruct (in_index "CID" m); [|discriminate].
    destruct (getitem m "CID") as [x|]; [|discriminate].
    now apply safe_str_trimmed in Hu.
  - apply or_else_trimmed. intros u Hu. destruct sr as [r|]; [|discriminate].
    now apply pick_first_present_trimmed in Hu.
  - apply or_else_trimmed. intros u Hu. destruct mr as [m|]; [|discriminate].
    now apply pick_first_present_trimmed in Hu.
Qed.

Lemma update_blank_trimmed (c : db) (col : odor_col) (value uid : string) :
  trimmed value ->
  Forall odor_trimmed (odors c) ->
  Forall odor_trimmed (odors (update_blank c col value uid)).
Proof.
  intros Hv H. unfold update_blank. simpl. apply Forall_map.
  eapply Forall_impl; [exact H|]. intros o [Ho Hs]. simpl.
  destruct (_ && _); [|now split].
  destruct o as [k sf tf n ci ca sm]. split.
  - intros c' v Hc'.
    destruct col, c'; simpl in Hc';
      first [ injection Hc' as <-; exact Hv
            | exact (Ho Cname v Hc') | exact (Ho Ccid v Hc')
            | exact (Ho Ccas v Hc') | exact (Ho Csmiles v Hc') ].
  - intros v Hv'. apply Hs. now destruct col.
Qed.

Lemma upsert_odor_trimmed (c : db) (ident : Identity) :
  (forall col v, match col with
                 | Cname => name ident
                 | Ccid => cid ident
                 | Ccas => cas ident
                 | Csmiles => smiles ident
                 end = Some v -> trimmed v) ->
  trimmed (stimulus ident) ->
  Forall odor_trimmed (odors c) ->
  Forall odor_trimmed (odors (_upsert_odor c ident)).
Proof.
  intros Hi Hst H. unfold _upsert_odor.
  assert (Hrow : Forall odor_trimmed
                   (odors (insert_or_ignore c
                             (mkOdor (unified_odor_id ident) (Some (slug ident))
                                     (Some (stimulus ident)) (name ident) (cid ident)
                                     (cas ident) (smiles ident))))).
  { unfold insert_or_ignore. destruct (existsb _ _); simpl; [exact H|].
    apply Forall_app. split; [exact H|]. constructor; [|constructor].
    split.
    - intros col v Hv. apply (Hi col v). now destruct col.
    - simpl. now intros v [= <-]. }
  revert Hrow. generalize (insert_or_ignore c
    (mkOdor (unified_odor_id ident) (Some (slug ident)) (Some (stimulus ident))
            (name ident) (cid ident) (cas ident) (smiles ident))).
  intros d Hd. simpl.
  repeat match goal with
         | |- context [match ?x with Some _ => _ | None => _ end] =>
             let E := fresh "E" in destruct x eqn:E
         end;
    repeat (apply update_blank_trimmed;
            [first [ now apply (Hi Cname) | now apply (Hi Ccid)
                   | now apply (Hi Ccas) | now apply (Hi Csmiles) ] |]);
    exact Hd.
Qed.

Lemma fact_values_text (v : pyobj) (t : string) (vn : option float) :
  fact_values v = Some (Some t, vn) ->
  trimmed t /\ forall x, float_of_str t = Some x -> is_nan x = true.
Proof.
  destruct v as [| |b|z Hz|f|s]; simpl; try discriminate.
  - destruct (is_nan f); discriminate.
  - destruct (nonempty (strip s)) as [text|] eqn:En; [|discriminate].
    assert (Ht : trimmed text) by (apply (safe_str_trimmed (PyStr s)); exact En).
    destruct (float_of_str text) as [num|] eqn:Ef.
    + destruct (is_nan num) eqn:E; simpl; intros [= <- <-].
      split; [exact Ht|]. intros x Hx. congruence.
    + intros [= <- <-]. split; [exact Ht|]. intros x Hx. congruence.
Qed.

Lemma insert_fact_text (c : db) (ident : Identity) (sl fn col : string) (v : pyobj) :
  Forall text_fact (odor_facts c) ->
  Forall text_fact (odor_facts (_insert_fact c ident sl fn col v)).
Proof.
  intros H. rewrite insert_fact_facts. apply Forall_app. split; [exact H|].
  apply fact_rows_Forall. intros vt vn Hv t Ht. simpl in Ht. subst vt.
  exact (fact_values_text v t vn Hv).
Qed.

End TrimFacts.

(** X5: in a database reached by ingestion from the empty one, the name, CID,
    CAS, SMILES and first stimulus label of every row of [odors] that has
    them, and the text of every fact that has one, are not empty and have no
    whitespace around them; and the text of a fact is not the text of a
    number other than NaN. *)
Theorem stored_texts_are_trimmed (c : db) :
  ingested c ->
  Forall odor_trimmed (odors c) /\ Forall text_fact (odor_facts c).
Proof.
  intros Hc.
  apply (ingested_inv (fun d => Forall odor_trimmed (odors d) /\ Forall text_fact (odor_facts d)));
    [| | split; constructor | exact Hc].
  - intros d sl cell label sr mr Hl [Ho Hf]. split.
    + apply upsert_odor_trimmed; [| |exact Ho].
      * intros col v. apply (identity_fields_trimmed sl cell label sr mr col v Hl).
      * simpl. now apply (safe_str_trimmed cell).
    + now rewrite upsert_odor_facts.
  - intros d ident sl fn col v [Ho Hf]. split.
    + now rewrite insert_fact_odors.
    + now apply insert_fact_text.
Qed.

Section ResolveFacts.

Lemma safe_str_cases (v : pyobj) : _safe_str v = None \/ _safe_str v = Some (strip (str v)).
Proof.
  assert (H : forall s, nonempty (strip s) = None \/ nonempty (strip s) = Some (strip s)).
  { intros s. destruct (strip s); simpl; auto. }
  destruct v as [| |b|z Hz|f|s]; simpl; auto; try apply H.
  destruct (is_nan f); [now left | apply H].
Qed.

Lemma getitem_in_index (row : Series) (col : string) (v : pyobj) :
  getitem row col = Some v -> in_index col row = true.
Proof.
  intros H. apply bool_decide_eq_true. unfold index.
  induction row as [|[c x] row IH]; simpl in *; [discriminate|].
  destruct (String.eqb_spec c col) as [->|Hne]; [apply list_elem_of_here|].
  apply list_elem_of_further, IH, H.
Qed.

Lemma first_str_match_cell (df : DataFrame) (col key : string) (m : Series) :
  first_str_match df col key = Some m ->
  exists v, getitem m col = Some v /\ str v = key.
Proof.
  unfold first_str_match. intros H. apply find_some in H as [_ H].
  destruct (getitem m col) as [v|]; [|discriminate]. exists v.
  split; [reflexivity | now apply String.eqb_eq].
Qed.

End ResolveFacts.

(** X7: the CID of a resolved identity is the CID of the stimulus row: the
    first of the CID columns of the matched stimulus row that has a value, and
    none when no stimulus row matches.  The molecule row is looked up by that
    CID, so the CID it holds, which [_identity_from_rows] reads first, is the
    same text. *)
Theorem molecule_table_never_decides_the_cid
    (sl : string) (sdf mdf : option DataFrame) (label : string) :
  cid (resolve sl sdf mdf label)
  = match stimulus_row_of sdf label with
    | Some stim_row => _pick_first_present stim_row CID_CANDIDATES_STIM
    | None => None
    end.
Proof.
  unfold resolve, _identity_from_rows, molecule_row_of. cbv zeta. cbn [cid].
  destruct (stimulus_row_of sdf label) as [r|]; [|now destruct mdf].
  destruct (_pick_first_present r CID_CANDIDATES_STIM) as [c|] eqn:Ec;
    [|destruct mdf; unfold or_else; simpl; exact Ec].
  unfold _get_molecule_row. destruct mdf as [df|]; [|unfold or_else; exact Ec].
  destruct (first_str_match df "CID" c) as [m|] eqn:Em; [|unfold or_else; exact Ec].
  destruct (first_str_match_cell _ _ _ _ Em) as (v & Hv & Hstr).
  rewrite (getitem_in_index _ _ _ Hv), Hv.
  destruct (safe_str_cases v) as [H|H]; rewrite H; unfold or_else; [exact Ec|].
  rewrite Hstr. f_equal. now apply pick_first_present_trimmed in Ec as [Ec _].
Qed.

Section RowFacts.

Lemma row_facts_columns (ident : Identity) (sl fn : string) (r : Series) (skip : list string) :
  Forall (fun f =>
            f_unified_odor_id f = unified_odor_id ident /\ f_slug f = sl /\ f_file f = fn
            /\ f_column f ∈ index r
            /\ (lower (strip (f_column f)) ∉ map (fun c => lower (strip c)) skip)
            /\ exists v, getitem r (f_column f) = Some v
                         /\ fact_values v = Some (f_value_text f, f_value_num f))
         (row_facts ident sl fn (Some r) skip).
Proof.
  unfold row_facts. apply Forall_forall. intros f Hf.
  apply list_elem_of_In, in_flat_map in Hf as (col & Hcol & Hf).
  destruct (bool_decide _) eqn:Eskip; [destruct Hf|].
  apply bool_decide_eq_false in Eskip.
  destruct (getitem r col) as [v|] eqn:Ev; [|destruct Hf].
  unfold fact_rows in Hf. destruct (fact_values v) as [[vt vn]|] eqn:Efv; [|destruct Hf].
  destruct Hf as [<-|[]]. simpl. repeat split; trivial.
  - now apply list_elem_of_In.
  - now exists v.
Qed.

End RowFacts.

(** X8: [_insert_row_as_facts] on a row leaves [odors] as it is and appends
    facts only: each carries the key of the identity, the slug and the file
    name given, and a column of the row whose name, trimmed and in lower case,
    is not one of the names to skip (trimmed and in lower case), with the
    value [_insert_fact] stores for the cell of that column. *)
Theorem insert_row_as_facts_skips_columns
    (c : db) (ident : Identity) (sl fn : string) (r : Series) (skip : list string) :
  odors (_insert_row_as_facts c ident sl fn (Some r) skip) = odors c
  /\ exists new,
       odor_facts (_insert_row_as_facts c ident sl fn (Some r) skip) = odor_facts c ++ new
       /\ Forall (fun f =>
                    f_unified_odor_id f = unified_odor_id ident /\ f_slug f = sl /\ f_file f = fn
                    /\ f_column f ∈ index r
                    /\ (lower (strip (f_column f)) ∉ map (fun c => lower (strip c)) skip)
                    /\ exists v, getitem r (f_column f) = Some v
                                 /\ fact_values v = Some (f_value_text f, f_value_num f))
                 new.
Proof.
  split; [apply insert_row_as_facts_odors|].
  exists (row_facts ident sl fn (Some r) skip).
  split; [apply insert_row_as_facts_facts | apply row_facts_columns].
Qed.

Lemma ingest_files_unusable (sl : string) (sdf mdf : option DataFrame)
    (entries : directory) (st : run) :
  Forall (fun e => usable_behavior_file e = false) entries ->
  fold_left (ingest_file sl sdf mdf) entries st = st.
Proof.
  induction 1 as [|e entries He _ IH]; simpl; [reflexivity|].
  rewrite <- IH at 2. f_equal. clear IH.
  unfold ingest_file. unfold usable_behavior_file in He.
  destruct (is_behavior_csv (fst e)); [|reflexivity]. simpl in *.
  destruct (snd e) as [df|]; [|reflexivity].
  destruct (empty df); [reflexivity|].
  destruct (_find_stimulus_column df); [discriminate He | reflexivity].
Qed.

(** X9: a dataset folder without a behavior file that can be read, is not
    empty and has a stimulus column is ingested without a change to the
    database, whatever its stimulus and molecule tables hold. *)
Theorem dataset_without_usable_behavior_file_writes_nothing
    (c : db) (root : option root_directory) (sl : string) (dir : directory) :
  slug_directory root sl = Some dir ->
  Forall (fun e => usable_behavior_file e = false) dir ->
  ingest_dataset c root sl = c.
Proof.
  intros Hdir Hno. unfold ingest_dataset. rewrite Hdir.
  destruct (_ <? _)%nat; [reflexivity|]. unfold initialize_database, ingest_run.
  rewrite ingest_files_unusable; [reflexivity|].
  unfold sorted_entries. now rewrite sort_by_perm.
Qed.

(* ===================================================================== *)
(** * Ingesting again *)
(* ===================================================================== *)

Section Saturation.

Lemma get_set_col_same (col : odor_col) (v : option string) (o : odor) :
  get_col col (set_col col v o) = v.
Proof. destruct col, o; reflexivity. Qed.

Lemma get_set_col_other (col col' : odor_col) (v : option string) (o : odor) :
  col' <> col -> get_col col' (set_col col v o) = get_col col' o.
Proof. destruct col, col', o; simpl; congruence. Qed.

Lemma odor_col_eq_dec (col col' : odor_col) : {col = col'} + {col <> col'}.
Proof. decide equality. Qed.

Lemma set_col_key (col : odor_col) (v : option string) (o : odor) :
  o_unified_odor_id (set_col col v o) = o_unified_odor_id o.
Proof. now destruct col. Qed.

(** An update keeps a column filled, whatever it writes. *)
Lemma update_blank_filled (d : db) (col col' : odor_col) (value uid : string) (i : Identity) :
  Forall (col_filled col' i) (odors d) ->
  Forall (col_filled col' i) (odors (update_blank d col value uid)).
Proof.
  intros H. unfold update_blank. simpl. apply Forall_map.
  eapply Forall_impl; [exact H|]. intros o Ho. simpl.
  destruct (String.eqb _ _ && sql_blank (get_col col o)) eqn:E; [|exact Ho].
  apply andb_prop in E as [_ Eb].
  intros Hk v Hv. rewrite set_col_key in Hk.
  destruct (odor_col_eq_dec col' col) as [->|Hne].
  - rewrite (Ho Hk v Hv) in Eb. discriminate Eb.
  - rewrite (get_set_col_other _ _ _ _ Hne). exact (Ho Hk v Hv).
Qed.

(** The update of a column with the value of the identity fills it. *)
Lemma update_blank_fills (d : db) (col : odor_col) (value : string) (i : Identity) :
  ident_field col i = Some value -> sql_blank (Some value) = false ->
  Forall (col_filled col i) (odors (update_blank d col value (unified_odor_id i))).
Proof.
  intros Hv Hnb. unfold update_blank. simpl. apply Forall_map, Forall_forall.
  intros o _. simpl. intros Hk v _. revert Hk.
  destruct (String.eqb_spec (o_unified_odor_id o) (unified_odor_id i)) as [Heq|Hne]; simpl.
  - destruct (sql_blank (get_col col o)) eqn:Eb; [|intros _; exact Eb].
    intros _. now rewrite get_set_col_same.
  - intros Hk. contradiction.
Qed.

Lemma col_filled_None (col : odor_col) (i : Identity) (rows : list odor) :
  ident_field col i = None -> Forall (col_filled col i) rows.
Proof. intros H. apply Forall_forall. intros o _ _ v Hv. congruence. Qed.

Lemma update_blank_noop (d : db) (col : odor_col) (value uid : string) :
  Forall (fun o => o_unified_odor_id o = uid -> sql_blank (get_col col o) = false) (odors d) ->
  odors (update_blank d col value uid) = odors d.
Proof.
  intros H. unfold update_blank. simpl.
  induction H as [|o rows Ho _ IH]; simpl; [reflexivity|]. rewrite IH. f_equal.
  destruct (String.eqb_spec (o_unified_odor_id o) uid) as [Heq|Hne]; [|reflexivity].
  now rewrite (Ho Heq).
Qed.

Lemma insert_or_ignore_noop (d : db) (row : odor) :
  o_unified_odor_id row ∈ odor_keys d -> insert_or_ignore d row = d.
Proof.
  intros H. unfold insert_or_ignore. rewrite existsb_key.
  now rewrite bool_decide_eq_true_2.
Qed.

Lemma saturated_odors (d d' : db) (i : Identity) :
  odors d' = odors d -> saturated d i -> saturated d' i.
Proof. unfold saturated, odor_keys. now intros ->. Qed.

(** The upsert of an identity leaves a saturated table as it is. *)
Lemma upsert_saturated (d : db) (i : Identity) :
  saturated d i -> odors (_upsert_odor d i) = odors d.
Proof.
  intros [Hk Hf]. unfold _upsert_odor. rewrite insert_or_ignore_noop by exact Hk.
  assert (Hstep : forall col v d',
             odors d' = odors d -> ident_field col i = Some v ->
             odors (update_blank d' col v (unified_odor_id i)) = odors d).
  { intros col v d' Hd' Hv. rewrite update_blank_noop; [exact Hd'|].
    rewrite Hd'. eapply Forall_impl; [exact (Hf col)|].
    intros o Ho Hkey. exact (Ho Hkey v Hv). }
  simpl.
  repeat match goal with
         | |- context [match ?x with Some _ => _ | None => _ end] =>
             let E := fresh "E" in destruct x eqn:E
         end;
    repeat (apply Hstep; [|first [exact E | exact E0 | exact E1 | exact E2]]);
    reflexivity.
Qed.

Lemma insert_or_ignore_filled (d : db) (row : odor) (col : odor_col) (i : Identity) :
  (o_unified_odor_id row ∉ odor_keys d -> col_filled col i row) ->
  Forall (col_filled col i) (odors d) ->
  Forall (col_filled col i) (odors (insert_or_ignore d row)).
Proof.
  intros Hrow H. unfold insert_or_ignore. rewrite existsb_key.
  destruct (bool_decide _) eqn:E; [exact H|]. apply bool_decide_eq_false in E. simpl.
  apply Forall_app. split; [exact H|]. constructor; [now apply Hrow | constructor].
Qed.

Lemma upsert_odor_filled (d : db) (i j : Identity) (col : odor_col) :
  (unified_odor_id j ∉ odor_keys d ->
   col_filled col i (mkOdor (unified_odor_id j) (Some (slug j)) (Some (stimulus j))
                            (name j) (cid j) (cas j) (smiles j))) ->
  Forall (col_filled col i) (odors d) ->
  Forall (col_filled col i) (odors (_upsert_odor d j)).
Proof.
  intros Hrow H. unfold _upsert_odor.
  apply (fold_left_invariant (fun d' => Forall (col_filled col i) (odors d'))).
  - intros d' [col' v] Hd'. simpl. destruct v; [now apply update_blank_filled | exact Hd'].
  - now apply insert_or_ignore_filled.
Qed.

(** An upsert of any identity keeps a table saturated for an identity. *)
Lemma upsert_keeps_saturated (d : db) (i j : Identity) :
  saturated d i -> saturated (_upsert_odor d j) i.
Proof.
  intros [Hk Hf]. split; [now apply upsert_odor_keys_incl|].
  intros col. apply upsert_odor_filled; [|exact (Hf col)].
  intros Hj Hkey. simpl in Hkey. rewrite Hkey in Hj. contradiction.
Qed.

(** The upsert of an identity without blank values saturates the table for it. *)
Lemma upsert_saturates (d : db) (i : Identity) :
  (forall col v, ident_field col i = Some v -> sql_blank (Some v) = false) ->
  saturated (_upsert_odor d i) i.
Proof.
  intros Hi. split; [apply upsert_odor_key_in|].
  intros col. destruct (ident_field col i) as [v|] eqn:Ev; [|now apply col_filled_None].
  pose proof (Hi col v Ev) as Hnb.
  unfold _upsert_odor.
  generalize (insert_or_ignore d
    (mkOdor (unified_odor_id i) (Some (slug i)) (Some (stimulus i))
            (name i) (cid i) (cas i) (smiles i))).
  intros d'. destruct col; simpl in Ev; simpl; rewrite ?Ev;
    repeat match goal with
           | |- context [match ?x with Some _ => _ | None => _ end] =>
               let E := fresh "E" in destruct x eqn:E
           end;
    repeat first [ now apply update_blank_fills | apply update_blank_filled ].
Qed.

End Saturation.

Section Replay.

Lemma fold_left_back {A B : Type} (Fut : A -> Prop) (f : A -> B -> A) (l : list B) (a : A) :
  (forall a x, Fut (f a x) -> Fut a) -> Fut (fold_left f l a) -> Fut a.
Proof.
  intros Hb. revert a. induction l as [|x l IH]; intros a H; simpl in H; [exact H|].
  apply (Hb a x), IH, H.
Qed.

Lemma fold_left_replay {A B : Type} (R : A -> A -> Prop) (Fut : A -> Prop) (f : A -> B -> A) :
  (forall a x, Fut (f a x) -> Fut a) ->
  (forall a2 a1 x, R a2 a1 -> Fut (f a1 x) -> R (f a2 x) (f a1 x)) ->
  forall l a2 a1, R a2 a1 -> Fut (fold_left f l a1) -> R (fold_left f l a2) (fold_left f l a1).
Proof.
  intros Hb Hstep l. induction l as [|x l IH]; intros a2 a1 HR HF; simpl in *; [exact HR|].
  apply IH; [|exact HF]. apply Hstep; [exact HR|].
  exact (fold_left_back Fut f l _ Hb HF).
Qed.

Variable d0 : db.

Lemma saturated_upsert_step (i : Identity) (c : db) (sl : string) (cell : pyobj)
    (label : string) (sr mr : option Series) :
  _safe_str cell = Some label ->
  saturated c i -> saturated (_upsert_odor c (_identity_from_rows sl label sr mr)) i.
Proof. intros _. apply upsert_keeps_saturated. Qed.

Lemma saturated_fact_step (i : Identity) (c : db) (ident : Identity) (sl fn col : string)
    (v : pyobj) :
  saturated c i -> saturated (_insert_fact c ident sl fn col v) i.
Proof. apply saturated_odors, insert_fact_odors. Qed.

Lemma comes_after_row (sl : string) (sdf mdf : option DataFrame) (fn stim_col : string)
    (cols : list string) (st : run) (row : Series) :
  comes_after d0 (conn (ingest_row sl sdf mdf fn stim_col cols st row)) ->
  comes_after d0 (conn st).
Proof.
  intros H i Hi. apply H.
  apply (ingest_row_inv (fun d => saturated d i)); trivial.
  - apply saturated_upsert_step.
  - apply saturated_fact_step.
Qed.

Lemma comes_after_file (sl : string) (sdf mdf : option DataFrame) (st : run)
    (e : string * csv_file) :
  comes_after d0 (conn (ingest_file sl sdf mdf st e)) -> comes_after d0 (conn st).
Proof.
  intros H i Hi. apply H.
  apply (ingest_file_inv (fun d => saturated d i)); trivial.
  - apply saturated_upsert_step.
  - apply saturated_fact_step.
Qed.

Lemma comes_after_dataset (d : db) (root : option root_directory) (sl : string) :
  comes_after d0 (ingest_dataset d root sl) -> comes_after d0 d.
Proof.
  intros H i Hi. apply H.
  apply (ingest_dataset_inv (fun d => saturated d i)); trivial.
  - apply saturated_upsert_step.
  - apply saturated_fact_step.
Qed.

Lemma measurement_odors (ident : Identity) (sl fn stim_col : string) (row : Series)
    (cols : list string) (st : run) :
  let st' :=
    fold_left
      (fun st col =>
         if String.eqb col stim_col then st
         else match getitem row col with
              | Some v =>
                  mkRun (_insert_fact (conn st) ident sl fn col v)
                        (identity_cache st) (odors_seen st) (S (facts_seen st))
              | None => st
              end)
      cols st in
  identity_cache st' = identity_cache st /\ odors (conn st') = odors (conn st).
Proof.
  simpl. apply (fold_left_invariant
                  (fun s => identity_cache s = identity_cache st
                            /\ odors (conn s) = odors (conn st))); [|now split].
  intros a col [H1 H2]. destruct (String.eqb col stim_col); [now split|].
  destruct (getitem row col); [|now split].
  simpl. now rewrite insert_fact_odors.
Qed.

Lemma ingest_row_replay (sl : string) (sdf mdf : option DataFrame) (fn stim_col : string)
    (cols : list string) (st2 st1 : run) (row : Series) :
  replays d0 st2 st1 ->
  comes_after d0 (conn (ingest_row sl sdf mdf fn stim_col cols st1 row)) ->
  replays d0 (ingest_row sl sdf mdf fn stim_col cols st2 row)
             (ingest_row sl sdf mdf fn stim_col cols st1 row).
Proof.
  intros [Hc Ho] Hlater. unfold ingest_row in *.
  destruct (getitem row stim_col) as [cell|]; [|now split].
  destruct (_safe_str cell) as [label|] eqn:Hl; [|now split].
  rewrite Hc. destruct (lookup_entry (identity_cache st1) label) as [ident|].
  - destruct (measurement_odors ident sl fn stim_col row cols st2) as [A B].
    destruct (measurement_odors ident sl fn stim_col row cols st1) as [A' B'].
    split; congruence.
  - set (ident := _identity_from_rows sl label (stimulus_row_of sdf label)
                    (molecule_row_of sdf mdf label)) in *.
    match goal with
    | |- replays _ (fold_left _ _ ?s2) (fold_left _ _ ?s1) => set (s2' := s2); set (s1' := s1)
    end.
    match type of Hlater with
    | comes_after _ (conn (fold_left _ _ ?s1)) => change s1 with s1' in Hlater
    end.
    destruct (measurement_odors ident sl fn stim_col row cols s2') as [A B].
    destruct (measurement_odors ident sl fn stim_col row cols s1') as [A' B'].
    assert (Hsat : saturated (conn st2) ident).
    { apply (saturated_odors d0); [exact Ho|]. apply Hlater.
      eapply saturated_odors; [exact B'|]. unfold s1'. simpl.
      apply (saturated_odors (_upsert_odor (conn st1) ident));
        [now rewrite !insert_row_as_facts_odors|].
      apply upsert_saturates. intros col v.
      apply (identity_fields_not_blank sl cell label _ _ col v Hl). }
    split.
    + rewrite A, A'. reflexivity.
    + rewrite B. unfold s2'. simpl.
      rewrite !insert_row_as_facts_odors, (upsert_saturated _ _ Hsat). exact Ho.
Qed.

Lemma ingest_file_replay (sl : string) (sdf mdf : option DataFrame) (st2 st1 : run)
    (e : string * csv_file) :
  replays d0 st2 st1 ->
  comes_after d0 (conn (ingest_file sl sdf mdf st1 e)) ->
  replays d0 (ingest_file sl sdf mdf st2 e) (ingest_file sl sdf mdf st1 e).
Proof.
  intros H Hlater. unfold ingest_file in *.
  destruct (negb _); [exact H|].
  destruct (snd e) as [df|]; [|exact H].
  destruct (empty df); [exact H|].
  destruct (_find_stimulus_column df) as [stim_col|]; [|exact H].
  apply (fold_left_replay (replays d0) (fun st => comes_after d0 (conn st))); trivial.
  - intros a row. apply comes_after_row.
  - intros a2 a1 row. apply ingest_row_replay.
Qed.

Lemma ingest_dataset_replay (d2 d1 : db) (root : option root_directory) (sl : string) :
  odors d2 = odors d0 ->
  comes_after d0 (ingest_dataset d1 root sl) ->
  odors (ingest_dataset d2 root sl) = odors d0.
Proof.
  intros Ho Hlater. unfold ingest_dataset in *.
  destruct (slug_directory root sl) as [dir|]; [|exact Ho].
  destruct (_ <? _)%nat; [exact Ho|]. unfold initialize_database, ingest_run in *.
  apply (fold_left_replay (replays d0) (fun st => comes_after d0 (conn st))
                          (ingest_file sl (_load_stimuli dir) (_load_molecules dir)))
    with (a1 := mkRun d1 [] 0%nat 0%nat); trivial.
  - intros a e. apply comes_after_file.
  - intros a2 a1 e. apply ingest_file_replay.
  - now split.
Qed.

Lemma ingest_datasets_replay (root : option root_directory) (slugs : list string) (d2 d1 : db) :
  odors d2 = odors d0 ->
  comes_after d0 (fold_left (fun conn slug => ingest_dataset conn root slug) slugs d1) ->
  odors (fold_left (fun conn slug => ingest_dataset conn root slug) slugs d2) = odors d0.
Proof.
  intros Ho Hlater.
  apply (fold_left_replay (fun d2 _ => odors d2 = odors d0) (comes_after d0)
                          (fun conn slug => ingest_dataset conn root slug))
    with (a1 := d1); trivial.
  - intros a sl. apply comes_after_dataset.
  - intros a2 a1 sl. apply ingest_dataset_replay.
Qed.

End Replay.

(** X6: ingesting a root, or a dataset, a second time right after the first
    leaves the table [odors] as the first ingestion left it. *)
Theorem reingestion_leaves_odors_unchanged (c : db) (root : option root_directory) :
  odors (ingest_all (ingest_all c root) root) = odors (ingest_all c root)
  /\ forall sl,
       odors (ingest_dataset (ingest_dataset c root sl) root sl)
       = odors (ingest_dataset c root sl).
Proof.
  split.
  - destruct root as [entries|]; [|reflexivity].
    unfold ingest_all at 1.
    apply (ingest_datasets_replay (ingest_all c (Some entries)) (Some entries) _ _ c);
      [reflexivity|].
    intros i Hi. exact Hi.
  - intros sl.
    apply (ingest_dataset_replay (ingest_dataset c root sl) _ c); [reflexivity|].
    intros i Hi. exact Hi.
Qed.

(* ===================================================================== *)
(** * Queries *)
(* ===================================================================== *)

Section OrderFacts.

Lemma string_compare_refl (s : string) : String.compare s s = Eq.
Proof.
  pose proof (String.compare_antisym s s) as H.
  destruct (String.compare s s); [reflexivity | discriminate H | discriminate H].
Qed.

Lemma string_compare_Gt (a b : string) : String.compare a b = Gt -> String.compare b a = Lt.
Proof. intros H. rewrite String.compare_antisym, H. reflexivity. Qed.

Lemma string_compare_Lt_trans (a b c : string) :
  String.compare a b = Lt -> String.compare b c = Lt -> String.compare a c = Lt.
Proof.
  intros H1 H2.
  assert (Hle : String.leb a c = true).
  { apply (string_leb_trans a b c); unfold String.leb; [now rewrite H1 | now rewrite H2]. }
  unfold String.leb in Hle. destruct (String.compare a c) eqn:E; [|reflexivity|discriminate].
  apply String.compare_eq_iff in E. subst c.
  rewrite String.compare_antisym, H1 in H2. discriminate H2.
Qed.

Lemma string3_leb_total (a b : string * string * string) :
  Query.string3_leb a b = true \/ Query.string3_leb b a = true.
Proof.
  destruct a as [[a1 a2] a3], b as [[b1 b2] b3]. unfold Query.string3_leb. simpl.
  destruct (String.compare a1 b1) eqn:E1; [|now left|].
  - apply String.compare_eq_iff in E1. subst b1. rewrite string_compare_refl.
    destruct (String.compare a2 b2) eqn:E2; [|now left|].
    + apply String.compare_eq_iff in E2. subst b2. rewrite string_compare_refl.
      apply String.leb_total.
    + right. now rewrite (string_compare_Gt _ _ E2).
  - right. now rewrite (string_compare_Gt _ _ E1).
Qed.

Lemma string3_leb_trans (a b c : string * string * string) :
  Query.string3_leb a b = true -> Query.string3_leb b c = true -> Query.string3_leb a c = true.
Proof.
  destruct a as [[a1 a2] a3], b as [[b1 b2] b3], c as [[c1 c2] c3].
  unfold Query.string3_leb. simpl.
  destruct (String.compare a1 b1) eqn:E1; [| |discriminate];
    destruct (String.compare b1 c1) eqn:F1; try discriminate.
  - apply String.compare_eq_iff in E1, F1. subst b1 c1. rewrite string_compare_refl.
    destruct (String.compare a2 b2) eqn:E2; [| |discriminate];
      destruct (String.compare b2 c2) eqn:F2; try discriminate.
    + apply String.compare_eq_iff in E2, F2. subst b2 c2. rewrite string_compare_refl.
      apply string_leb_trans.
    + apply String.compare_eq_iff in E2. subst b2. now rewrite F2.
    + apply String.compare_eq_iff in F2. subst c2. now rewrite E2.
    + now rewrite (string_compare_Lt_trans _ _ _ E2 F2).
  - apply String.compare_eq_iff in E1. subst b1. now rewrite F1.
  - apply String.compare_eq_iff in F1. subst c1. now rewrite E1.
  - now rewrite (string_compare_Lt_trans _ _ _ E1 F1).
Qed.

Lemma string3_leb_lex (a b : string * string * string) :
  Query.string3_leb a b = true <-> lex3_le a b.
Proof.
  destruct a as [[a1 a2] a3], b as [[b1 b2] b3].
  unfold Query.string3_leb, lex3_le, String.ltb. simpl.
  destruct (String.compare a1 b1) eqn:E1.
  - apply String.compare_eq_iff in E1. subst b1.
    destruct (String.compare a2 b2) eqn:E2.
    + apply String.compare_eq_iff in E2. subst b2. split.
      * intros H. right. split; [reflexivity|]. right. now split.
      * intros [H | [_ [H | [_ H]]]]; [discriminate H | discriminate H | exact H].
    + split; [intros _; right; split; [reflexivity | now left] | reflexivity].
    + split; [discriminate|].
      intros [H | [_ [H | [H _]]]]; [discriminate H | discriminate H |].
      subst b2. now rewrite string_compare_refl in E2.
  - split; [now left | reflexivity].
  - split; [discriminate|].
    intros [H | [H _]]; [discriminate H|]. subst b1. now rewrite string_compare_refl in E1.
Qed.

Lemma order_rows_perm (rows : list odor) : Query.order_rows rows ≡ₚ rows.
Proof. apply sort_by_perm. Qed.

Lemma order_rows_ordered (rows : list odor) : ordered (Query.order_rows rows).
Proof.
  apply sort_by_sorted.
  - intros a b. apply String.leb_total.
  - intros a b c. apply string_leb_trans.
Qed.

Lemma StronglySorted_take {A : Type} (R : A -> A -> Prop) (n : nat) (l : list A) :
  StronglySorted R l -> StronglySorted R (take n l).
Proof.
  intros H. rewrite <- (take_drop n l) in H. now apply StronglySorted_app_1_l in H.
Qed.

Lemma filter_sublist {A : Type} (p : A -> bool) (l : list A) : List.filter p l `sublist_of` l.
Proof.
  induction l as [|x l IH]; simpl; [constructor|].
  destruct (p x); [now apply sublist_skip | now apply sublist_cons].
Qed.

Lemma apply_limit_sublist {A : Type} (limit : option Z) (rows : list A) :
  Query.apply_limit limit rows `sublist_of` rows.
Proof.
  unfold Query.apply_limit. destruct limit as [n|]; [|reflexivity].
  destruct (n <? 0); [reflexivity | apply sublist_take].
Qed.

Lemma apply_limit_ordered (limit : option Z) (rows : list odor) :
  ordered rows -> ordered (Query.apply_limit limit rows).
Proof.
  intros H. unfold Query.apply_limit. destruct limit as [n|]; [|exact H].
  destruct (n <? 0); [exact H | now apply StronglySorted_take].
Qed.

End OrderFacts.

Lemma apply_limit_listing (limit : option Z) (found : list odor) :
  listing limit found (Query.apply_limit limit (Query.order_rows found)).
Proof.
  unfold listing, Query.apply_limit.
  assert (Hall : Query.order_rows found ++ [] ≡ₚ found
                 /\ ordered (Query.order_rows found ++ [])).
  { rewrite app_nil_r. split; [apply order_rows_perm | apply order_rows_ordered]. }
  destruct limit as [n|]; [|exists []; tauto].
  destruct (n <? 0); [exists []; tauto|].
  exists (drop (Z.to_nat n) (Query.order_rows found)). rewrite take_drop.
  split; [apply order_rows_perm|]. split; [apply order_rows_ordered|].
  rewrite length_take. f_equal. apply Permutation_length, order_rows_perm.
Qed.


Section SearchFacts.

Lemma wildcard_free_chars (t : string) :
  wildcard_free t = true -> literal (list_ascii_of_string t).
Proof.
  induction t as [|c t IH]; simpl; [constructor|].
  intros [[H1 H2]%andb_prop H3]%andb_prop. constructor; [|now apply IH].
  apply negb_true_iff, Ascii.eqb_neq in H1, H2. now split.
Qed.

(** LIKE with a wildcard-free text between two [%] is the substring test,
    ASCII letters without regard to case. *)
Lemma like_text_contains (s t : string) :
  wildcard_free t = true ->
  like_text s ("%" +:+ t +:+ "%") = true <-> contains_ci s t.
Proof.
  intros Ht. unfold like_text, contains_ci, sql_lower.
  rewrite !list_of_append. simpl.
  rewrite (like_contains_chars _ _ (wildcard_free_chars t Ht)). split.
  - intros (pre & mid & post & Hs & Hm).
    exists (string_of_list_ascii (map sql_lower_char pre)),
           (string_of_list_ascii (map sql_lower_char post)).
    rewrite <- (string_of_list_ascii_of_string (map_chars sql_lower_char s)).
    rewrite <- (string_of_list_ascii_of_string (map_chars sql_lower_char t)).
    rewrite <- !string_of_app. f_equal.
    now rewrite !list_of_map_chars, Hs, !map_app, Hm.
  - intros (pre & post & Hs).
    apply (f_equal list_ascii_of_string) in Hs.
    rewrite !list_of_append, !list_of_map_chars in Hs.
    apply map_eq_app in Hs as (l1 & l2 & Hl & H1 & H2).
    apply map_eq_app in H2 as (m & p & Hl2 & Hm & Hp).
    exists l1, m, p. split; [now rewrite Hl, Hl2 | exact Hm].
Qed.

(** The same of LIKE, for a text without NUL, on the text up to its first NUL. *)
Lemma like_contains (s t : string) :
  wildcard_free t = true -> nul_free t = true ->
  sql_like s ("%" +:+ t +:+ "%") = true <-> contains_ci (c_str s) t.
Proof.
  intros Hw Hn. unfold sql_like.
  rewrite (c_str_nul_free _ (nul_free_pattern t Hn)). now apply like_text_contains.
Qed.

Lemma like_any (s : string) : sql_like s "%%" = true.
Proof.
  unfold sql_like, like_text. simpl list_ascii_of_string at 1.
  apply like_percent_iff. exists (list_ascii_of_string (c_str s)), [].
  split; [now rewrite app_nil_r|].
  apply like_percent_iff. now exists [], [].
Qed.

Lemma like_field (x : option string) (t : string) :
  t <> "" -> wildcard_free t = true -> nul_free t = true ->
  sql_like (coalesce x "") ("%" +:+ t +:+ "%") = true <-> field_contains x t.
Proof.
  intros Hne Hw Hn. rewrite (like_contains _ _ Hw Hn). unfold field_contains.
  destruct x as [v|]; simpl.
  - split; [intros H; now exists v | now intros (v' & [= <-] & H)].
  - split; [intros H; now apply wildcard_free_nonempty_no_match in H|].
    now intros (v' & [=] & _).
Qed.

End SearchFacts.



Section FactQueryFacts.

Lemma StronglySorted_impl {A : Type} (R R' : A -> A -> Prop) (l : list A) :
  (forall x y, R x y -> R' x y) -> StronglySorted R l -> StronglySorted R' l.
Proof.
  intros HR. induction 1 as [|x l _ IH Hx]; constructor; [exact IH|].
  eapply Forall_impl; [exact Hx | apply HR].
Qed.

Lemma facts_of_iff (c : db) (uid : string) (f : odor_fact) :
  f ∈ List.filter (fun f => String.eqb (f_unified_odor_id f) uid) (odor_facts c)
  <-> f ∈ odor_facts c /\ f_unified_odor_id f = uid.
Proof. now rewrite list_elem_of_In, filter_In, <- list_elem_of_In, String.eqb_eq. Qed.

Lemma get_datasets_for_odor_iff (c : db) (uid s : string) :
  s ∈ Query.get_datasets_for_odor c uid
  <-> exists f, f ∈ odor_facts c /\ f_unified_odor_id f = uid /\ f_slug f = s.
Proof.
  unfold Query.get_datasets_for_odor.
  rewrite (proj2 (sorted_set_spec _) s), list_elem_of_fmap. split.
  - intros (f & -> & Hf). apply facts_of_iff in Hf as [Hf Hu]. now exists f.
  - intros (f & Hf & Hu & <-). exists f. split; [reflexivity|]. now apply facts_of_iff.
Qed.

Lemma list_all_datasets_iff (c : db) (s : string) :
  s ∈ Query.list_all_datasets c <-> exists f, f ∈ odor_facts c /\ f_slug f = s.
Proof.
  unfold Query.list_all_datasets.
  rewrite (proj2 (sorted_set_spec _) s), list_elem_of_fmap. split.
  - intros (f & -> & Hf). now exists f.
  - intros (f & Hf & <-). now exists f.
Qed.

End FactQueryFacts.


(** X14: [get_datasets_for_odor] returns, sorted and without repeats, exactly
    the slugs of the facts of the key asked for; [list_all_datasets] returns,
    sorted and without repeats, exactly the slugs of all facts. *)
Theorem dataset_lists_are_exact (c : db) (uid : string) :
  (sorted_unique (Query.get_datasets_for_odor c uid)
   /\ forall s, s ∈ Query.get_datasets_for_odor c uid
                <-> exists f, f ∈ odor_facts c /\ f_unified_odor_id f = uid /\ f_slug f = s)
  /\ (sorted_unique (Query.list_all_datasets c)
      /\ forall s, s ∈ Query.list_all_datasets c <-> exists f, f ∈ odor_facts c /\ f_slug f = s).
Proof.
  split; (split; [apply sorted_set_spec|]).
  - apply get_datasets_for_odor_iff.
  - apply list_all_datasets_iff.
Qed.

Section DescriptorFacts.

Lemma descriptor_where_blank (text : string) (dataset : option string) (f : odor_fact) :
  blank text = true ->
  Query.descriptor_where ("%" +:+ strip text +:+ "%") dataset f = true
  <-> contains_ci (c_str (f_column f)) "descriptor"
      /\ match dataset with
         | Some d => d = "" \/ f_slug f = d
         | None => True
         end.
Proof.
  intros Hb%strip_empty_iff. rewrite Hb. unfold Query.descriptor_where.
  change (sql_lower ("%" +:+ "" +:+ "%")) with "%%". rewrite like_any, andb_true_r.
  rewrite andb_true_iff.
  change "%descriptor%" with ("%" +:+ sql_lower "descriptor" +:+ "%").
  rewrite (sql_like_lowered (f_column f) "descriptor" eq_refl eq_refl).
  destruct dataset as [[|ch d]|]; [tauto| |tauto].
  rewrite String.eqb_eq. split; [intros [H1 H2]; split; [exact H1 | now right]|].
  intros [H1 [H2|H2]]; [discriminate H2 | now split].
Qed.

Lemma NoDup_fmap_inj_on {A B : Type} (f : A -> B) (l : list A) (x y : A) :
  NoDup (map f l) -> x ∈ l -> y ∈ l -> f x = f y -> x = y.
Proof.
  induction l as [|a l IH]; simpl; intros Hnd Hx Hy Hf; [now apply elem_of_nil in Hx|].
  apply NoDup_cons in Hnd as [Ha Hnd].
  apply elem_of_cons in Hx as [->|Hx], Hy as [->|Hy]; trivial.
  - exfalso. apply Ha. rewrite Hf. now apply list_elem_of_fmap_2.
  - exfalso. apply Ha. rewrite <- Hf. now apply list_elem_of_fmap_2.
  - now apply IH.
Qed.

Lemma rows_keys_NoDup (c : db) (rows : list odor) :
  NoDup (odor_keys c) -> NoDup rows -> (forall o, o ∈ rows -> o ∈ odors c) ->
  NoDup (map Query.unified_odor_id (map Query.to_row rows)).
Proof.
  intros Hk Hr Hin. rewrite map_map. simpl.
  apply NoDup_fmap_2_strong; [|exact Hr].
  intros x y Hx Hy. apply (NoDup_fmap_inj_on o_unified_odor_id (odors c)); auto.
Qed.

Lemma limited_rows_NoDup (c : db) (limit : option Z) (rows : list odor) :
  NoDup (odor_keys c) -> NoDup rows -> (forall o, o ∈ rows -> o ∈ odors c) ->
  NoDup (map Query.unified_odor_id
           (map Query.to_row (Query.apply_limit limit (Query.order_rows rows)))).
Proof.
  intros Hk Hr Hin.
  assert (Hs : Query.apply_limit limit (Query.order_rows rows) `sublist_of` Query.order_rows rows)
    by apply apply_limit_sublist.
  apply (rows_keys_NoDup c); [exact Hk | |].
  - apply (sublist_NoDup _ _ (proj2 (NoDup_Permutation_proper _ _ (order_rows_perm rows)) Hr) Hs).
  - intros o Ho. apply Hin. rewrite <- (order_rows_perm rows).
    exact (elem_of_sublist _ _ _ Ho Hs).
Qed.

End DescriptorFacts.

(** X16: for an empty or whitespace-only search text, [descriptor_search]
    without a limit returns exactly the rows of [odors] that have a fact in a
    descriptor-like column (in the dataset asked for when one is), whatever
    the value of the fact: a number counts as a text does. *)
Theorem blank_descriptor_search_ignores_values
    (c : db) (text : string) (dataset : option string) :
  blank text = true ->
  exists rows,
    Query.descriptor_search c text dataset None = Some rows
    /\ forall r,
         r ∈ rows
         <-> exists o f,
               r = Query.to_row o
               /\ o ∈ odors c
               /\ f ∈ odor_facts c
               /\ f_unified_odor_id f = o_unified_odor_id o
               /\ contains_ci (c_str (f_column f)) "descriptor"
               /\ match dataset with
                  | Some d => d = "" \/ f_slug f = d
                  | None => True
                  end.
Proof.
  intros Hb. unfold Query.descriptor_search, Query.apply_limit, Query.order_rows.
  assert (Hok : like_pattern_ok (sql_lower ("%" +:+ strip text +:+ "%")) = true).
  { apply strip_empty_iff in Hb. now rewrite Hb. }
  rewrite Hok. eexists. split; [reflexivity|]. intros r.
  rewrite list_elem_of_fmap. setoid_rewrite sort_by_perm.
  setoid_rewrite elem_of_remove_dups. split.
  - intros (o & -> & Ho). exists o.
    apply list_elem_of_In, in_flat_map in Ho as (o' & Ho' & Hin).
    apply in_map_iff in Hin as (f & <- & Hf).
    apply filter_In in Hf as [Hf Hc]. apply andb_prop in Hc as [Hid Hwhere].
    exists f. split; [reflexivity|].
    do 2 (split; [now apply list_elem_of_In|]).
    split; [now apply String.eqb_eq|].
    now apply (descriptor_where_blank text dataset f Hb).
  - intros (o & f & -> & Ho & Hf & Hid & Hm). exists o. split; [reflexivity|].
    apply list_elem_of_In, in_flat_map. exists o. split; [now apply list_elem_of_In|].
    apply in_map_iff. exists f. split; [reflexivity|].
    apply filter_In. split; [now apply list_elem_of_In|].
    apply andb_true_intro. split; [now apply String.eqb_eq|].
    now apply descriptor_where_blank.
Qed.


(* ===================================================================== *)
(** * Dicts *)
(* ===================================================================== *)

Section DictFacts.

Context {V : Type}.

Lemma dict_set_keys (d : list (string * V)) (k : string) (v : V) :
  map fst (dict_set d k v)
  = map fst d ++ (if bool_decide (k ∈ map fst d) then [] else [k]).
Proof.
  induction d as [|[k' v'] d IH]; simpl; [reflexivity|].
  destruct (String.eqb_spec k' k) as [->|Hne]; simpl.
  - rewrite bool_decide_eq_true_2 by apply list_elem_of_here. now rewrite app_nil_r.
  - rewrite IH. f_equal.
    rewrite (bool_decide_ext (k ∈ k' :: map fst d) (k ∈ map fst d)); [reflexivity|].
    rewrite elem_of_cons. split; [|tauto]. intros [H|H]; [congruence | exact H].
Qed.

Lemma dict_get_set (d : list (string * V)) (k k' : string) (v default : V) :
  dict_get (dict_set d k v) k' default
  = if String.eqb k k' then v else dict_get d k' default.
Proof.
  induction d as [|[k0 v0] d IH]; simpl.
  - reflexivity.
  - destruct (String.eqb_spec k0 k) as [->|Hne]; simpl.
    + now destruct (String.eqb k k').
    + rewrite IH. destruct (String.eqb_spec k0 k') as [->|Hne']; [|reflexivity].
      destruct (String.eqb_spec k k'); [congruence | reflexivity].
Qed.

Lemma dict_set_NoDup (d : list (string * V)) (k : string) (v : V) :
  NoDup (map fst d) -> NoDup (map fst (dict_set d k v)).
Proof.
  intros H. rewrite dict_set_keys. destruct (bool_decide _) eqn:E; [now rewrite app_nil_r|].
  apply bool_decide_eq_false in E.
  apply NoDup_app. repeat split; [exact H | | apply NoDup_singleton].
  intros x Hx Hx'. apply list_elem_of_singleton in Hx'. now subst x.
Qed.

Lemma dict_set_Forall (P : string * V -> Prop) (d : list (string * V)) (k : string) (v : V) :
  Forall P d -> P (k, v) -> Forall P (dict_set d k v).
Proof.
  intros H Hkv. induction H as [|[k0 v0] d H0 Hd IH]; simpl; [now repeat constructor|].
  destruct (String.eqb_spec k0 k) as [->|Hne]; constructor; auto.
Qed.

(** A dict filled by the loop [for r in rows: out[key(r)] = g(key(r))]. *)
Lemma dict_fill_get {A : Type} (key : A -> string) (g : string -> V) (rows : list A)
    (out : list (string * V)) (k : string) (default : V) :
  dict_get (fold_left (fun out r => dict_set out (key r) (g (key r))) rows out) k default
  = if bool_decide (k ∈ map key rows) then g k else dict_get out k default.
Proof.
  revert out. induction rows as [|r rows IH]; intros out; simpl; [reflexivity|].
  rewrite IH, dict_get_set.
  destruct (bool_decide (k ∈ map key rows)) eqn:E.
  - apply bool_decide_eq_true in E. rewrite bool_decide_eq_true_2; [reflexivity|].
    now apply list_elem_of_further.
  - apply bool_decide_eq_false in E.
    destruct (String.eqb_spec (key r) k) as [<-|Hne].
    + rewrite bool_decide_eq_true_2; [reflexivity | apply list_elem_of_here].
    + rewrite bool_decide_eq_false_2; [reflexivity|].
      rewrite elem_of_cons. intros [H|H]; [congruence | contradiction].
Qed.

End DictFacts.

(* ===================================================================== *)
(** * The search table *)
(* ===================================================================== *)

Lemma datasets_for_rows_get (conn : db) (rows : list Query.OdorRow) (r : Query.OdorRow) :
  r ∈ rows ->
  dict_get (App._datasets_for_rows conn rows) (Query.unified_odor_id r) []
  = Query.get_datasets_for_odor conn (Query.unified_odor_id r).
Proof.
  intros Hr. unfold App._datasets_for_rows.
  rewrite (dict_fill_get Query.unified_odor_id (Query.get_datasets_for_odor conn)).
  rewrite bool_decide_eq_true_2; [reflexivity|]. now apply list_elem_of_fmap_2.
Qed.

(** X20: in the search tab, with a maximum of results between 1 and 500 as
    the widget gives it, picking a dataset keeps, in their order, exactly
    the rows found without the filter that have a fact of that dataset; the
    filter comes after the limit, so it selects among the first rows found
    only.  A search that raises does so with and without the filter. *)
Theorem dataset_filter_keeps_odors_of_the_dataset
    (conn : db) (d query : string) (limit : Z) (list_all : bool) :
  d <> "(all datasets)" ->
  1 <= limit <= 500 ->
  match App.odor_search_tab_rows conn "(all datasets)" query limit list_all with
  | Some found =>
      exists rows,
        App.odor_search_tab_rows conn d query limit list_all = Some rows
        /\ rows `sublist_of` found
        /\ forall r,
             r ∈ rows
             <-> r ∈ found
                 /\ exists f, f ∈ odor_facts conn
                              /\ f_unified_odor_id f = Query.unified_odor_id r
                              /\ f_slug f = d
  | None => App.odor_search_tab_rows conn d query limit list_all = None
  end.
Proof.
  intros Hd _. unfold App.odor_search_tab_rows.
  destruct (String.eqb_spec d "(all datasets)") as [->|_]; [contradiction|].
  rewrite String.eqb_refl.
  destruct (if list_all then _ else _) as [[|r0 rows']|]; [| |reflexivity].
  - exists []. split; [reflexivity|]. split; [reflexivity|]. intros r.
    split; [intros H; now apply elem_of_nil in H | intros [H _]; now apply elem_of_nil in H].
  - set (rows := r0 :: rows').
    eexists. split; [reflexivity|]. split; [apply filter_sublist|]. intros r.
    rewrite list_elem_of_In, filter_In, <- list_elem_of_In.
    split.
    + intros [Hr Hin]. split; [exact Hr|].
      apply bool_decide_eq_true in Hin. rewrite (datasets_for_rows_get _ _ _ Hr) in Hin.
      now apply get_datasets_for_odor_iff.
    + intros [Hr Hf]. split; [exact Hr|].
      apply bool_decide_eq_true. rewrite (datasets_for_rows_get _ _ _ Hr).
      now apply get_datasets_for_odor_iff.
Qed.

(* ===================================================================== *)
(** * cmd_show *)
(* ===================================================================== *)

Section ShowFacts.

Lemma like_chars_underscore (p s : list ascii) :
  like_chars ("_"%char :: p) s = match s with [] => false | _ :: s' => like_chars p s' end.
Proof. reflexivity. Qed.

(** A text matches itself as a pattern followed by [%], whatever follows it. *)
Lemma like_self (t post : list ascii) : like_chars (t ++ ["%"%char]) (t ++ post) = true.
Proof.
  induction t as [|c t IH].
  - rewrite !app_nil_l. apply like_percent_iff. exists post, [].
    split; [now rewrite app_nil_r | reflexivity].
  - rewrite <- !app_comm_cons.
    destruct (Ascii.eqb_spec c "%") as [->|H1].
    + apply like_percent_iff. exists ["%"%char], (t ++ post). split; [reflexivity | exact IH].
    + destruct (Ascii.eqb_spec c "_") as [->|H2].
      * rewrite like_chars_underscore. exact IH.
      * rewrite (like_chars_literal c _ _ H1 H2), IH, andb_true_r. apply Ascii.eqb_refl.
Qed.

Lemma like_substring (pre t post : list ascii) :
  like_chars ("%"%char :: t ++ ["%"%char]) (pre ++ t ++ post) = true.
Proof. apply like_percent_iff. exists pre, (t ++ post). split; [reflexivity | apply like_self]. Qed.

Lemma like_refl (t : list ascii) : like_chars t t = true.
Proof.
  induction t as [|c t IH]; [reflexivity|].
  destruct (Ascii.eqb_spec c "%") as [->|H1].
  - apply like_percent_iff. exists ["%"%char], t. split; [reflexivity | exact IH].
  - destruct (Ascii.eqb_spec c "_") as [->|H2].
    + rewrite like_chars_underscore. exact IH.
    + rewrite (like_chars_literal c _ _ H1 H2), IH, andb_true_r. apply Ascii.eqb_refl.
Qed.

Lemma c_str_append (a b : string) :
  c_str (a +:+ b) = if nul_free a then a +:+ c_str b else c_str a.
Proof.
  induction a as [|c a IH]; [reflexivity|]. rewrite append_cons. simpl.
  destruct (Ascii.eqb c Ascii.zero); simpl; [reflexivity|].
  rewrite IH. destruct (nul_free a); [now rewrite append_cons | reflexivity].
Qed.

Lemma lstrip_suffix (s : string) : exists pre, s = pre +:+ lstrip s /\ nul_free pre = true.
Proof.
  induction s as [|c s (pre & IH & Hn)]; simpl; [now exists ""|].
  destruct (isspace c) eqn:E; [|now exists ""].
  exists (String c pre). split; [now rewrite append_cons, <- IH|].
  simpl. rewrite Hn, andb_true_r.
  destruct (Ascii.eqb_spec c Ascii.zero) as [->|]; [discriminate E | reflexivity].
Qed.

Lemma rstrip_prefix (s : string) : exists post, s = rstrip s +:+ post.
Proof.
  induction s as [|c s [post IH]]; simpl; [now exists ""|].
  destruct (rstrip s) as [|d r] eqn:E.
  - rewrite append_nil_l in IH. destruct (isspace c).
    + exists (String c s). reflexivity.
    + exists post. now rewrite append_cons, append_nil_l, <- IH.
  - exists post. now rewrite append_cons, <- IH.
Qed.

Lemma strip_substring (s : string) :
  exists pre post, s = pre +:+ strip s +:+ post /\ nul_free pre = true.
Proof.
  destruct (lstrip_suffix s) as (pre & Hpre & Hn).
  destruct (rstrip_prefix (lstrip s)) as [post Hpost].
  exists pre, post. unfold strip. now rewrite <- Hpost.
Qed.

(** A text is found by a search for itself. *)
Lemma like_own_text (s : string) : sql_like s ("%" +:+ strip s +:+ "%") = true.
Proof.
  destruct (strip_substring s) as (pre & post & Hs & Hn).
  generalize dependent (strip s). intros t ->.
  unfold sql_like, like_text.
  rewrite !c_str_append, Hn. change (nul_free "%") with true. cbv iota.
  rewrite !list_of_append. simpl list_ascii_of_string at 1.
  destruct (nul_free t).
  - change (c_str "%") with "%". rewrite !list_of_append. simpl. apply like_substring.
  - apply like_percent_iff. eexists _, _. split; [reflexivity | apply like_refl].
Qed.

Lemma search_odors_finds_key (conn : db) (o : odor) :
  o ∈ odors conn ->
  utf8_bytes (strip (o_unified_odor_id o)) + 2 <= SQLITE_MAX_LIKE_PATTERN_LENGTH ->
  exists rows,
    Query.search_odors conn (o_unified_odor_id o) None = Some rows
    /\ Query.to_row o ∈ rows
    /\ forall r, r ∈ rows -> exists o', o' ∈ odors conn /\ r = Query.to_row o'.
Proof.
  intros Ho Hlen. unfold Query.search_odors.
  rewrite (proj1 (like_pattern_ok_text _ Hlen)). eexists. split; [reflexivity|]. split.
  - apply list_elem_of_fmap_2. simpl.
    rewrite order_rows_perm. apply list_elem_of_In, filter_In.
    split; [now apply list_elem_of_In|]. now rewrite like_own_text.
  - intros r (o' & -> & Ho')%list_elem_of_fmap. exists o'. split; [|reflexivity].
    simpl in Ho'. rewrite order_rows_perm in Ho'.
    apply list_elem_of_In, filter_In in Ho' as [Ho' _]. now apply list_elem_of_In.
Qed.

Lemma filter_head_find {A : Type} (p : A -> bool) (l : list A) :
  match List.filter p l with x :: _ => Some x | [] => None end = List.find p l.
Proof.
  induction l as [|x l IH]; simpl; [reflexivity|]. now destruct (p x).
Qed.

(** The texts of [cmd_show] without the lookup by key, which it never
    reaches. *)
Lemma show_rows_eq (conn : db) (odor_id : string) (rows : list Query.OdorRow) :
  Cli.show_rows conn odor_id rows
  = match List.find (fun r => String.eqb (Query.unified_odor_id r) odor_id) rows, rows with
    | Some e, _ => Cli.print_odor conn odor_id e
    | None, r :: _ =>
        ["[info] No exact match for " +:+ repr_str odor_id
         +:+ ", using closest candidate " +:+ repr_str (Query.unified_odor_id r) +:+ "."]
        ++ Cli.print_odor conn (Query.unified_odor_id r) r
    | None, [] => ["[error] No odor found matching " +:+ repr_str odor_id +:+ "."]
    end.
Proof.
  unfold Cli.show_rows. simpl.
  pose proof (filter_head_find (fun r => String.eqb (Query.unified_odor_id r) odor_id) rows) as Hf.
  destruct (List.find _ rows) as [e|] eqn:Efind.
  - destruct (List.filter _ rows) as [|e' rest] eqn:Efilt; [discriminate Hf|].
    injection Hf as ->.
    apply find_some in Efind as [_ He]. apply String.eqb_eq in He. rewrite He, Efilt.
    reflexivity.
  - destruct (List.filter _ rows) as [|e' rest] eqn:Efilt; [|discriminate Hf].
    destruct rows as [|r rows']; [reflexivity|].
    simpl. now rewrite String.eqb_refl.
Qed.

End ShowFacts.


(* ===================================================================== *)
(** * The combined wide view *)
(* ===================================================================== *)

Section CombinedViewFacts.

Lemma selected_odors_dict (l : list Query.OdorRow) (d0 : list (string * Query.OdorRow)) :
  let d := fold_left (fun combined o => dict_set combined (Query.unified_odor_id o) o) l d0 in
  (NoDup (map fst d0) -> NoDup (map fst d))
  /\ (Forall (fun e => Query.unified_odor_id (snd e) = fst e) d0 ->
      Forall (fun e => Query.unified_odor_id (snd e) = fst e) d)
  /\ (forall k, k ∈ map fst d <-> k ∈ map fst d0 \/ k ∈ map Query.unified_odor_id l)
  /\ (forall e, e ∈ d -> e ∈ d0 \/ snd e ∈ l).
Proof.
  revert d0. induction l as [|o l IH]; intros d0; simpl.
  - repeat split; auto.
    + intros [H|H]; [exact H | now apply elem_of_nil in H].
  - destruct (IH (dict_set d0 (Query.unified_odor_id o) o)) as (H1 & H2 & H3 & H4).
    repeat split.
    + intros H. now apply H1, dict_set_NoDup.
    + intros H. now apply H2, dict_set_Forall.
    + intros H. apply H3 in H as [H|H]; [|right; now apply list_elem_of_further].
      rewrite dict_set_keys, elem_of_app in H. destruct H as [H|H]; [now left|].
      destruct (bool_decide _); [now apply elem_of_nil in H|].
      apply list_elem_of_singleton in H. subst k. right. apply list_elem_of_here.
    + intros H. apply H3. rewrite dict_set_keys, elem_of_app.
      destruct H as [H|H]; [now left; left|].
      apply elem_of_cons in H as [->|H]; [|now right].
      left. destruct (bool_decide _) eqn:E; [left; now apply bool_decide_eq_true in E|].
      right. apply list_elem_of_here.
    + intros e He. apply H4 in He as [He|He]; [|right; now apply list_elem_of_further].
      clear -He. induction d0 as [|[k0 v0] d0 IHd]; simpl in He.
      * apply list_elem_of_singleton in He. subst e. right. apply list_elem_of_here.
      * destruct (String.eqb _ _).
        -- apply elem_of_cons in He as [->|He]; [right; apply list_elem_of_here|].
           left. now apply list_elem_of_further.
        -- apply elem_of_cons in He as [->|He]; [left; apply list_elem_of_here|].
           destruct (IHd He) as [H|H]; [left; now apply list_elem_of_further | now right].
Qed.

Lemma keyed_DataFrame_valued (facts : list StreamlitApp.KeyedFact) :
  Forall (fun f => StreamlitApp.value f <> PyNone) facts -> StreamlitApp.DataFrame facts = facts.
Proof.
  intros H. unfold StreamlitApp.DataFrame.
  destruct (existsb _ facts && forallb _ facts); [|reflexivity].
  induction H as [|f facts Hf _ IH]; simpl; [reflexivity|]. rewrite IH.
  destruct f as [u sl fl cl v]. simpl in *. now destruct v.
Qed.

Lemma all_facts_valued (conn : db) (odors : list Query.OdorRow) :
  Forall one_value (odor_facts conn) ->
  Forall (fun f => StreamlitApp.value f <> PyNone) (StreamlitApp.all_facts conn odors).
Proof.
  intros H. unfold StreamlitApp.all_facts. induction odors as [|o odors IH]; simpl; [constructor|].
  apply Forall_app. split; [|exact IH].
  apply Forall_map. simpl. exact (get_odor_facts_valued conn _ H).
Qed.

(** The rows of a key among the facts of one odor, with its key attached. *)
Lemma keyed_filter_same (u : string) (k : string * string * string)
    (facts : list Query.FactView) :
  map StreamlitApp.value
      (List.filter (fun f => bool_decide (StreamlitApp.fact_key f = (u, fst (fst k), snd (fst k), snd k)))
                   (map (fun f => StreamlitApp.mkKeyedFact u (Query.slug f) (Query.file f)
                                                          (Query.column f) (Query.value f))
                        facts))
  = group_values facts k.
Proof.
  rewrite <- groupby_values. destruct k as [[s f] c]. simpl.
  induction facts as [|x facts IH]; simpl; [reflexivity|].
  destruct (decide (App.view_key x = (s, f, c))) as [E|E].
  - rewrite (bool_decide_eq_true_2 _ E).
    rewrite bool_decide_eq_true_2; [simpl; now rewrite IH|].
    unfold App.view_key in E. unfold StreamlitApp.fact_key. simpl. now injection E as -> -> ->.
  - rewrite (bool_decide_eq_false_2 _ E).
    rewrite bool_decide_eq_false_2; [exact IH|].
    unfold StreamlitApp.fact_key. simpl. intros [= H1 H2 H3]. apply E.
    unfold App.view_key. congruence.
Qed.

Lemma keyed_filter_other (conn : db) (odors : list Query.OdorRow)
    (k : string * string * string * string) :
  fst (fst (fst k)) ∉ map Query.unified_odor_id odors ->
  List.filter (fun f => bool_decide (StreamlitApp.fact_key f = k))
              (StreamlitApp.all_facts conn odors) = [].
Proof.
  intros Hu. unfold StreamlitApp.all_facts.
  induction odors as [|o odors IH]; simpl; [reflexivity|].
  simpl in Hu. apply not_elem_of_cons in Hu as [Hne Hu].
  rewrite List.filter_app, (IH Hu), app_nil_r.
  induction (Query.get_odor_facts conn (Query.unified_odor_id o)) as [|x l IHl];
    simpl; [reflexivity|].
  rewrite bool_decide_eq_false_2; [exact IHl|].
  unfold StreamlitApp.fact_key. simpl. intros <-. now apply Hne.
Qed.

Lemma keyed_group_values (conn : db) (odors : list Query.OdorRow) (u : string)
    (k : string * string * string) :
  NoDup (map Query.unified_odor_id odors) ->
  u ∈ map Query.unified_odor_id odors ->
  map StreamlitApp.value
      (List.filter (fun f => bool_decide (StreamlitApp.fact_key f = (u, fst (fst k), snd (fst k), snd k)))
                   (StreamlitApp.all_facts conn odors))
  = group_values (Query.get_odor_facts conn u) k.
Proof.
  induction odors as [|o odors IH]; simpl; intros Hnd Hu; [now apply elem_of_nil in Hu|].
  apply NoDup_cons in Hnd as [Ho Hnd].
  rewrite List.filter_app, map_app.
  destruct (decide (Query.unified_odor_id o = u)) as [<-|Hne].
  - rewrite keyed_filter_same, (keyed_filter_other conn odors); [now rewrite app_nil_r|].
    exact Ho.
  - apply elem_of_cons in Hu as [Hu|Hu]; [congruence|].
    rewrite (IH Hnd Hu).
    replace (List.filter _ (map _ _)) with (@nil StreamlitApp.KeyedFact); [reflexivity|].
    symmetry. induction (Query.get_odor_facts conn (Query.unified_odor_id o)) as [|x l IHl];
      simpl; [reflexivity|].
    rewrite bool_decide_eq_false_2; [exact IHl|].
    unfold StreamlitApp.fact_key. simpl. intros [= H _ _ _]. now apply Hne.
Qed.

Lemma keyed_keys (conn : db) (odors : list Query.OdorRow) (u : string)
    (k : string * string * string) :
  (u, fst (fst k), snd (fst k), snd k) ∈ map StreamlitApp.fact_key (StreamlitApp.all_facts conn odors)
  <-> u ∈ map Query.unified_odor_id odors
      /\ k ∈ map App.view_key (Query.get_odor_facts conn u).
Proof.
  destruct k as [[s f] c]. simpl. unfold StreamlitApp.all_facts.
  rewrite list_elem_of_fmap. split.
  - intros (x & Hk & Hx). apply list_elem_of_In, in_flat_map in Hx as (o & Ho & Hx).
    apply in_map_iff in Hx as (y & <- & Hy). unfold StreamlitApp.fact_key in Hk. simpl in Hk.
    injection Hk as -> -> -> ->. split.
    + apply list_elem_of_fmap_2. now apply list_elem_of_In.
    + apply (list_elem_of_fmap_2 App.view_key). now apply list_elem_of_In.
  - intros [Hu Hk]. apply list_elem_of_fmap in Hu as (o & -> & Ho).
    apply list_elem_of_fmap in Hk as (y & Hk & Hy).
    exists (StreamlitApp.mkKeyedFact (Query.unified_odor_id o) (Query.slug y) (Query.file y)
                                     (Query.column y) (Query.value y)).
    split.
    + unfold StreamlitApp.fact_key. simpl. unfold App.view_key in Hk. now injection Hk as -> -> ->.
    + apply list_elem_of_In, in_flat_map. exists o. split; [now apply list_elem_of_In|].
      apply in_map_iff. exists y. split; [reflexivity | now apply list_elem_of_In].
Qed.

End CombinedViewFacts.

(** X22: on a database in which every fact has a value, and for selected
    odors of distinct keys, the combined wide view of [streamlit_app.py] has
    the row (key of the odor, dataset, file, column, value) exactly when the
    odor is selected and its wide view in [app.py] has the row (dataset,
    file, column, value). *)
Theorem combined_view_is_the_union_of_single_views
    (conn : db) (odors : list Query.OdorRow) (u s f c : string) (v : pyobj) :
  Forall one_value (odor_facts conn) ->
  NoDup (map Query.unified_odor_id odors) ->
  ((u, s, f, c), v) ∈ StreamlitApp.rows_agg conn odors
  <-> u ∈ map Query.unified_odor_id odors
      /\ ((s, f, c), v) ∈ App.rows_agg (Query.get_odor_facts conn u).
Proof.
  intros Hc Hnd. unfold StreamlitApp.rows_agg, App.rows_agg.
  rewrite (keyed_DataFrame_valued _ (all_facts_valued conn odors Hc)).
  rewrite (DataFrame_valued _ (get_odor_facts_valued conn u Hc)).
  unfold StreamlitApp.groupby, App.groupby. rewrite !map_map. simpl. split.
  - intros (k & [= <- ->] & Hk)%list_elem_of_fmap.
    rewrite sort_by_perm, elem_of_remove_dups in Hk.
    apply (keyed_keys conn odors u (s, f, c)) in Hk as [Hu Hk].
    split; [exact Hu|]. apply list_elem_of_fmap. exists (s, f, c). split.
    + f_equal. f_equal. rewrite groupby_values.
      apply (keyed_group_values conn odors u (s, f, c) Hnd Hu).
    + now rewrite sort_by_perm, elem_of_remove_dups.
  - intros (Hu & (k & [= <- ->] & Hk)%list_elem_of_fmap).
    rewrite sort_by_perm, elem_of_remove_dups in Hk.
    apply list_elem_of_fmap. exists (u, s, f, c). split.
    + f_equal. f_equal. rewrite groupby_values. symmetry.
      apply (keyed_group_values conn odors u (s, f, c) Hnd Hu).
    + rewrite sort_by_perm, elem_of_remove_dups. now apply (keyed_keys conn odors u (s, f, c)).
Qed.

(** X23: the odors [main] passes to the combined view have distinct keys:
    each key selected in either tab occurs once, and every odor passed was
    selected in one of the tabs. *)
Theorem selected_odors_have_distinct_keys (desc search : list Query.OdorRow) :
  NoDup (map Query.unified_odor_id (StreamlitApp.selected_odors desc search))
  /\ (forall u, u ∈ map Query.unified_odor_id (StreamlitApp.selected_odors desc search)
                <-> u ∈ map Query.unified_odor_id (desc ++ search))
  /\ (forall r, r ∈ StreamlitApp.selected_odors desc search -> r ∈ desc ++ search).
Proof.
  unfold StreamlitApp.selected_odors, dict_values.
  destruct (selected_odors_dict (desc ++ search) []) as (H1 & H2 & H3 & H4).
  simpl in *.
  set (d := fold_left _ (desc ++ search) []) in *.
  assert (Hk : map Query.unified_odor_id (map snd d) = map fst d).
  { rewrite map_map. apply Forall_fmap_ext_1, H2. constructor. }
  repeat split.
  - rewrite Hk. apply H1. constructor.
  - rewrite Hk. intros H. apply H3 in H as [H|H]; [now apply elem_of_nil in H | exact H].
  - rewrite Hk. intros H. apply H3. now right.
  - intros r Hr. apply list_elem_of_fmap in Hr as (e & -> & He).
    destruct (H4 e He) as [H|H]; [now apply elem_of_nil in H | exact H].
Qed.

(* ===================================================================== *)
(** * Facts without a value in the wide view *)
(* ===================================================================== *)

Section NullFacts.

Lemma add_nan_l (x : float) : PrimFloat.add nan x = nan.
Proof. apply Prim2SF_inj. rewrite add_spec. reflexivity. Qed.

Lemma add_nan_r (x : float) : PrimFloat.add x nan = nan.
Proof.
  apply Prim2SF_inj. rewrite add_spec. change (Prim2SF nan) with S754_nan.
  unfold SF64add, SFadd. now destruct (Prim2SF x).
Qed.

Lemma div_nan_l (x : float) : PrimFloat.div nan x = nan.
Proof. apply Prim2SF_inj. rewrite div_spec. reflexivity. Qed.

Lemma fsum_from_nan (xs : list float) : fold_left PrimFloat.add xs nan = nan.
Proof. induction xs as [|x xs IH]; simpl; [reflexivity|]. now rewrite add_nan_l. Qed.

(** A sum with NaN among its terms is NaN. *)
Lemma fsum_nan (xs : list float) : nan ∈ xs -> fsum xs = nan.
Proof.
  unfold fsum. generalize zero. induction xs as [|x xs IH]; intros acc H; simpl.
  - now apply elem_of_nil in H.
  - apply elem_of_cons in H as [<-|H]; [|now apply IH].
    rewrite add_nan_r. apply fsum_from_nan.
Qed.

(** The frame of facts that are numbers or without a value, a number among
    them: the missing values are NaN. *)
Lemma DataFrame_numbers (facts : list Query.FactView) :
  Forall (fun g => Query.value g = PyNone \/ exists x, Query.value g = PyFloat x) facts ->
  (exists g x, g ∈ facts /\ Query.value g = PyFloat x) ->
  App.DataFrame facts
  = map (fun f => match Query.value f with
                  | PyNone => Query.mkFactView (Query.slug f) (Query.file f)
                                               (Query.column f) (PyFloat nan)
                  | _ => f
                  end) facts.
Proof.
  intros Hall (g & x & Hg & Hx). unfold App.DataFrame.
  replace (existsb _ facts) with true.
  - replace (forallb _ facts) with true; [reflexivity|].
    symmetry. apply forallb_forall. intros f Hf%list_elem_of_In.
    rewrite Forall_forall in Hall. now destruct (Hall f Hf) as [->|[y ->]].
  - symmetry. apply existsb_exists. exists g.
    split; [now apply list_elem_of_In | now rewrite Hx].
Qed.

End NullFacts.

(** X19: when the facts of an odor are numbers and facts without a value, at
    least one a number, the wide view gives NaN to the key of every fact
    without a value: the frame holds the missing value as NaN, which counts as
    numeric and makes the mean NaN. *)
Theorem null_value_among_numbers_gives_nan (facts : list Query.FactView) (f : Query.FactView) :
  Forall (fun g => Query.value g = PyNone \/ exists x, Query.value g = PyFloat x) facts ->
  (exists g x, g ∈ facts /\ Query.value g = PyFloat x) ->
  f ∈ facts ->
  Query.value f = PyNone ->
  ((Query.slug f, Query.file f, Query.column f), PyFloat nan) ∈ App.rows_agg facts.
Proof.
  intros Hall Hnum Hf Hnone. unfold App.rows_agg.
  rewrite (DataFrame_numbers facts Hall Hnum).
  set (coerce := fun f : Query.FactView => match Query.value f with
                                          | PyNone => _
                                          | _ => f
                                          end).
  assert (Hkey : forall g, App.view_key (coerce g) = App.view_key g).
  { intros g. unfold coerce. now destruct (Query.value g). }
  assert (Hval : forall g, g ∈ facts -> exists x, Query.value (coerce g) = PyFloat x).
  { intros g Hg. rewrite Forall_forall in Hall. unfold coerce.
    destruct (Hall g Hg) as [->|[y Hy]]; [now exists nan | rewrite Hy; now exists y]. }
  unfold App.groupby. rewrite map_map. simpl.
  apply list_elem_of_fmap. exists (App.view_key f). split.
  - f_equal. unfold App.aggregate.
    set (vals := map Query.value (List.filter _ (map coerce facts))).
    assert (Hfloats : Forall (fun v => exists x, v = PyFloat x) vals).
    { unfold vals. apply Forall_map, Forall_forall. intros g Hg.
      apply list_elem_of_In, filter_In in Hg as [Hg _].
      apply in_map_iff in Hg as (g0 & <- & Hg0). apply Hval. now apply list_elem_of_In. }
    assert (Hin : PyFloat nan ∈ vals).
    { unfold vals. apply list_elem_of_fmap. exists (coerce f). split.
      - unfold coerce. now rewrite Hnone.
      - apply list_elem_of_In, filter_In. split.
        + apply in_map. now apply list_elem_of_In.
        + apply bool_decide_eq_true. apply Hkey. }
    assert (Hnumeric : List.filter is_int_or_float vals = vals).
    { apply filter_all. eapply Forall_impl; [exact Hfloats|]. now intros v [x ->]. }
    rewrite Hnumeric, Nat.eqb_refl, andb_true_r.
    destruct vals as [|v vals']; [now apply elem_of_nil in Hin|]. cbn [length Nat.eqb negb].
    rewrite fsum_nan; [now rewrite div_nan_l|].
    change nan with (float_of_num (PyFloat nan)). now apply list_elem_of_fmap_2.
  - rewrite sort_by_perm, elem_of_remove_dups, map_map.
    apply list_elem_of_fmap. exists f. split; [now rewrite Hkey | exact Hf].
Qed.

(* ===================================================================== *)
(** * Examples and instances *)
(* ===================================================================== *)

Example strip_lower_examples :
  strip "  Stimulus " = "Stimulus" /\ lower "Behavior_1.CSV" = "behavior_1.csv"
  /\ is_behavior_csv "Behavior_1.CSV" = true /\ is_behavior_csv "stimuli.csv" = false.
Proof. repeat split; reflexivity. Qed.

Example float_of_str_examples :
  float_of_str "3.5" = Some 3.5%float
  /\ float_of_str "1_000.5e1" = Some 10005%float
  /\ float_of_str "-Infinity" = Some neg_infinity
  /\ float_of_str "1e400" = Some infinity
  /\ float_of_str "NaN" = Some nan
  /\ float_of_str "1__0" = None
  /\ float_of_str "abc" = None.
Proof. repeat split; vm_compute; reflexivity. Qed.

(** [repr(float(s))] *)
Example float_repr_examples :
  map (fun s => option_map float_repr (float_of_str s))
      ["7410"; "3.5"; "3.2"; "0.1"; "0.0001"; "0.00001"; "1e16"; "1e22"; "1e23";
       "5e-324"; "-0"; "inf"; "nan"]
  = map Some
      ["7410.0"; "3.5"; "3.2"; "0.1"; "0.0001"; "1e-05"; "1e+16"; "1e+22"; "1e+23";
       "5e-324"; "-0.0"; "inf"; "nan"].
Proof. vm_compute. reflexivity. Qed.

Example sql_like_examples :
  sql_like "citrus, sweet" "%citrus%" = true
  /\ sql_like "Citrus" "%citrus%" = true
  /\ sql_like "abc" "%a_c%" = true
  /\ sql_like "" "%%" = true
  /\ sql_like "sweet" "%citrus%" = false
  /\ sql_trim "  a " = "a" /\ sql_trim "	" <> "".
Proof. repeat split; try reflexivity. discriminate. Qed.

(** LIKE reads its operands up to their first NUL, and takes a pattern of
    50000 bytes but not of 50001 (a character from U+0080 on is two bytes). *)
Example sql_like_nul_examples :
  let nul := String Ascii.zero "" in
  sql_like "abc" ("%" +:+ nul +:+ "%") = true
  /\ sql_like "abc" ("%b" +:+ nul +:+ "zzz%") = false
  /\ sql_like ("ab" +:+ nul +:+ "c") "%c%" = false
  /\ sql_like ("ab" +:+ nul +:+ "c") "ab" = true
  /\ utf8_bytes (String (ascii_of_nat 233) "a" +:+ nul) = 4
  /\ like_pattern_ok (string_of_list_ascii (repeat "a"%char (Z.to_nat 50000))) = true
  /\ like_pattern_ok (string_of_list_ascii (repeat "a"%char (Z.to_nat 50001))) = false.
Proof. repeat split; vm_compute; reflexivity. Qed.

(** The example of the specification. *)
Example abraham_2012_example :
  ingest_all empty_db abraham_root
  = {| odors := [mkOdor "CID:7410" (Some "abraham_2012") (Some "1") (Some "1")
                        (Some "7410") None None];
       odor_facts :=
         [mkFact "CID:7410" "abraham_2012" "stimuli.csv" "CID" None (Some 7410%float);
          mkFact "CID:7410" "abraham_2012" "behavior.csv" "Intensity" None
                 (Some 0x1.999999999999ap+1%float)] |}.
Proof. vm_compute. reflexivity. Qed.

Example aggregate_examples :
  App.aggregate [PyFloat 1; PyFloat 2; PyFloat 6] = PyFloat 3
  /\ App.aggregate [PyFloat 1; PyStr "b"; PyStr "a"; PyNone; PyStr "a"] = PyStr "1.0; a; b"
  /\ App.rows_agg (Query.get_odor_facts pivot_db "CID:1")
     = [(("d", "behavior.csv", "Intensity"), PyFloat 1.5);
        (("d", "behavior.csv", "Label"), PyStr "4.0; a; b")].
Proof. repeat split; vm_compute; reflexivity. Qed.

(** [pivot_aggregates_each_group] on the facts of the odor of [pivot_db]. *)
Lemma pivot_aggregates_each_group_example :
  let facts := Query.get_odor_facts pivot_db "CID:1" in
  Forall (fun row =>
            group_values facts (fst row) <> []
            /\ pivot_rule (group_values facts (fst row)) (snd row))
         (App.rows_agg facts)
  /\ NoDup (map fst (App.rows_agg facts))
  /\ (forall dataset file column,
        (dataset, file, column) ∈ map fst (App.rows_agg facts)
        <-> exists f, f ∈ facts /\ Query.slug f = dataset /\ Query.file f = file
                      /\ Query.column f = column).
Proof.
  apply (pivot_aggregates_each_group pivot_db "CID:1").
  unfold pivot_db. simpl.
  repeat (constructor;
          [first [ right; split; reflexivity
                 | left; split; [discriminate | reflexivity] ] |]).
  constructor.
Defined.

(** [upsert_fills_only_blank_fields] on a second ingestion of the example. *)
Lemma upsert_fills_only_blank_fields_example :
  exists old new,
    odors (ingest_all (ingest_all empty_db abraham_root) abraham_root) = old ++ new
    /\ Forall2 never_regresses (odors (ingest_all empty_db abraham_root)) old.
Proof.
  apply (proj2 upsert_fills_only_blank_fields).
  apply ingested_all, ingested_empty.
Defined.

(** [facts_have_exactly_one_value] on the database of the example. *)
Lemma facts_have_exactly_one_value_example :
  Forall one_value (odor_facts (ingest_all empty_db abraham_root)).
Proof.
  apply (proj1 facts_have_exactly_one_value).
  apply ingested_all, ingested_empty.
Defined.

(** [identity_name_never_null] on the database of the example. *)
Lemma identity_name_never_null_example :
  Forall (fun o => o_name o <> None) (odors (ingest_all empty_db abraham_root)).
Proof.
  apply (proj2 identity_name_never_null).
  apply ingested_all, ingested_empty.
Defined.

(** [oversized_dataset_is_skipped] on a dataset of 5001 behavior rows and a
    database that holds rows already. *)
Lemma oversized_dataset_is_skipped_example :
  ingest_dataset citrus_db oversized_root "big" = citrus_db.
Proof.
  apply (oversized_dataset_is_skipped citrus_db oversized_root "big" oversized_dir).
  - reflexivity.
  - apply Nat.ltb_lt. vm_compute. reflexivity.
Defined.

(** [descriptor_search_exact] on a search for [Citrus ] in [citrus_db]. *)
Lemma descriptor_search_exact_example :
  exists rows,
    Query.descriptor_search citrus_db "CITRUS " None None = Some rows
    /\ NoDup rows
    /\ forall r,
         r ∈ rows
         <-> exists o f,
               r = Query.to_row o
               /\ o ∈ odors citrus_db
               /\ f ∈ odor_facts citrus_db
               /\ f_unified_odor_id f = o_unified_odor_id o
               /\ descriptor_match "CITRUS " None f.
Proof.
  apply (descriptor_search_exact citrus_db "CITRUS " None).
  repeat split; [discriminate | vm_compute; discriminate].
Defined.

(** [facts_belong_to_odors] on the database of the example. *)
Lemma facts_belong_to_odors_example :
  Forall (fun f => exists o, o ∈ odors (ingest_all empty_db abraham_root)
                             /\ o_unified_odor_id o = f_unified_odor_id f)
         (odor_facts (ingest_all empty_db abraham_root)).
Proof.
  apply (facts_belong_to_odors (ingest_all empty_db abraham_root)).
  apply ingested_all, ingested_empty.
Defined.

(** [stored_texts_are_trimmed] on the database of the example. *)
Lemma stored_texts_are_trimmed_example :
  Forall odor_trimmed (odors (ingest_all empty_db abraham_root))
  /\ Forall text_fact (odor_facts (ingest_all empty_db abraham_root)).
Proof.
  apply (stored_texts_are_trimmed (ingest_all empty_db abraham_root)).
  apply ingested_all, ingested_empty.
Defined.

(** [dataset_without_usable_behavior_file_writes_nothing] on a folder with a
    stimulus table and a behavior file that cannot be read. *)
Lemma dataset_without_usable_behavior_file_example :
  ingest_dataset citrus_db
    (Some [("d", Some [("behavior.csv", None);
                       ("stimuli.csv",
                        Some (mkDataFrame ["Stimulus"; "CID"] [[PyStr "A"; PyInt 1 I]]))])])
    "d"
  = citrus_db.
Proof.
  eapply dataset_without_usable_behavior_file_writes_nothing.
  - reflexivity.
  - repeat constructor.
Defined.




(** [blank_descriptor_search_ignores_values] on a search for a space in a
    database whose one descriptor-like fact is a number. *)
Lemma blank_descriptor_search_ignores_values_example :
  exists rows,
    Query.descriptor_search numeric_descriptor_db " " None None = Some rows
    /\ forall r,
         r ∈ rows
         <-> exists o f,
               r = Query.to_row o
               /\ o ∈ odors numeric_descriptor_db
               /\ f ∈ odor_facts numeric_descriptor_db
               /\ f_unified_odor_id f = o_unified_odor_id o
               /\ contains_ci (c_str (f_column f)) "descriptor"
               /\ True.
Proof.
  apply (blank_descriptor_search_ignores_values numeric_descriptor_db " " None). reflexivity.
Defined.


(** [dataset_filter_keeps_odors_of_the_dataset] on a search in [citrus_db]
    with its dataset picked. *)
Lemma dataset_filter_keeps_odors_of_the_dataset_example :
  match App.odor_search_tab_rows citrus_db "(all datasets)" "limonene" 50 false with
  | Some found =>
      exists rows,
        App.odor_search_tab_rows citrus_db "d" "limonene" 50 false = Some rows
        /\ rows `sublist_of` found
        /\ forall r,
             r ∈ rows
             <-> r ∈ found
                 /\ exists f, f ∈ odor_facts citrus_db
                              /\ f_unified_odor_id f = Query.unified_odor_id r
                              /\ f_slug f = "d"
  | None => App.odor_search_tab_rows citrus_db "d" "limonene" 50 false = None
  end.
Proof.
  apply (dataset_filter_keeps_odors_of_the_dataset citrus_db "d" "limonene" 50 false).
  - discriminate.
  - lia.
Defined.

(** [combined_view_is_the_union_of_single_views] on the odor of [pivot_db]. *)
Lemma combined_view_example :
  let sel := [Query.mkOdorRow "CID:1" (Some "A") (Some "1") None None (Some "d") (Some "A")] in
  (("CID:1", "d", "behavior.csv", "Intensity"), PyFloat 1.5) ∈ StreamlitApp.rows_agg pivot_db sel
  <-> "CID:1" ∈ map Query.unified_odor_id sel
      /\ (("d", "behavior.csv", "Intensity"), PyFloat 1.5)
         ∈ App.rows_agg (Query.get_odor_facts pivot_db "CID:1").
Proof.
  apply (combined_view_is_the_union_of_single_views pivot_db).
  - unfold pivot_db. simpl.
    repeat (constructor;
            [first [ right; split; reflexivity
                   | left; split; [discriminate | reflexivity] ] |]).
    constructor.
  - apply NoDup_singleton.
Defined.

(** [null_value_among_numbers_gives_nan] on the facts of the odor of
    [null_value_db]. *)
Lemma null_value_among_numbers_gives_nan_example :
  (("d", "behavior.csv", "Intensity"), PyFloat nan)
  ∈ App.rows_agg [Query.mkFactView "d" "behavior.csv" "Intensity" (PyFloat 1);
                  Query.mkFactView "d" "behavior.csv" "Intensity" PyNone;
                  Query.mkFactView "d" "behavior.csv" "Intensity" (PyFloat 3)].
Proof.
  apply (null_value_among_numbers_gives_nan
           _ (Query.mkFactView "d" "behavior.csv" "Intensity" PyNone)).
  - constructor; [right; now eexists|]. constructor; [now left|].
    constructor; [right; now eexists|]. constructor.
  - eexists _, _. split; [apply list_elem_of_here | reflexivity].
  - apply list_elem_of_further, list_elem_of_here.
  - reflexivity.
Defined.
